(** * mquery-sru: the work broker, the query translator and the FCS handlers

    A shallow embedding of the Go sources of the FCS endpoint:
    - [rdb]     the Redis adapter (queue, reply channels, stored results),
    - [basic]   the lexer of the basic FCS query language and the goyacc
                generated LALR driver with its tables,
    - [handler], [v12], [v12c]  the three [searchRetrieve] handlers,
    - [rdb_more], [handler_more], [v12_more]  the other methods of the
                adapter, and [explain] with the two dispatchers.

    Go values are modelled as follows: [string] is a byte string (an
    [ascii] is one byte), [int] is [Z], a slice is a [list], a map is a
    [gmap], a nil-able value is an [option], an [error] interface value is
    an element of [rdb.error].  Logging calls are left out everywhere. *)

From Stdlib Require Import ZArith Ascii String DecimalString.
From stdpp Require Import gmap strings list fin_maps sorting.

Open Scope string_scope.
Open Scope list_scope.

(** Decimal rendering of an [int] ([%d]). *)
Definition itoa (z : Z) : string := NilZero.string_of_int (Z.to_int z).

(** Two's complement wrap-around of a 64 bit [int]. *)
Definition wrap64 (z : Z) : Z := ((z + 2 ^ 63) mod 2 ^ 64 - 2 ^ 63)%Z.

(* ================================================================== *)
(** * Package rdb *)
(* ================================================================== *)
Module rdb.

(** ** Error values

    An [error] is an interface value; what the adapter ever asks of one is
    its message ([Error()]) and the name of its dynamic type ([%T]). *)
Inductive error : Type :=
| errorString (s : string)                  (* errors.New, fmt.Errorf without %w *)
| wrapError (msg : string) (inner : error)  (* fmt.Errorf with one %w, msg already formatted *)
| TimeoutError (Msg : string)
| TransmittedError (Message Type_ : string) (* a *TransmittedError *)
| foreignError (typeName msg : string).     (* an error of go-redis or encoding/gob *)

Definition Error (e : error) : string :=
  match e with
  | errorString s => s
  | wrapError msg _ => msg
  | TimeoutError Msg => Msg
  | TransmittedError Message Type_ =>
      "TransmittedError(" +:+ Type_ +:+ ": " +:+ Message +:+ ")"
  | foreignError _ msg => msg
  end.

(** [fmt.Sprintf("%T", e)] *)
Definition typeName_of (e : error) : string :=
  match e with
  | errorString _ => "*errors.errorString"
  | wrapError _ _ => "*fmt.wrapError"
  | TimeoutError _ => "rdb.TimeoutError"
  | TransmittedError _ _ => "*rdb.TransmittedError"
  | foreignError t _ => t
  end.

(** [fmt.Errorf(prefix + ": %w", err)] *)
Definition Errorf_w (prefix : string) (err : error) : error :=
  wrapError (prefix +:+ ": " +:+ Error err) err.

Definition MsgNewQuery : string := "newQuery".
Definition MsgNewResult : string := "newResult".
Definition DefaultQueueKey : string := "mqueryQueue".
Definition DefaultResultChannelPrefix : string := "mqueryResults".
Definition DefaultQueryChannel : string := "mqueryQueries".
(** durations are nanoseconds *)
Definition Second : Z := 1000000000.
Definition Minute : Z := 60 * Second.
Definition DefaultResultExpiration : Z := 10 * Minute.
Definition DefaultQueryAnswerTimeout : Z := 60 * Second.

Definition ErrorEmptyQueue : error := errorString "no queries in the queue".

Record ConcQueryArgs : Type := {
  CorpusPath : string;
  cqQuery : string;
  Attrs : list string;
  MaxItems : Z;
  StartLine : Z;
  MaxContext : Z;
  ViewContextStruct : string
}.

Record Query : Type := {
  Channel : string;
  Func : string;
  Args : ConcQueryArgs
}.

(** The zero values [ConcQueryArgs{}] and [Query{}]. *)
Definition ConcQueryArgs_zero : ConcQueryArgs :=
  {| CorpusPath := ""; cqQuery := ""; Attrs := []; MaxItems := 0;
     StartLine := 0; MaxContext := 0; ViewContextStruct := "" |}.
Definition Query_zero : Query :=
  {| Channel := ""; Func := ""; Args := ConcQueryArgs_zero |}.

(** ** Package result: the concordance a worker sends back *)
Record Token : Type := { Word : string; Strong : bool }.
Record Line : Type := { Text : list Token }.
Record ConcResult : Type := {
  Lines : list Line;
  ConcSize : Z;
  crQuery : string;
  crError : option error
}.
Definition ConcResult_zero : ConcResult :=
  {| Lines := []; ConcSize := 0; crQuery := ""; crError := None |}.
Definition set_Error (v : ConcResult) (e : option error) : ConcResult :=
  {| Lines := Lines v; ConcSize := ConcSize v; crQuery := crQuery v;
     crError := e |}.

(** ** encoding/gob

    The binary codec is a library; the adapter only relies on it being
    some encoder and some decoder.  [decodeResult s v] decodes [s] into
    the existing value [v], as [dec.Decode(&ans)] does. *)
Class Gob : Type := {
  encodeQuery : Query -> string + error;
  decodeQuery : string -> Query * option error;
  encodeResult : ConcResult -> string + error;
  decodeResult : string -> ConcResult -> ConcResult * option error
}.

(** ** The Redis server as the adapter sees it

    One list per key (head of the Coq list = left end), a key-value
    store, the open subscriptions with the messages delivered to them,
    and a script [faults] that tells for each coming command whether the
    transport fails ([Some e]) or not.  Every command is appended to
    [log] when it is issued. *)
Inductive Cmd : Type :=
| CmdPing
| CmdSubscribe (channel : string)
| CmdLPush (key value : string)
| CmdRPop (key : string)
| CmdPublish (channel message : string)
| CmdSet (key value : string) (expiration : Z)
| CmdGet (key : string)
| CmdPubSubNumSub (channel : string).

Record Subscription : Type := {
  subChannel : string;
  inbox : list string;
  subClosed : bool
}.

Record Redis : Type := {
  lists : gmap string (list string);
  kv : gmap string (string * Z);
  subs : list Subscription;
  faults : list (option error);
  log : list Cmd
}.

Definition redisNil : error := foreignError "proto.RedisError" "redis: nil".

(** The outcome of one command: the fault the script holds for it. *)
Definition next_fault (r : Redis) : option error * list (option error) :=
  match faults r with
  | [] => (None, [])
  | f :: fs => (f, fs)
  end.

(** [StringCmd]: a value and an error, read with [Val()] and [Err()]. *)
Record StringCmd : Type := { Val : string; Err : option error }.

(** [client.Subscribe]: returns the subscription and no error. *)
Definition Subscribe (r : Redis) (channel : string) : nat * Redis :=
  (length (subs r),
   {| lists := lists r; kv := kv r;
      subs := subs r ++ [{| subChannel := channel; inbox := [];
                            subClosed := false |}];
      faults := faults r;
      log := log r ++ [CmdSubscribe channel] |}).

Definition LPush (r : Redis) (key value : string) : option error * Redis :=
  let '(f, fs) := next_fault r in
  let lg := log r ++ [CmdLPush key value] in
  match f with
  | Some e =>
      (Some e, {| lists := lists r; kv := kv r; subs := subs r;
                  faults := fs; log := lg |})
  | None =>
      (None, {| lists := <[key := value :: default [] (lists r !! key)]> (lists r);
                kv := kv r; subs := subs r; faults := fs; log := lg |})
  end.

Definition RPop (r : Redis) (key : string) : StringCmd * Redis :=
  let '(f, fs) := next_fault r in
  let lg := log r ++ [CmdRPop key] in
  let same := {| lists := lists r; kv := kv r; subs := subs r;
                 faults := fs; log := lg |} in
  match f with
  | Some e => ({| Val := ""; Err := Some e |}, same)
  | None =>
      match List.rev (default [] (lists r !! key)) with
      | [] => ({| Val := ""; Err := Some redisNil |}, same)
      | v :: rest =>
          ({| Val := v; Err := None |},
           {| lists := <[key := List.rev rest]> (lists r); kv := kv r;
              subs := subs r; faults := fs; log := lg |})
      end
  end.

Definition deliver (channel message : string) (s : Subscription) : Subscription :=
  if bool_decide (subChannel s = channel) && negb (subClosed s)
  then {| subChannel := subChannel s; inbox := inbox s ++ [message];
          subClosed := subClosed s |}
  else s.

Definition Publish (r : Redis) (channel message : string) : option error * Redis :=
  let '(f, fs) := next_fault r in
  let lg := log r ++ [CmdPublish channel message] in
  match f with
  | Some e =>
      (Some e, {| lists := lists r; kv := kv r; subs := subs r;
                  faults := fs; log := lg |})
  | None =>
      (None, {| lists := lists r; kv := kv r;
                subs := deliver channel message <$> subs r;
                faults := fs; log := lg |})
  end.

Definition Set_ (r : Redis) (key value : string) (expiration : Z) : option error * Redis :=
  let '(f, fs) := next_fault r in
  let lg := log r ++ [CmdSet key value expiration] in
  match f with
  | Some e =>
      (Some e, {| lists := lists r; kv := kv r; subs := subs r;
                  faults := fs; log := lg |})
  | None =>
      (None, {| lists := lists r; kv := <[key := (value, expiration)]> (kv r);
                subs := subs r; faults := fs; log := lg |})
  end.

Definition Get (r : Redis) (key : string) : StringCmd * Redis :=
  let '(f, fs) := next_fault r in
  let r' := {| lists := lists r; kv := kv r; subs := subs r;
               faults := fs; log := log r ++ [CmdGet key] |} in
  match f with
  | Some e => ({| Val := ""; Err := Some e |}, r')
  | None =>
      match kv r !! key with
      | Some (v, _) => ({| Val := v; Err := None |}, r')
      | None => ({| Val := ""; Err := Some redisNil |}, r')
      end
  end.

Definition closeSub (r : Redis) (i : nat) : Redis :=
  {| lists := lists r; kv := kv r;
     subs := alter (fun s => {| subChannel := subChannel s; inbox := inbox s;
                                subClosed := true |}) i (subs r);
     faults := faults r; log := log r |}.

(** ** The adapter *)
Record Conf : Type := {
  Host : string;
  Port : Z;
  DB : Z;
  Password : string;
  ChannelQuery : string;
  ChannelResultPrefix : string;
  QueryAnswerTimeoutSecs : Z
}.

Record Options : Type := { Addr : string; optPassword : string; optDB : Z }.

Record Adapter : Type := {
  redis : Options;
  conf : Conf;
  channelQuery : string;
  channelResultPrefix : string;
  queryAnswerTimeout : Z
}.

(** [NewAdapter].  In the second [if] the source declares a new variable
    with [:=]; it lives in the block of the [if] only, and the outer
    [chQuery] is what the adapter gets. *)
Definition NewAdapter (conf : Conf) : Adapter :=
  let chRes := ChannelResultPrefix conf in
  let chQuery := ChannelQuery conf in
  let chRes :=
    if bool_decide (chRes = "") then DefaultResultChannelPrefix else chRes in
  let chQuery :=
    if bool_decide (chQuery = "")
    then (let chQuery_inner := DefaultQueryChannel in chQuery)
    else chQuery in
  let queryAnswerTimeout := wrap64 (QueryAnswerTimeoutSecs conf * Second) in
  let queryAnswerTimeout :=
    if bool_decide (queryAnswerTimeout = 0%Z) then DefaultQueryAnswerTimeout
    else queryAnswerTimeout in
  {| redis := {| Addr := Host conf +:+ ":" +:+ itoa (Port conf);
                 optPassword := Password conf; optDB := DB conf |};
     conf := conf;
     channelQuery := chQuery;
     channelResultPrefix := chRes;
     queryAnswerTimeout := queryAnswerTimeout |}.

(** ** The adapter's methods

    Each method takes the state of the Redis server and returns the new
    one with its results. *)
Section Methods.
Context `{Gob}.

(** [DecodeQuery] *)
Definition DecodeQuery (q : string) : Query * option error := decodeQuery q.

(** What [PublishQuery] leaves to the goroutine it starts: the
    subscription [sub] and the reply channel. *)
Record Waiter : Type := { wSub : nat; wChannel : string }.

(** [PublishQuery], the part that runs in the caller.  [uuid] is the value
    of [uuid.New().String()].  The first component is the returned
    channel ([None] for nil): it stands for the goroutine that feeds it,
    see [watch]. *)
Definition PublishQuery (a : Adapter) (uuid : string) (query : Query) (r : Redis)
  : option Waiter * option error * Redis :=
  let query := {| Channel := channelResultPrefix a +:+ ":" +:+ uuid;
                  Func := Func query; Args := Args query |} in
  match encodeQuery query with
  | inr err => (None, Some (Errorf_w "failed to publish query" err), r)
  | inl msg =>
      let '(sub, r) := Subscribe r (Channel query) in
      let '(err, r) := LPush r DefaultQueueKey msg in
      match err with
      | Some err => (None, Some err, r)
      | None =>
          let '(err, r) := Publish r (channelQuery a) MsgNewQuery in
          (Some {| wSub := sub; wChannel := Channel query |}, err, r)
      end
  end.

(** The goroutine of [PublishQuery].  Each turn of its [for] loop is one
    [select]; the case a [select] takes is chosen by the environment
    (timers, the cancellation of [a.ctx], the arrival of a message), so
    a run is driven by the list of chosen cases.  A chosen receive from
    [sub.Channel()] that is not ready (nothing delivered, subscription
    open) is skipped.  The sends on [ansChan] are collected in order: they
    are what a receiver that keeps receiving gets. *)
Inductive SelectCase : Type :=
| caseItem      (* case item, ok := <-sub.Channel() *)
| caseCtx3Done  (* case <-ctx3.Done() *)
| caseCtxDone.  (* case <-a.ctx.Done() *)

Inductive Exit : Type :=
| Returned   (* the deferred sub.Close() and close(ansChan) have run *)
| Panicked.  (* item is nil on a closed subscription: item.Payload panics *)

Definition takeItem (r : Redis) (i : nat) : Redis :=
  {| lists := lists r; kv := kv r;
     subs := alter (fun s => {| subChannel := subChannel s;
                                inbox := tail (inbox s);
                                subClosed := subClosed s |}) i (subs r);
     faults := faults r; log := log r |}.

Definition timeoutError : error :=
  errorString "waiting for worker response timeout".

Fixpoint watch (w : Waiter) (sched : list SelectCase) (ans : ConcResult)
    (r : Redis) : list ConcResult * option Exit * Redis :=
  match sched with
  | [] => ([], None, r)
  | caseItem :: sched' =>
      match inbox <$> subs r !! wSub w, subClosed <$> subs r !! wSub w with
      | Some (payload :: _), _ =>
          let r := takeItem r (wSub w) in
          let '(cmd, r) := Get r payload in
          let ans :=
            match Err cmd with
            | Some e => set_Error ans (Some e)
            | None =>
                let '(ans, err) := decodeResult (Val cmd) ans in
                match err with
                | Some e => set_Error ans (Some e)
                | None => ans
                end
            end in
          ([ans], Some Returned, closeSub r (wSub w))
      | Some [], Some true => ([], Some Panicked, closeSub r (wSub w))
      | _, _ => watch w sched' ans r
      end
  | caseCtx3Done :: sched' =>
      let ans := set_Error ans (Some timeoutError) in
      let '(out, ex, r) := watch w sched' ans r in
      (ans :: out, ex, r)
  | caseCtxDone :: _ => ([], Some Returned, closeSub r (wSub w))
  end.

(** The body of [DequeueQuery] below the [RPop]. *)
Definition dequeued (cmd : StringCmd) : Query * option error :=
  if bool_decide (Val cmd = "") then (Query_zero, Some ErrorEmptyQueue)
  else
    match Err cmd with
    | Some e => (Query_zero, Some (Errorf_w "failed to dequeue query" e))
    | None =>
        let '(q, err) := DecodeQuery (Val cmd) in
        match err with
        | Some e => (Query_zero, Some (Errorf_w "failed to deserialize query" e))
        | None => (q, None)
        end
    end.

Definition DequeueQuery (a : Adapter) (r : Redis) : Query * option error * Redis :=
  let '(cmd, r) := RPop r DefaultQueueKey in
  (dequeued cmd, r).

(** [PublishResult].  [value] is a pointer in the source: the value as it
    is after the call comes back as the first component. *)
Definition PublishResult (a : Adapter) (channelName : string)
    (value : ConcResult) (r : Redis) : ConcResult * option error * Redis :=
  let value :=
    match crError value with
    | Some e =>
        set_Error value (Some (TransmittedError (Error e) (typeName_of e)))
    | None => value
    end in
  match encodeResult value with
  | inr err =>
      (value, Some (Errorf_w "failed to serialize (GOB) result" err), r)
  | inl msg =>
      let '(_, r) := Set_ r channelName msg DefaultResultExpiration in
      let '(err, r) := Publish r channelName channelName in
      (value, err, r)
  end.

End Methods.

End rdb.

(* ================================================================== *)
(** * Package basic: the lexer and the generated parser *)
(* ================================================================== *)
Module basic.

Definition error := rdb.error.

(** The outcome of running Go code that may panic; [OutOfFuel] is the
    model's own: the driver loop of the parser is run with a budget of
    turns, which [yyParse_returns] shows to be enough for the transformer
    [NewBasicTransformer] starts from. *)
Inductive run (A : Type) : Type :=
| Ok (a : A)
| GoPanic
| OutOfFuel.
Arguments Ok {A} a.
Arguments GoPanic {A}.
Arguments OutOfFuel {A}.

(** ** The syntax tree

    [node] is an interface; [nilNode] is its nil value.  The constructors
    are the struct literals of the semantic actions. *)
Inductive node : Type :=
| nilNode
| termNode (s : string)
| parenNode (child : node)
| unaryNode (Op : string) (Child : node)
| binaryNode (Op : string) (Left Right : node)
| rootNode (child : node).

Definition EOF : Z := 0.

Record basicTransformer : Type := {
  input : string;
  parseResult : node;
  defaultAttr : string;
  errors : list error
}.


Definition AddError (t : basicTransformer) (err : error) : basicTransformer :=
  {| input := input t; parseResult := parseResult t;
     defaultAttr := defaultAttr t; errors := errors t ++ [err] |}.

Definition Errors (t : basicTransformer) : list error := errors t.

(** [Error(e string)], the method the parser reports with. *)
Definition Error (t : basicTransformer) (e : string) : basicTransformer :=
  AddError t (rdb.errorString e).

Definition set_input (t : basicTransformer) (s : string) : basicTransformer :=
  {| input := s; parseResult := parseResult t;
     defaultAttr := defaultAttr t; errors := errors t |}.

Definition set_parseResult (t : basicTransformer) (n : node) : basicTransformer :=
  {| input := input t; parseResult := n;
     defaultAttr := defaultAttr t; errors := errors t |}.

(** ** Tokens *)
Definition yyDefault : Z := 57351.
Definition yyEofCode : Z := 57344.
Definition AND : Z := 57348.
Definition NOT : Z := 57347.
Definition OR : Z := 57349.
Definition PROX : Z := 57350.
Definition TERM : Z := 57346.
Definition yyErrCode : Z := 57345.
Definition yyMaxDepth : Z := 200.
Definition yyTabOfs : Z := -8.

(** ** The regular expressions of [tokens]

    [FindString] returns the leftmost match, or the empty string when
    there is none; every expression is anchored with [^], so a match is a
    prefix of the input.  Each expression is modelled by the function
    computing that prefix. *)
Definition byte (c : ascii) : Z := Z.of_N (N_of_ascii c).

(** [^NOT], [^AND], [^OR], [^PROX] *)
Definition find_literal (kw s : string) : string :=
  if String.prefix kw s then kw else "".

(** [.] matches every character except a line feed. *)
Definition is_dot (c : ascii) : bool := negb (bool_decide (byte c = 10%Z)).

(** The longest [w] free of line feeds such that [w] followed by a double
    quote (byte 34) is a prefix of [s]: what the greedy [.*] and the
    closing quote of the expression match. *)
Fixpoint find_upto_last_quote (s : string) : option string :=
  match s with
  | EmptyString => None
  | String c s' =>
      let here := if bool_decide (byte c = 34%Z) then Some "" else None in
      if is_dot c then
        match find_upto_last_quote s' with
        | Some w => Some (String c w)
        | None => here
        end
      else here
  end.

(** The fifth expression: a double quote, [.*], a double quote. *)
Definition find_quoted (s : string) : string :=
  match s with
  | String c s' =>
      if bool_decide (byte c = 34%Z) then
        match find_upto_last_quote s' with
        | Some w => String c (w +:+ String c "")
        | None => ""
        end
      else ""
  | EmptyString => ""
  end.

(** [\S]: everything but the white space of the regexp syntax,
    tab, line feed, form feed, carriage return and space. *)
Definition is_S (c : ascii) : bool :=
  negb (bool_decide (byte c = 9%Z) || bool_decide (byte c = 10%Z)
        || bool_decide (byte c = 12%Z) || bool_decide (byte c = 13%Z)
        || bool_decide (byte c = 32%Z)).

(** [^[\S]*] *)
Fixpoint find_nonspace (s : string) : string :=
  match s with
  | String c s' => if is_S c then String c (find_nonspace s') else ""
  | EmptyString => ""
  end.

Record tokenDef : Type := { regex : string -> string; token : Z }.

Definition tokens : list tokenDef :=
  [ {| regex := find_literal "NOT"; token := NOT |};
    {| regex := find_literal "AND"; token := AND |};
    {| regex := find_literal "OR"; token := OR |};
    {| regex := find_literal "PROX"; token := PROX |};
    {| regex := find_quoted; token := TERM |};
    {| regex := find_nonspace; token := TERM |} ].

Definition isSpace (c : ascii) : bool :=
  bool_decide (byte c = 32%Z) || bool_decide (byte c = 9%Z)
  || bool_decide (byte c = 10%Z).

(** [s[n:]] for [n <= len(s)] *)
Fixpoint drop_string (n : nat) (s : string) : string :=
  match n, s with
  | S n', String _ s' => drop_string n' s'
  | _, _ => s
  end.

(** [strings.Trim] with the double quote as its cutset. *)
Fixpoint trim_left_quotes (s : string) : string :=
  match s with
  | String c s' => if bool_decide (byte c = 34%Z) then trim_left_quotes s' else s
  | EmptyString => ""
  end.

Fixpoint trim_right_quotes (s : string) : string :=
  match s with
  | String c s' =>
      match trim_right_quotes s' with
      | EmptyString => if bool_decide (byte c = 34%Z) then "" else String c ""
      | r => String c r
      end
  | EmptyString => ""
  end.

Definition Trim_quotes (s : string) : string :=
  trim_right_quotes (trim_left_quotes s).

Record yySymType : Type := {
  yys : Z;
  String_ : string;
  Node : node
}.

Definition yySymType_zero : yySymType :=
  {| yys := 0; String_ := ""; Node := nilNode |}.

Definition set_String (v : yySymType) (s : string) : yySymType :=
  {| yys := yys v; String_ := s; Node := Node v |}.
Definition set_Node (v : yySymType) (n : node) : yySymType :=
  {| yys := yys v; String_ := String_ v; Node := n |}.
Definition set_yys (v : yySymType) (s : Z) : yySymType :=
  {| yys := s; String_ := String_ v; Node := Node v |}.

(** The first loop of [Lex]. *)
Fixpoint skip_spaces (s : string) : string :=
  match s with
  | String c s' => if isSpace c then skip_spaces s' else s
  | EmptyString => ""
  end.

(** The [for _, tokDef := range tokens] loop of [Lex]: the first
    definition with a non-empty match. *)
Fixpoint first_match (defs : list tokenDef) (s : string) : option (string * Z) :=
  match defs with
  | [] => None
  | tokDef :: defs' =>
      let str := regex tokDef s in
      if bool_decide (str = "") then first_match defs' s
      else Some (str, token tokDef)
  end.

Definition Lex (t : basicTransformer) (lval : yySymType)
  : Z * basicTransformer * yySymType :=
  let inp := skip_spaces (input t) in
  match inp with
  | EmptyString => (EOF, set_input t inp, lval)
  | String c rest =>
      match first_match tokens inp with
      | Some (str, tok) =>
          let t := set_input t (drop_string (String.length str) inp) in
          if bool_decide (tok = TERM)
          then (tok, t, set_String lval (Trim_quotes str))
          else (tok, t, set_String lval str)
      | None => (byte c, set_input t rest, lval)
      end
  end.

(** ** The tables *)
Definition yyXLAT (c : Z) : option Z :=
  if bool_decide (c = 57344%Z) then Some 0%Z        (* $end *)
  else if bool_decide (c = 57348%Z) then Some 1%Z   (* AND *)
  else if bool_decide (c = 57349%Z) then Some 2%Z   (* OR *)
  else if bool_decide (c = 57350%Z) then Some 3%Z   (* PROX *)
  else if bool_decide (c = 41%Z) then Some 4%Z      (* ')' *)
  else if bool_decide (c = 40%Z) then Some 5%Z      (* '(' *)
  else if bool_decide (c = 57352%Z) then Some 6%Z   (* node *)
  else if bool_decide (c = 57347%Z) then Some 7%Z   (* NOT *)
  else if bool_decide (c = 57346%Z) then Some 8%Z   (* TERM *)
  else if bool_decide (c = 57353%Z) then Some 9%Z   (* start *)
  else if bool_decide (c = 57351%Z) then Some 10%Z  (* $default *)
  else if bool_decide (c = 57345%Z) then Some 11%Z  (* error *)
  else None.

Definition yySymNames : list string :=
  [ "$end"; "AND"; "OR"; "PROX"; "')'"; "'('"; "node"; "NOT"; "TERM";
    "start"; "$default"; "error" ].

(** [yyTokenLiteralStrings] and [yyXErrors] are empty maps: a lookup
    gives the zero value, the empty string, and [ok = false]. *)
Definition yyTokenLiteralStrings (c : Z) : string := "".
Definition yyXErrors (state xsym : Z) : option string := None.

(** [yyReductions]: rule -> (xsym, components); a missing key gives the
    zero value. *)
Definition yyReductions (r : Z) : Z * Z :=
  if bool_decide (r = 0%Z) then (0, 1)%Z
  else if bool_decide (r = 1%Z) then (9, 1)%Z
  else if bool_decide (r = 2%Z) then (6, 1)%Z
  else if bool_decide (r = 3%Z) then (6, 3)%Z
  else if bool_decide (r = 4%Z) then (6, 2)%Z
  else if bool_decide (r = 5%Z) then (6, 3)%Z
  else if bool_decide (r = 6%Z) then (6, 3)%Z
  else if bool_decide (r = 7%Z) then (6, 3)%Z
  else (0, 0)%Z.

(** [yyParseTab]; an indexed element [5: 12] of a row literal leaves the
    elements before it zero. *)
Definition yyParseTab : list (list Z) :=
  [ (* 0 *)
    [0; 0; 0; 0; 0; 12; 10; 13; 11; 9];
    [8];
    [7; 15; 16; 17];
    [6; 6; 6; 6; 6];
    [0; 0; 0; 0; 0; 12; 21; 13; 11];
    (* 5 *)
    [0; 0; 0; 0; 0; 12; 14; 13; 11];
    [4; 4; 4; 4; 4];
    [0; 0; 0; 0; 0; 12; 20; 13; 11];
    [0; 0; 0; 0; 0; 12; 19; 13; 11];
    [0; 0; 0; 0; 0; 12; 18; 13; 11];
    (* 10 *)
    [1; 1; 1; 1; 1];
    [2; 2; 2; 2; 2];
    [3; 3; 3; 3; 3];
    [0; 15; 16; 17; 22];
    [5; 5; 5; 5; 5] ]%Z.

(** Indexing a Go array or slice with an [int]: out of range panics. *)
Definition index {A : Type} (l : list A) (i : Z) : option A :=
  if bool_decide (0 <= i)%Z then l !! Z.to_nat i else None.

Definition len {A : Type} (l : list A) : Z := Z.of_nat (length l).

(** ** Messages *)
Definition hex_digit (n : Z) : string :=
  default "" ((fun c : ascii => String c "")
                <$> index (list_ascii_of_string "0123456789abcdef") n).

(** [fmt.Sprintf] with the verb [%q] applied to an [int] [c] with
    [0 < c < 0x7f]: the character literal of Go in single quotes. *)
Definition quote_rune (c : Z) : string :=
  let body :=
    if bool_decide (c = 7%Z) then "\a"
    else if bool_decide (c = 8%Z) then "\b"
    else if bool_decide (c = 12%Z) then "\f"
    else if bool_decide (c = 10%Z) then "\n"
    else if bool_decide (c = 13%Z) then "\r"
    else if bool_decide (c = 9%Z) then "\t"
    else if bool_decide (c = 11%Z) then "\v"
    else if bool_decide (c = 92%Z) then "\\"
    else if bool_decide (c = 39%Z) then "\'"
    else if bool_decide (c < 32)%Z
    then "\x" +:+ hex_digit (c / 16) +:+ hex_digit (c mod 16)
    else String (ascii_of_N (Z.to_N c)) "" in
  "'" +:+ body +:+ "'".

Definition yySymName (c : Z) : string :=
  match yyXLAT c with
  | Some x => default "" (index yySymNames x)
  | None => if bool_decide (c < 127)%Z then quote_rune c else itoa c
  end.

(** ** The driver *)
Definition yylex1 (yylex : basicTransformer) (lval : yySymType)
  : Z * basicTransformer * yySymType :=
  let '(n, yylex, lval) := Lex yylex lval in
  (if bool_decide (n <= 0)%Z then yyEofCode else n, yylex, lval).

(** The variables of [yyParse].  The slice [yyS] with its index [yyp] is
    kept as two lists: [yyS] holds [yyS[yyp]], [yyS[yyp-1]], ...,
    [yyS[0]] (the top first), and [yyAbove] the elements above [yyp],
    [yyS[yyp+1]] first, which a reduction leaves behind; beyond these the
    slice holds zero values (it is doubled whenever it is full, so its
    length is never observed). *)
Record yyVars : Type := {
  yylex : basicTransformer;
  yyS : list yySymType;
  yyAbove : list yySymType;
  yylval : yySymType;
  yyVAL : yySymType;
  Nerrs : Z;
  Errflag : Z;
  yystate : Z;
  yychar : Z;
  yyxchar : Z;
  yyshift : Z
}.

Definition yyError : Z := 11.

(** [yystack:] put a state and value onto the stack *)
Definition yystack (v : yyVars) : yyVars :=
  {| yylex := yylex v;
     yyS := set_yys (yyVAL v) (yystate v) :: yyS v;
     yyAbove := tail (yyAbove v);
     yylval := yylval v; yyVAL := yyVAL v; Nerrs := Nerrs v;
     Errflag := Errflag v; yystate := yystate v; yychar := yychar v;
     yyxchar := yyxchar v; yyshift := yyshift v |}.

(** Where control is after one turn: back at [yynewstate] or out of
    [yyParse]. *)
Inductive yyNext : Type :=
| Goto_yynewstate (v : yyVars)
| Return (code : Z) (yylex : basicTransformer)
| Panics.

(** The head of [yynewstate]: read a token when there is none. *)
Definition yyread (v : yyVars) : yyVars :=
  if bool_decide (yychar v < 0)%Z then
    let yylval := set_yys (yylval v) (yystate v) in
    let '(yychar, yylex, yylval) := yylex1 (yylex v) yylval in
    let yyxchar := default (len yySymNames) (yyXLAT yychar) in
    {| yylex := yylex; yyS := yyS v; yyAbove := yyAbove v;
       yylval := yylval; yyVAL := yyVAL v; Nerrs := Nerrs v;
       Errflag := Errflag v; yystate := yystate v; yychar := yychar;
       yyxchar := yyxchar; yyshift := yyshift v |}
  else v.

(** The action [yyn] of the table for the state and the token. *)
Definition yyaction (row : list Z) (yyxchar : Z) : Z :=
  if bool_decide (yyxchar < len row)%Z then
    match index row yyxchar with
    | Some e => if bool_decide (e <> 0%Z) then (e + yyTabOfs)%Z else 0%Z
    | None => 0%Z
    end
  else 0%Z.

(** The message of a brand new error. *)
Definition yymessage (v : yyVars) : string :=
  let msg :=
    match yyXErrors (yystate v) (yyxchar v) with
    | Some m => m
    | None =>
        match yyXErrors (yystate v) (-1) with
        | Some m => m
        | None =>
            match (if bool_decide (yyshift v <> 0%Z)
                   then yyXErrors (yyshift v) (yyxchar v) else None) with
            | Some m => m
            | None => default "" (yyXErrors (yyshift v) (-1))
            end
        end
    end in
  let msg :=
    if bool_decide (yychar v > 0)%Z then
      let ls := yyTokenLiteralStrings (yychar v) in
      let ls := if bool_decide (ls = "") then yySymName (yychar v) else ls in
      if bool_decide (ls <> "") then
        (if bool_decide (msg = "") then "unexpected " +:+ ls
         else "unexpected " +:+ ls +:+ ", " +:+ msg)
      else msg
    else msg in
  if bool_decide (msg = "") then "syntax error" else msg.

(** The loop [for yyp >= 0] of the error recovery: the topmost state with
    a shift on [error], with the stack as it is there. *)
Inductive yyFound : Type :=
| Hit (yyn : Z) (yyS yyAbove : list yySymType)
| NoHit
| BadState.

Fixpoint yyrecover (stack above : list yySymType) : yyFound :=
  match stack with
  | [] => NoHit
  | top :: below =>
      match index yyParseTab (yys top) with
      | None => BadState
      | Some row =>
          let hit :=
            if bool_decide (yyError < len row)%Z
            then (fun e => (e + yyTabOfs)%Z) <$> index row yyError
            else None in
          match hit with
          | Some yyn =>
              if bool_decide (yyn > 0)%Z then Hit yyn stack above
              else yyrecover below (top :: above)
          | None => yyrecover below (top :: above)
          end
      end
  end.

(** The semantic actions, [switch r]; [yyS[yypt-k]] is the [k]-th
    element of the stack as it was before the reduction. *)
Definition yyactions (r : Z) (old : list yySymType) (yylex : basicTransformer)
    (yyVAL : yySymType) : option (basicTransformer * yySymType) :=
  let at_ (k : nat) := old !! k in
  if bool_decide (r = 1%Z) then
    a ← at_ 0%nat; Some (set_parseResult yylex (rootNode (Node a)), yyVAL)
  else if bool_decide (r = 2%Z) then
    a ← at_ 0%nat; Some (yylex, set_Node yyVAL (termNode (String_ a)))
  else if bool_decide (r = 3%Z) then
    a ← at_ 1%nat; Some (yylex, set_Node yyVAL (parenNode (Node a)))
  else if bool_decide (r = 4%Z) then
    a ← at_ 0%nat; Some (yylex, set_Node yyVAL (unaryNode "NOT" (Node a)))
  else if bool_decide (r = 5%Z) then
    a ← at_ 2%nat; b ← at_ 0%nat;
    Some (yylex, set_Node yyVAL (binaryNode "AND" (Node a) (Node b)))
  else if bool_decide (r = 6%Z) then
    a ← at_ 2%nat; b ← at_ 0%nat;
    Some (yylex, set_Node yyVAL (binaryNode "OR" (Node a) (Node b)))
  else if bool_decide (r = 7%Z) then
    a ← at_ 2%nat; b ← at_ 0%nat;
    Some (yylex, set_Node yyVAL (binaryNode "PROX" (Node a) (Node b)))
  else Some (yylex, yyVAL).

(** The code below the error handling: reduce by rule [r = -yyn]. *)
Definition yyreduce (v : yyVars) (yyn : Z) : yyNext :=
  let r := (- yyn)%Z in
  let '(x, n) := yyReductions r in
  let n := Z.to_nat n in
  (* yyp -= n *)
  let stack := drop n (yyS v) in
  let above := reverse (take n (yyS v)) ++ yyAbove v in
  if bool_decide (length (yyS v) <= n)%nat then Panics
  else
    (* yyVAL = yyS[yyp+1] *)
    let yyVAL := default yySymType_zero (head above) in
    match stack with
    | [] => Panics
    | top :: _ =>
        match index yyParseTab (yys top) with
        | None => Panics
        | Some row =>
            match index row x with
            | None => Panics
            | Some e =>
                let yystate := (e + yyTabOfs)%Z in
                match yyactions r (yyS v) (yylex v) yyVAL with
                | None => Panics
                | Some (yylex, yyVAL) =>
                    Goto_yynewstate (yystack
                      {| yylex := yylex; yyS := stack; yyAbove := above;
                         yylval := yylval v; yyVAL := yyVAL;
                         Nerrs := Nerrs v; Errflag := Errflag v;
                         yystate := yystate; yychar := yychar v;
                         yyxchar := yyxchar v; yyshift := yyshift v |})
                end
            end
        end
    end.

(** The tail of the error handling, [case 1, 2] (and [case 0] falling
    through to it). *)
Definition yyresume (v : yyVars) : yyNext :=
  match yyrecover (yyS v) (yyAbove v) with
  | BadState => Panics
  | NoHit => Return 1 (yylex v)
  | Hit yyn stack above =>
      Goto_yynewstate (yystack
        {| yylex := yylex v; yyS := stack; yyAbove := above;
           yylval := yylval v; yyVAL := yyVAL v; Nerrs := Nerrs v;
           Errflag := 3; yystate := yyn; yychar := yychar v;
           yyxchar := yyxchar v; yyshift := yyshift v |})
  end.

(** One turn: from [yynewstate] to the next jump. *)
Definition yynewstate (v : yyVars) : yyNext :=
  let v := yyread v in
  match index yyParseTab (yystate v) with
  | None => Panics
  | Some row =>
      let yyn := yyaction row (yyxchar v) in
      if bool_decide (yyn > 0)%Z then
        (* shift *)
        Goto_yynewstate (yystack
          {| yylex := yylex v; yyS := yyS v; yyAbove := yyAbove v;
             yylval := yylval v; yyVAL := yylval v; Nerrs := Nerrs v;
             Errflag := if bool_decide (Errflag v > 0)%Z
                        then (Errflag v - 1)%Z else Errflag v;
             yystate := yyn; yychar := -1; yyxchar := yyxchar v;
             yyshift := yyn |})
      else if bool_decide (yyn < 0)%Z then yyreduce v yyn
      else if bool_decide (yystate v = 1%Z) then Return 0 (yylex v)
      else
        (* yyn == 0: error ... attempt to resume parsing *)
        if bool_decide (Errflag v = 0%Z) then
          yyresume
            {| yylex := Error (yylex v) (yymessage v); yyS := yyS v;
               yyAbove := yyAbove v; yylval := yylval v; yyVAL := yyVAL v;
               Nerrs := (Nerrs v + 1)%Z; Errflag := Errflag v;
               yystate := yystate v; yychar := yychar v;
               yyxchar := yyxchar v; yyshift := yyshift v |}
        else if bool_decide (Errflag v = 1%Z) || bool_decide (Errflag v = 2%Z)
        then yyresume v
        else if bool_decide (Errflag v = 3%Z) then
          if bool_decide (yychar v = yyEofCode) then Return 1 (yylex v)
          else
            Goto_yynewstate
              {| yylex := yylex v; yyS := yyS v; yyAbove := yyAbove v;
                 yylval := yylval v; yyVAL := yyVAL v; Nerrs := Nerrs v;
                 Errflag := Errflag v; yystate := yystate v; yychar := -1;
                 yyxchar := yyxchar v; yyshift := yyshift v |}
        else yyreduce v yyn
  end.

Fixpoint yyloop (fuel : nat) (v : yyVars) : run (Z * basicTransformer) :=
  match fuel with
  | O => OutOfFuel
  | S fuel' =>
      match yynewstate v with
      | Goto_yynewstate v' => yyloop fuel' v'
      | Return code yylex => Ok (code, yylex)
      | Panics => GoPanic
      end
  end.

(** The variables at the first [goto yystack]. *)
Definition yyinit (yylex : basicTransformer) : yyVars :=
  {| yylex := yylex; yyS := []; yyAbove := [];
     yylval := yySymType_zero; yyVAL := yySymType_zero;
     Nerrs := 0; Errflag := 0; yystate := 0; yychar := -1;
     yyxchar := 0; yyshift := 0 |}.

(** Turns that are always enough for an input of the given length. *)
Definition yyfuel (yylex : basicTransformer) : nat :=
  6 * String.length (input yylex) + 8.

Definition yyParse (yylex : basicTransformer) : run (Z * basicTransformer) :=
  yyloop (yyfuel yylex) (yystack (yyinit yylex)).

(** [NewBasicTransformer]: the transformer or nil, and the error. *)
Definition NewBasicTransformer (input defaultAttr : string)
  : run (option basicTransformer * option error) :=
  let t := {| input := input; parseResult := nilNode; defaultAttr := "";
              errors := [] |} in
  match yyParse t with
  | Ok (_, t) =>
      match errors t with
      | e :: _ => Ok (None, Some e)
      | [] => Ok (Some t, None)
      end
  | GoPanic => GoPanic
  | OutOfFuel => OutOfFuel
  end.

End basic.

(* ================================================================== *)
(** * What the handlers share *)
(* ================================================================== *)
Module fcs.

Definition error := rdb.error.

(** ** The query string: [url.Values], a map from a key to its values *)
Definition Values : Type := gmap string (list string).

(** [Values.Has] *)
Definition Has (q : Values) (key : string) : bool := bool_decide (is_Some (q !! key)).

(** [ctx.Query]: the first value of the key, or the empty string. *)
Definition Query (q : Values) (key : string) : string :=
  match q !! key with
  | Some (v :: _) => v
  | _ => ""
  end.

(** [for key, _ := range q]: the order in which Go visits a map is not
    specified; [map_to_list] fixes one. *)
Definition keys {A : Type} (m : gmap string A) : list string :=
  (map_to_list m).*1.

(** [collections.SliceContains] *)
Definition SliceContains (l : list string) (v : string) : bool :=
  bool_decide (v ∈ l).

(** [strings.Split(s, ",")], on a one byte separator: the pieces between
    the separators, one more than there are separators. *)
Fixpoint Split (s : string) (sep : ascii) : list string :=
  match s with
  | EmptyString => [""]
  | String c s' =>
      if bool_decide (c = sep) then "" :: Split s' sep
      else
        match Split s' sep with
        | piece :: pieces => String c piece :: pieces
        | [] => [String c ""]
        end
  end.

Definition comma : ascii := ascii_of_nat 44.

(** ** Diagnostics *)
Inductive Code : Type :=
| CodeGeneralSystemError
| CodeUnsupportedOperation
| CodeUnsupportedVersion
| CodeUnsupportedParameterValue
| CodeMandatoryParameterNotSupplied
| CodeUnsupportedParameter
| CodeUnsupportedRecordPacking
| DCGeneralSystemError
| DCUnsupportedParameter
| DCUnsupportedParameterValue
| DCMandatoryParameterNotSupplied
| DCQuerySyntaxError
| DCQueryCannotProcess.

Record FCSError : Type := {
  Code_ : Code;
  Ident : string;
  Message : string
}.

Definition StatusOK : Z := 200.
Definition StatusBadRequest : Z := 400.
Definition StatusInternalServerError : Z := 500.

(** ** The resource registry *)
Record Resource : Type := {
  DefaultSearchAttr : string;
  SyntaxParentAttr_Name : string;
  PosAttrs : list string;
  StructureMapping : list (string * string)
}.

Definition Resource_zero : Resource :=
  {| DefaultSearchAttr := ""; SyntaxParentAttr_Name := ""; PosAttrs := [];
     StructureMapping := [] |}.

Record CorporaSetup : Type := {
  Resources : gmap string Resource;
  Layers_Text : string
}.

(** Modelled from the spec: [GetCorpora] is not among the sources; the
    registry exposes [getAll() -> sorted list of ids]. *)
Definition GetCorpora (rs : gmap string Resource) : list string :=
  merge_sort (fun a b => Is_true (String.leb a b)) (keys rs).

(** ** Worker results *)
Record Token : Type := { Word : string; Strong : bool }.
Record ConcordanceLine : Type := { Text : list Token }.
Record ConcExample : Type := {
  Lines : list ConcordanceLine;
  Err : option error
}.

(** The arguments of a [concExample] job; a field a handler does not set
    has its zero value. *)
Record ConcExampleArgs : Type := {
  CorpusPath : string;
  QueryLemma : string;
  caQuery : string;
  Attrs : list string;
  MaxItems : Z;
  ParentIdxAttr : string
}.

Record Query_ : Type := { Func : string; Args : string }.

(** ** The collaborators of a handler

    Code outside the handlers, taken as it comes: the query translators
    of the three versions, [json.Marshal], [strings.TrimSpace], the
    registry helpers, and the broker.  The broker is an oracle: for the
    [i]-th job of a request, [publishError i q] is the error of
    [PublishQuery] and [received i q] the value read from the channel it
    returned. *)
Class Env : Type := {
  WorkerResult : Type;
  Transformer : Type;
  AST : Type;
  TrimSpace : string -> string;
  Marshal : ConcExampleArgs -> string * option error;
  GetRegistryPath : CorporaSetup -> string -> string;
  GetCommonPosAttrNames : gmap string Resource -> list string -> list string;
  publishError : nat -> Query_ -> option error;
  received : nat -> Query_ -> WorkerResult;
  DeserializeConcExampleResult : WorkerResult -> ConcExample * option error;
  (* part_000 *)
  transformFCSQuery : string -> string * option error;
  (* handler/v12/handler.go *)
  NewBasicTransformer : string -> Transformer * option FCSError;
  CreateCQL : Transformer -> string -> string * option FCSError;
  (* part_001 *)
  ParseQuery : string -> list string -> list (string * string) -> AST * option error;
  Generate : AST -> string * AST;
  Errors : AST -> list error;
  Validate_message : string -> string;
  ErrRowsRangeOutOfConc : error;
  ConformantStatusBadRequest : Z;
  ConformantUnprocessableEntity : Z
}.

(** The loop that turns the results into rows, the same in the three
    handlers but for the row it appends:
    [for i, r := range results { for _, l := range r.Lines {
       Results = append(Results, row(len(Results)+1, corpora[i], l)) } }].
    [results] is made with [len(corpora)] elements, so [corpora[i]] is in
    range. *)
Definition add_lines {Row : Type} (row : Z -> string -> ConcordanceLine -> Row)
    (pid : string) (rows : list Row) (lines : list ConcordanceLine) : list Row :=
  foldl (fun rows l => rows ++ [row (Z.of_nat (length rows) + 1)%Z pid l])
        rows lines.

Fixpoint transform {Row : Type} (row : Z -> string -> ConcordanceLine -> Row)
    (corpora : list string) (i : nat) (results : list ConcExample)
    (rows : list Row) : list Row :=
  match results with
  | [] => rows
  | r :: rest =>
      transform row corpora (S i) rest
        (add_lines row (default "" (corpora !! i)) rows (Lines r))
  end.

(** An early [return code] of a handler, with the response as it is
    then, or the value the code after it goes on with. *)
Definition step (R A : Type) : Type := (Z * R) + A.

End fcs.

Notation "'try' x ← e ; k" :=
  (match e with inl early => inl early | inr x => k end)
  (at level 10, x pattern, e at level 100, k at level 200, only parsing).

(* ================================================================== *)
(** * Package handler: [Actions.searchRetrieve] *)
(* ================================================================== *)
Module handler.
Import fcs.

Record FCSSearchRow : Type := {
  Position : Z;
  PID : string;
  Left : string;
  KWIC : string;
  Right : string;
  Web : string;
  Ref : string
}.

Record FCSSearchRetrieve : Type := { Results : list FCSSearchRow }.

Record FCSResponse : Type := {
  Version : string;
  RecordPacking : string;
  Operation : string;
  MaximumRecords : Z;
  MaximumTerms : Z;
  SearchRetrieve : FCSSearchRetrieve;
  Error : option FCSError
}.

Definition set_Error (resp : FCSResponse) (e : FCSError) : FCSResponse :=
  {| Version := Version resp; RecordPacking := RecordPacking resp;
     Operation := Operation resp; MaximumRecords := MaximumRecords resp;
     MaximumTerms := MaximumTerms resp; SearchRetrieve := SearchRetrieve resp;
     Error := Some e |}.

Definition set_Results (resp : FCSResponse) (rows : list FCSSearchRow) : FCSResponse :=
  {| Version := Version resp; RecordPacking := RecordPacking resp;
     Operation := Operation resp; MaximumRecords := MaximumRecords resp;
     MaximumTerms := MaximumTerms resp;
     SearchRetrieve := {| Results := rows |};
     Error := Error resp |}.

Record Actions : Type := {
  conf : CorporaSetup;
  supportedRecordPackings : list string;
  supportedOperations : list string;
  supportedVersions : list string;
  queryGeneral : list string;
  queryExplain : list string;
  querySearchRetrieve : list string
}.

Definition NewActions (conf : CorporaSetup) : Actions :=
  {| conf := conf;
     supportedOperations := ["explain"; "scan"; "searchRetrieve"];
     supportedVersions := ["1.2"; "2.0"];
     supportedRecordPackings := ["xml"; "string"];
     queryGeneral := ["operation"; "version"; "recordPacking"];
     queryExplain := ["x-fcs-endpoint-description"];
     querySearchRetrieve := ["query"; "x-fcs-context"; "x-fcs-dataviews"] |}.

Section SearchRetrieve.
Context `{Env}.

(** check if all parameters are supported *)
Definition unsupported (a : Actions) (q : Values) : option string :=
  List.find (fun key => negb (SliceContains (queryGeneral a) key)
                        && negb (SliceContains (querySearchRetrieve a) key))
            (keys q).

(** get searchable corpora *)
Definition searchable (a : Actions) (q : Values) (resp : FCSResponse)
  : step FCSResponse (list string) :=
  let corpora := keys (Resources (conf a)) in
  if Has q "x-fcs-context" then
    let fcsContext := Split (Query q "x-fcs-context") comma in
    match List.find (fun v => negb (SliceContains corpora v)) fcsContext with
    | Some v =>
        inl (StatusBadRequest,
             set_Error resp {| Code_ := CodeUnsupportedParameterValue;
                               Ident := "x-fcs-context";
                               Message := "Unknown context " +:+ v |})
    | None => inr fcsContext
    end
  else inr corpora.

Definition general_error (resp : FCSResponse) (err : error) : Z * FCSResponse :=
  (StatusInternalServerError,
   set_Error resp {| Code_ := CodeGeneralSystemError; Ident := rdb.Error err;
                     Message := "General system error" |}).

(** make searches: the jobs published, in order *)
Fixpoint publish (a : Actions) (query : string) (resp : FCSResponse) (i : nat)
    (corpora : list string) : step FCSResponse (list Query_) :=
  match corpora with
  | [] => inr []
  | corpusName :: rest =>
      let '(args, err) :=
        Marshal {| CorpusPath := GetRegistryPath (conf a) corpusName;
                   QueryLemma := "";
                   caQuery := query;
                   Attrs := ["word"; "lemma"];
                   MaxItems := 10;
                   ParentIdxAttr :=
                     SyntaxParentAttr_Name
                       (default Resource_zero (Resources (conf a) !! corpusName)) |} in
      match err with
      | Some err => inl (general_error resp err)
      | None =>
          let job := {| Func := "concExample"; Args := args |} in
          match publishError i job with
          | Some err => inl (general_error resp err)
          | None =>
              try waits ← publish a query resp (S i) rest;
              inr (job :: waits)
          end
      end
  end.

(** gather results *)
Fixpoint gather (resp : FCSResponse) (i : nat) (waits : list Query_)
  : step FCSResponse (list ConcExample) :=
  match waits with
  | [] => inr []
  | wait :: rest =>
      let rawResult := received i wait in
      let '(result, err) := DeserializeConcExampleResult rawResult in
      match err with
      | Some err => inl (general_error resp err)
      | None =>
          match Err result with
          | Some err => inl (general_error resp err)
          | None =>
              try results ← gather resp (S i) rest;
              inr (result :: results)
          end
      end
  end.

(** transform results: the three strings of one line *)
Fixpoint kwic_split (text : list Token) (hit : bool) (left kwic right : string)
  : string * string * string :=
  match text with
  | [] => (left, kwic, right)
  | token :: rest =>
      let hit := if Strong token then true else hit in
      if hit then
        if Strong token
        then kwic_split rest hit left (kwic +:+ Word token +:+ " ") right
        else kwic_split rest hit left kwic (right +:+ Word token +:+ " ")
      else kwic_split rest hit (left +:+ Word token +:+ " ") kwic right
  end.

(** transform results: the row appended for line [l] of corpus [pid]
    when [position - 1] rows are there *)
Definition row (position : Z) (pid : string) (l : ConcordanceLine) : FCSSearchRow :=
  let '(left', kwic', right') := kwic_split (Text l) false "" "" "" in
  {| Position := position;
     PID := pid;
     Left := TrimSpace left';
     KWIC := TrimSpace kwic';
     Right := TrimSpace right';
     Web := "TODO";
     Ref := "TODO" |}.

Definition searchRetrieve (a : Actions) (q : Values) (fcsResponse : FCSResponse)
  : Z * FCSResponse :=
  let body : step FCSResponse (Z * FCSResponse) :=
    try _ ← match unsupported a q with
            | Some key =>
                inl (StatusBadRequest,
                     set_Error fcsResponse
                       {| Code_ := CodeUnsupportedParameter; Ident := key;
                          Message := "Unsupported parameter" |})
            | None => inr tt
            end;
    (* prepare query *)
    let fcsQuery := Query q "query" in
    try _ ← (if bool_decide (String.length fcsQuery = 0)%nat
             then inl (StatusBadRequest,
                       set_Error fcsResponse
                         {| Code_ := CodeMandatoryParameterNotSupplied;
                            Ident := "fcs_query";
                            Message := "Mandatory parameter not supplied" |})
             else inr tt);
    try query ← match transformFCSQuery fcsQuery with
                | (_, Some err) => inl (general_error fcsResponse err)
                | (query, None) => inr query
                end;
    try corpora ← searchable a q fcsResponse;
    try waits ← publish a query fcsResponse 0 corpora;
    try results ← gather fcsResponse 0 waits;
    inr (StatusOK,
         set_Results fcsResponse (transform row corpora 0 results [])) in
  match body with
  | inl early => early
  | inr done => done
  end.

End SearchRetrieve.
End handler.

(* ================================================================== *)
(** * Package v12, handler/v12/handler.go: [FCSSubHandlerV12.searchRetrieve] *)
(* ================================================================== *)
Module v12.
Import fcs.

Definition FCSSearchRow := handler.FCSSearchRow.
Definition row `{Env} := handler.row.

Record FCSGeneralResponse : Type := { Error : option FCSError }.

Record FCSResponse : Type := {
  General : FCSGeneralResponse;
  RecordPacking : string;
  Operation : string;
  Results : list FCSSearchRow    (* SearchRetrieve.Results *)
}.

Definition set_Error (resp : FCSResponse) (e : FCSError) : FCSResponse :=
  {| General := {| Error := Some e |}; RecordPacking := RecordPacking resp;
     Operation := Operation resp; Results := Results resp |}.

Definition set_Results (resp : FCSResponse) (rows : list FCSSearchRow) : FCSResponse :=
  {| General := General resp; RecordPacking := RecordPacking resp;
     Operation := Operation resp; Results := rows |}.

Record FCSSubHandlerV12 : Type := {
  corporaConf : CorporaSetup;
  supportedRecordPackings : list string;
  supportedOperations : list string;
  queryGeneral : list string;
  queryExplain : list string;
  querySearchRetrieve : list string
}.

Definition NewFCSSubHandlerV12 (corporaConf : CorporaSetup) : FCSSubHandlerV12 :=
  {| corporaConf := corporaConf;
     supportedOperations := ["explain"; "scan"; "searchRetrieve"];
     supportedRecordPackings := ["xml"; "string"];
     queryGeneral := ["version"; "recordPacking"; "operation"];
     queryExplain := ["x-fcs-endpoint-description"];
     querySearchRetrieve := ["query"; "x-fcs-context"; "x-fcs-dataviews"] |}.

Section SearchRetrieve.
Context `{Env}.

(** check if all parameters are supported *)
Definition unsupported (a : FCSSubHandlerV12) (q : Values) : option string :=
  List.find (fun key => negb (SliceContains (queryGeneral a) key)
                        && negb (SliceContains (querySearchRetrieve a) key))
            (keys q).

(** The loop over the names of [x-fcs-context]: [corpora] and
    [searchAttrs] grow together. *)
Fixpoint listed (a : FCSSubHandlerV12) (resp : FCSResponse) (names : list string)
    (corpora searchAttrs : list string)
  : step FCSResponse (list string * list string) :=
  match names with
  | [] => inr (corpora, searchAttrs)
  | v :: rest =>
      match Resources (corporaConf a) !! v with
      | None =>
          inl (StatusBadRequest,
               set_Error resp {| Code_ := CodeUnsupportedParameterValue;
                                 Ident := "x-fcs-context";
                                 Message := "Unknown context " +:+ v |})
      | Some resource =>
          listed a resp rest (corpora ++ [v])
                 (searchAttrs ++ [DefaultSearchAttr resource])
      end
  end.

(** get searchable corpora and attrs *)
Definition searchable (a : FCSSubHandlerV12) (q : Values) (resp : FCSResponse)
  : step FCSResponse (list string * list string) :=
  if Has q "x-fcs-context" then
    listed a resp (Split (Query q "x-fcs-context") comma) [] []
  else
    inr (foldl (fun '(corpora, searchAttrs) '(corpusName, resource) =>
                  (corpora ++ [corpusName],
                   searchAttrs ++ [DefaultSearchAttr resource]))
               ([], []) (map_to_list (Resources (corporaConf a)))).

Definition general_error (resp : FCSResponse) (err : error) : Z * FCSResponse :=
  (StatusInternalServerError,
   set_Error resp {| Code_ := CodeGeneralSystemError; Ident := rdb.Error err;
                     Message := "General system error" |}).

(** make searches; [searchAttrs[i]] is the head of [searchAttrs] *)
Fixpoint publish (a : FCSSubHandlerV12) (transformer : Transformer)
    (resp : FCSResponse) (i : nat) (corpora searchAttrs : list string)
  : step FCSResponse (list Query_) :=
  match corpora with
  | [] => inr []
  | corpusName :: rest =>
      match CreateCQL transformer (default "" (head searchAttrs)) with
      | (_, Some fcsErr) => inl (StatusInternalServerError, set_Error resp fcsErr)
      | (query, None) =>
          let '(args, err) :=
            Marshal {| CorpusPath := GetRegistryPath (corporaConf a) corpusName;
                       QueryLemma := "";
                       caQuery := query;
                       Attrs := [Layers_Text (corporaConf a);
                                 Layers_Text (corporaConf a)];
                       MaxItems := 10;
                       ParentIdxAttr := "" |} in
          match err with
          | Some err => inl (general_error resp err)
          | None =>
              let job := {| Func := "concExample"; Args := args |} in
              match publishError i job with
              | Some err => inl (general_error resp err)
              | None =>
                  try waits ← publish a transformer resp (S i) rest
                                      (tail searchAttrs);
                  inr (job :: waits)
              end
          end
      end
  end.

(** gather results *)
Fixpoint gather (resp : FCSResponse) (i : nat) (waits : list Query_)
  : step FCSResponse (list ConcExample) :=
  match waits with
  | [] => inr []
  | wait :: rest =>
      let rawResult := received i wait in
      let '(result, err) := DeserializeConcExampleResult rawResult in
      match err with
      | Some err => inl (general_error resp err)
      | None =>
          match Err result with
          | Some err => inl (general_error resp err)
          | None =>
              try results ← gather resp (S i) rest;
              inr (result :: results)
          end
      end
  end.

Definition searchRetrieve (a : FCSSubHandlerV12) (q : Values)
    (fcsResponse : FCSResponse) : Z * FCSResponse :=
  let body : step FCSResponse (Z * FCSResponse) :=
    try _ ← match unsupported a q with
            | Some key =>
                inl (StatusBadRequest,
                     set_Error fcsResponse
                       {| Code_ := CodeUnsupportedParameter; Ident := key;
                          Message := "Unsupported parameter" |})
            | None => inr tt
            end;
    (* prepare query *)
    let fcsQuery := Query q "query" in
    try _ ← (if bool_decide (String.length fcsQuery = 0)%nat
             then inl (StatusBadRequest,
                       set_Error fcsResponse
                         {| Code_ := CodeMandatoryParameterNotSupplied;
                            Ident := "fcs_query";
                            Message := "Mandatory parameter not supplied" |})
             else inr tt);
    try transformer ← match NewBasicTransformer fcsQuery with
                      | (_, Some fcsErr) =>
                          inl (StatusInternalServerError,
                               set_Error fcsResponse fcsErr)
                      | (transformer, None) => inr transformer
                      end;
    try (corpora, searchAttrs) ← searchable a q fcsResponse;
    try waits ← publish a transformer fcsResponse 0 corpora searchAttrs;
    try results ← gather fcsResponse 0 waits;
    inr (StatusOK,
         set_Results fcsResponse (transform row corpora 0 results [])) in
  match body with
  | inl early => early
  | inr done => done
  end.

End SearchRetrieve.
End v12.

(* ================================================================== *)
(** * Package v12, the later source (part_001): [FCSSubHandlerV12.searchRetrieve] *)
(* ================================================================== *)
Module v12c.
Import fcs.

Record Token : Type := { Text : string; Hit : bool }.

Record FCSSearchRow : Type := {
  Position : Z;
  PID : string;
  Web : string;
  Ref : string;
  Tokens : list Token
}.

(** Modelled from the spec: [FCSGeneralResponse.AddError] is not among the
    sources; diagnostics accumulate in a list of the envelope. *)
Record FCSGeneralResponse : Type := { Errors : list FCSError }.

Record FCSResponse : Type := {
  General : FCSGeneralResponse;
  Results : list FCSSearchRow    (* SearchRetrieve.Results *)
}.

Definition AddError (resp : FCSResponse) (e : FCSError) : FCSResponse :=
  {| General := {| Errors := Errors (General resp) ++ [e] |};
     Results := Results resp |}.

Definition set_Results (resp : FCSResponse) (rows : list FCSSearchRow) : FCSResponse :=
  {| General := General resp; Results := rows |}.

Record FCSSubHandlerV12 : Type := { corporaConf : CorporaSetup }.

Definition SearchRetrArgQuery : string := "query".
Definition SearchRetrArgFCSContext : string := "x-fcs-context".

Section SearchRetrieve.
Context `{Env}.

(** Modelled from the spec: [SearchRetrArg.Validate] is not among the
    sources; the whitelist of searchRetrieve is [query], [x-fcs-context],
    [x-fcs-dataviews], plus the general [operation], [version],
    [recordPacking].  The text of its error is the environment's. *)
Definition Validate (key : string) : option error :=
  if SliceContains ["query"; "x-fcs-context"; "x-fcs-dataviews";
                    "operation"; "version"; "recordPacking"] key
  then None
  else Some (rdb.errorString (Validate_message key)).

Definition translateQuery (a : FCSSubHandlerV12) (corpusName query : string)
  : AST * option FCSError :=
  let resource := default Resource_zero (Resources (corporaConf a) !! corpusName) in
  let '(ast, err) := ParseQuery query (PosAttrs resource) (StructureMapping resource) in
  (ast,
   match err with
   | Some _ => Some {| Code_ := DCQuerySyntaxError; Ident := query;
                       Message := "Invalid query syntax" |}
   | None => None
   end).

(** The target corpora, lines 79 to 82. *)
Definition targets (a : FCSSubHandlerV12) (q : Values) : list string :=
  let corpora := GetCorpora (Resources (corporaConf a)) in
  if Has q (Query q SearchRetrArgFCSContext)
  then Split (Query q SearchRetrArgFCSContext) comma
  else corpora.

(** get searchable corpora and attrs *)
Definition searchable (a : FCSSubHandlerV12) (q : Values) (resp : FCSResponse)
  : step FCSResponse (list string) :=
  let corpora := targets a q in
  if bool_decide (0 < length corpora)%nat then
    match List.find (fun v => negb (bool_decide (is_Some (Resources (corporaConf a) !! v))))
                    corpora with
    | Some v =>
        inl (ConformantStatusBadRequest,
             AddError resp {| Code_ := DCUnsupportedParameterValue;
                              Ident := SearchRetrArgFCSContext;
                              Message := "Unknown context " +:+ v |})
    | None => inr corpora
    end
  else
    inl (ConformantStatusBadRequest,
         AddError resp {| Code_ := DCUnsupportedParameterValue;
                          Ident := SearchRetrArgFCSContext;
                          Message := "Empty context" |}).

Definition general_error (resp : FCSResponse) (err : error) : FCSResponse :=
  AddError resp {| Code_ := DCGeneralSystemError; Ident := rdb.Error err;
                   Message := "General system error" |}.

(** make searches *)
Fixpoint publish (a : FCSSubHandlerV12) (fcsQuery : string)
    (retrieveAttrs : list string) (resp : FCSResponse) (i : nat)
    (corpora : list string) : step FCSResponse (list Query_) :=
  match corpora with
  | [] => inr []
  | corpusName :: rest =>
      match translateQuery a corpusName fcsQuery with
      | (_, Some fcsErr) =>
          inl (ConformantUnprocessableEntity, AddError resp fcsErr)
      | (ast, None) =>
          let '(query, ast) := Generate ast in
          match fcs.Errors ast with
          | e :: _ =>
              inl (ConformantUnprocessableEntity,
                   AddError resp {| Code_ := DCQueryCannotProcess;
                                    Ident := SearchRetrArgQuery;
                                    Message := rdb.Error e |})
          | [] =>
              let '(args, err) :=
                Marshal {| CorpusPath := GetRegistryPath (corporaConf a) corpusName;
                           QueryLemma := "";
                           caQuery := query;
                           Attrs := retrieveAttrs;
                           MaxItems := 10;
                           ParentIdxAttr := "" |} in
              match err with
              | Some err =>
                  inl (StatusInternalServerError, general_error resp err)
              | None =>
                  let job := {| Func := "concExample"; Args := args |} in
                  match publishError i job with
                  | Some err =>
                      inl (StatusInternalServerError, general_error resp err)
                  | None =>
                      try waits ← publish a fcsQuery retrieveAttrs resp (S i) rest;
                      inr (job :: waits)
                  end
              end
          end
      end
  end.

(** gather results *)
Fixpoint gather (resp : FCSResponse) (i : nat) (waits : list Query_)
  : step FCSResponse (list ConcExample) :=
  match waits with
  | [] => inr []
  | wait :: rest =>
      let rawResult := received i wait in
      let '(result, err) := DeserializeConcExampleResult rawResult in
      match err with
      | Some err => inl (StatusInternalServerError, general_error resp err)
      | None =>
          match Err result with
          | Some err =>
              inl (if bool_decide (rdb.Error err = rdb.Error ErrRowsRangeOutOfConc)
                   then ConformantUnprocessableEntity
                   else StatusInternalServerError,
                   general_error resp err)
          | None =>
              try results ← gather resp (S i) rest;
              inr (result :: results)
          end
      end
  end.

(** transform results *)
Definition row (position : Z) (pid : string) (l : ConcordanceLine) : FCSSearchRow :=
  {| Position := position;
     PID := pid;
     Web := "TODO";
     Ref := "TODO";
     Tokens := (fun t => {| Text := Word t; Hit := Strong t |}) <$> fcs.Text l |}.

Definition searchRetrieve (a : FCSSubHandlerV12) (q : Values)
    (fcsResponse : FCSResponse) : Z * FCSResponse :=
  let body : step FCSResponse (Z * FCSResponse) :=
    try _ ← match List.find (fun key => bool_decide (is_Some (Validate key)))
                             (keys q) with
            | Some key =>
                inl (ConformantStatusBadRequest,
                     AddError fcsResponse
                       {| Code_ := DCUnsupportedParameter; Ident := key;
                          Message := from_option rdb.Error "" (Validate key) |})
            | None => inr tt
            end;
    let fcsQuery := Query q "query" in
    try _ ← (if bool_decide (String.length fcsQuery = 0)%nat
             then inl (ConformantStatusBadRequest,
                       AddError fcsResponse
                         {| Code_ := DCMandatoryParameterNotSupplied;
                            Ident := "fcs_query";
                            Message := "Mandatory parameter not supplied" |})
             else inr tt);
    try corpora ← searchable a q fcsResponse;
    let retrieveAttrs :=
      GetCommonPosAttrNames (Resources (corporaConf a)) corpora in
    try waits ← publish a fcsQuery retrieveAttrs fcsResponse 0 corpora;
    try results ← gather fcsResponse 0 waits;
    inr (StatusOK,
         set_Results fcsResponse (transform row corpora 0 results [])) in
  match body with
  | inl early => early
  | inr done => done
  end.

End SearchRetrieve.
End v12c.

(* ================================================================== *)
(** * Concrete collaborators, for running the definitions *)
(* ================================================================== *)
Module sample.

(** A codec that keeps the echoed query and the error of a result. *)
Definition render_error (e : option rdb.error) : string :=
  match e with
  | Some e => rdb.typeName_of e +:+ "/" +:+ rdb.Error e
  | None => ""
  end.

#[export] Instance gob : rdb.Gob := {|
  rdb.encodeQuery q := inl (rdb.Channel q +:+ "|" +:+ rdb.Func q);
  rdb.decodeQuery s :=
    ({| rdb.Channel := s; rdb.Func := ""; rdb.Args := rdb.ConcQueryArgs_zero |}, None);
  rdb.encodeResult v := inl (rdb.crQuery v +:+ "|" +:+ render_error (rdb.crError v));
  rdb.decodeResult s v :=
    ({| rdb.Lines := rdb.Lines v; rdb.ConcSize := rdb.ConcSize v;
        rdb.crQuery := s; rdb.crError := rdb.crError v |}, None)
|}.

Definition conf : rdb.Conf :=
  {| rdb.Host := "localhost"; rdb.Port := 6379; rdb.DB := 0;
     rdb.Password := ""; rdb.ChannelQuery := "";
     rdb.ChannelResultPrefix := ""; rdb.QueryAnswerTimeoutSecs := 0 |}.

Definition redis0 : rdb.Redis :=
  {| rdb.lists := ∅; rdb.kv := ∅; rdb.subs := []; rdb.faults := [];
     rdb.log := [] |}.

Definition job : rdb.Query :=
  {| rdb.Channel := ""; rdb.Func := "concExample";
     rdb.Args := rdb.ConcQueryArgs_zero |}.

(** A registry of two corpora and workers that answer with two and
    three lines. *)
Definition word (w : string) (strong : bool) : fcs.Token :=
  {| fcs.Word := w; fcs.Strong := strong |}.

Definition line (ws : list fcs.Token) : fcs.ConcordanceLine := {| fcs.Text := ws |}.

Definition answer (n : nat) : fcs.ConcExample :=
  {| fcs.Lines := replicate n (line [word "the" false; word "dog" true;
                                     word "barks" false]);
     fcs.Err := None |}.

#[export] Instance env : fcs.Env := {|
  fcs.WorkerResult := fcs.ConcExample;
  fcs.Transformer := string;
  fcs.AST := string;
  fcs.TrimSpace s := s;
  fcs.Marshal args := (fcs.CorpusPath args +:+ "?" +:+ fcs.caQuery args, None);
  fcs.GetRegistryPath _ name := "/registry/" +:+ name;
  fcs.GetCommonPosAttrNames _ _ := ["word"];
  fcs.publishError _ _ := None;
  fcs.received i _ := answer (i + 2);
  fcs.DeserializeConcExampleResult raw := (raw, None);
  fcs.transformFCSQuery s := (s, None);
  fcs.NewBasicTransformer s := (s, None);
  fcs.CreateCQL t attr := ("[" +:+ attr +:+ "=" +:+ t +:+ "]", None);
  fcs.ParseQuery s _ _ := (s, None);
  fcs.Generate ast := (ast, ast);
  fcs.Errors _ := [];
  fcs.Validate_message key := "unknown argument " +:+ key;
  fcs.ErrRowsRangeOutOfConc := rdb.errorString "rows range is out of concordance size";
  fcs.ConformantStatusBadRequest := 200;
  fcs.ConformantUnprocessableEntity := 200
|}.

Definition resource : fcs.Resource :=
  {| fcs.DefaultSearchAttr := "word"; fcs.SyntaxParentAttr_Name := "";
     fcs.PosAttrs := ["word"; "lemma"]; fcs.StructureMapping := [] |}.

Definition corpora : fcs.CorporaSetup :=
  {| fcs.Resources := <["corpusB" := resource]> (<["corpusA" := resource]> ∅);
     fcs.Layers_Text := "word" |}.

(** [?query=dog&x-fcs-context=corpusA,corpusB] *)
Definition request : fcs.Values :=
  <["x-fcs-context" := ["corpusA,corpusB"]]> (<["query" := ["dog"]]> ∅).

(** [?query=dog&x-fcs-context=nosuch] *)
Definition request_unknown : fcs.Values :=
  <["x-fcs-context" := ["nosuch"]]> (<["query" := ["dog"]]> ∅).

(** [?query=dog&x-fcs-context=corpusA] *)
Definition request_one : fcs.Values :=
  <["x-fcs-context" := ["corpusA"]]> (<["query" := ["dog"]]> ∅).

(** [?query=dog] *)
Definition request_all : fcs.Values := <["query" := ["dog"]]> ∅.

End sample.

(* ================================================================== *)
(** * Notions the properties of the translator are stated with *)
(* ================================================================== *)
Module basic_inv.
Import basic.



(** The codes of the token definitions. *)
Definition keyword_codes : list Z := [NOT; AND; OR; PROX; TERM].

(** The bytes the regular expression [\S] leaves out. *)
Definition blank_codes : list Z := [9; 10; 12; 13; 32]%Z.

(** [s] is a state the table leads to from state [a]: a shift or a goto. *)
Definition succ_ok (a s : Z) : bool :=
  match index yyParseTab a with
  | Some row => bool_decide ((s + 8)%Z ∈ row) && bool_decide (0 < s)%Z
  | None => false
  end.

(** The states on the stack, the top first, form a path of the
    automaton from state 0. *)
Fixpoint chain (ss : list Z) : Prop :=
  match ss with
  | [] => False
  | s :: below =>
      match below with
      | [] => s = 0%Z
      | a :: _ => succ_ok a s = true /\ chain below
      end
  end.

Definition all_states : list Z := [0; 1; 2; 3; 4; 5; 6; 7; 8; 9; 10; 11; 12; 13; 14]%Z.

Definition preds (s : Z) : list Z := filter (fun a => Is_true (succ_ok a s)) all_states.

Definition lex_codes : list Z := yyEofCode :: keyword_codes ++ blank_codes.

Definition rank (s : Z) : nat :=
  if bool_decide (s = 3%Z) then 2 else if bool_decide (s = 2%Z) then 1 else 0.

(** Tokens still to come: the bytes of the input, and the token at hand. *)
Definition pending (v : yyVars) : nat :=
  String.length (input (yylex v)) +
  (if bool_decide (0 <= yychar v)%Z && negb (bool_decide (yychar v = yyEofCode))
   then 1 else 0).

Definition measure (v : yyVars) : nat :=
  3 * (2 * pending v + length (yyS v)) + rank (yystate v).

Record Inv (v : yyVars) : Prop := {
  inv_errors : errors (yylex v) = [];
  inv_Errflag : Errflag v = 0%Z;
  inv_top : yys <$> head (yyS v) = Some (yystate v);
  inv_chain : chain (yys <$> yyS v);
  inv_token :
    (yychar v < 0)%Z \/
    (yychar v ∈ lex_codes /\
     yyxchar v = default (len yySymNames) (yyXLAT (yychar v)) /\
     (yychar v = yyEofCode -> input (yylex v) = ""))
}.

Definition step_ok (v : yyVars) (next : yyNext) : Prop :=
  match next with
  | Goto_yynewstate v' => Inv v' /\ (measure v' < measure v)%nat
  | Return code t =>
      (code = 0%Z /\ errors t = []) \/
      (code = 1%Z /\ exists msg : string, errors t = [rdb.errorString msg])
  | Panics => False
  end.

Definition fresh (input : string) : basicTransformer :=
  {| input := input; parseResult := nilNode; defaultAttr := ""; errors := [] |}.

(** The tree [NewBasicTransformer] gives for a query. *)
Definition Parse (s : string) : option node :=
  match NewBasicTransformer s "" with
  | Ok (Some t, _) => Some (parseResult t)
  | _ => None
  end.

(** A tree without its [parenNode] wrappers. *)
Fixpoint strip_parens (n : node) : node :=
  match n with
  | nilNode => nilNode
  | termNode s => termNode s
  | parenNode child => strip_parens child
  | unaryNode op child => unaryNode op (strip_parens child)
  | binaryNode op l r => binaryNode op (strip_parens l) (strip_parens r)
  | rootNode child => rootNode (strip_parens child)
  end.

End basic_inv.

(* ================================================================== *)
(** * Notions the properties of the handlers are stated with *)
(* ================================================================== *)
Module fcs_inv.
Import fcs.

(** The results the workers gave for the jobs of a request, the job of
    slot [i + k] being the [k]-th of [jobs]. *)
Definition served_from `{Env} (i : nat) (jobs : list Query_) : list ConcExample :=
  imap (fun k job => (DeserializeConcExampleResult (received (i + k) job)).1) jobs.

(** The resource ids of the rows when every corpus contributes one row
    per line of its result, the corpora one after the other. *)
Definition blocks (corpora : list string) (results : list ConcExample) : list string :=
  mjoin (zip_with (fun c r => replicate (length (Lines r)) c) corpora results).

Record rows_as_claimed {Row : Type} (position : Row -> Z) (pid : Row -> string)
    (corpora : list string) (results : list ConcExample) (rows : list Row) : Prop := {
  rows_count : length rows = sum_list ((fun r => length (Lines r)) <$> results);
  rows_blocks : pid <$> rows = blocks corpora results;
  rows_positions : position <$> rows = Z.of_nat <$> seq 1 (length rows)
}.

Definition no_diagnostics_v12c (resp : v12c.FCSResponse) : Prop :=
  v12c.Errors (v12c.General resp) = [].

Definition no_diagnostics_v12 (resp : v12.FCSResponse) : Prop :=
  v12.Error (v12.General resp) = None.

Definition empty_v12c : v12c.FCSResponse :=
  {| v12c.General := {| v12c.Errors := [] |}; v12c.Results := [] |}.

Definition empty_v12 : v12.FCSResponse :=
  {| v12.General := {| v12.Error := None |}; v12.RecordPacking := "xml";
     v12.Operation := "searchRetrieve"; v12.Results := [] |}.

Definition empty_handler : handler.FCSResponse :=
  {| handler.Version := "1.2"; handler.RecordPacking := "xml";
     handler.Operation := "searchRetrieve"; handler.MaximumRecords := 250;
     handler.MaximumTerms := 100;
     handler.SearchRetrieve := {| handler.Results := [] |};
     handler.Error := None |}.

Definition known (rs : gmap string Resource) (v : string) : Prop := is_Some (rs !! v).

Definition unknown_context_v12 (resp : v12.FCSResponse) (v : string)
  : Z * v12.FCSResponse :=
  (StatusBadRequest,
   v12.set_Error resp {| Code_ := CodeUnsupportedParameterValue;
                         Ident := "x-fcs-context";
                         Message := "Unknown context " +:+ v |}).

Definition unknown_context_handler (resp : handler.FCSResponse) (v : string)
  : Z * handler.FCSResponse :=
  (StatusBadRequest,
   handler.set_Error resp {| Code_ := CodeUnsupportedParameterValue;
                             Ident := "x-fcs-context";
                             Message := "Unknown context " +:+ v |}).

End fcs_inv.

(* ================================================================== *)
(** * Package rdb: the other methods of the adapter *)
(* ================================================================== *)
Module rdb_more.
Import rdb.




(** [Ping] *)
Definition Ping (r : Redis) : option error * Redis :=
  let '(f, fs) := next_fault r in
  (f, {| lists := lists r; kv := kv r; subs := subs r; faults := fs;
         log := log r ++ [CmdPing] |}).



(** [TestConnection].  Every turn of its loop is one [select] between
    the end of [totalTimeout] and a tick of the two seconds ticker; as
    for [watch] the taken cases are given.  [None] is a loop that is
    still running.  [serverInfo] is the text of [a.conf.ServerInfo()]. *)
Inductive ProbeCase : Type :=
| caseDone   (* case <-ctx.Done() *)
| caseTick.  (* case <-tick.C *)

Fixpoint TestConnection (a : Adapter) (serverInfo : string)
    (sched : list ProbeCase) (r : Redis) : option (option error) * Redis :=
  match sched with
  | [] => (None, r)
  | caseDone :: _ =>
      (Some (Some (errorString
                     ("failed to connect to the Redis server at " +:+ serverInfo))),
       r)
  | caseTick :: sched' =>
      let '(err, r) := Ping r in
      match err with
      | Some _ => TestConnection a serverInfo sched' r
      | None => (Some None, r)
      end
  end.

(** [TimeoutError.Error] *)
Definition TimeoutError_Error (Msg : string) : string := Msg.

(** The value [PublishResult] encodes: the error, if any, replaced. *)
Definition transmitted (value : ConcResult) : ConcResult :=
  match crError value with
  | Some e => set_Error value (Some (TransmittedError (Error e) (typeName_of e)))
  | None => value
  end.


(** The job as [PublishQuery] encodes it. *)
Definition addressed (a : Adapter) (uuid : string) (query : Query) : Query :=
  {| Channel := channelResultPrefix a +:+ ":" +:+ uuid;
     Func := Func query; Args := Args query |}.


(** ** A run on the sample broker *)
Definition adapter0 : Adapter := NewAdapter sample.conf.

(** The waiter of the first [PublishQuery] on an empty server, with the
    identifier [u1], and the server after it. *)
Definition waiter0 : Waiter := {| wSub := 0; wChannel := "mqueryResults:u1" |}.

Definition redis1 : Redis :=
  (@PublishQuery sample.gob adapter0 "u1" sample.job sample.redis0).2.

(** A server with one listener on the reply channel, whose next command
    fails. *)
Definition redis_failing : Redis :=
  {| lists := ∅; kv := ∅;
     subs := [{| subChannel := "mqueryResults:u1"; inbox := [];
                 subClosed := false |}];
     faults := [Some (errorString "connection reset")]; log := [] |}.

(** A server that refuses the first command and takes the second. *)
Definition redis_restarting : Redis :=
  {| lists := ∅; kv := ∅; subs := [];
     faults := [Some (errorString "connection refused"); None]; log := [] |}.


End rdb_more.

(* ================================================================== *)
(** * Notions for the trees and the messages of the parser *)
(* ================================================================== *)
Module basic_more.
Import basic basic_inv.

(** A tree as the grammar describes it: terms under [NOT], [AND], [OR]
    and [PROX]; no nil node, no root inside, no parentheses. *)
Fixpoint well_formed (n : node) : bool :=
  match n with
  | termNode _ => true
  | unaryNode op child => bool_decide (op = "NOT") && well_formed child
  | binaryNode op l r =>
      bool_decide (op ∈ ["AND"; "OR"; "PROX"]) && well_formed l && well_formed r
  | nilNode | parenNode _ | rootNode _ => false
  end.

(** The states whose stack entry holds the value of a [node]. *)
Definition node_states : list Z := [2; 6; 10; 11; 12; 13]%Z.

(** The states that are entered through a parenthesis. *)
Definition paren_states : list Z := [4; 13; 14]%Z.

Definition entry_ok (e : yySymType) : Prop :=
  (yys e ∉ paren_states) /\
  (yys e ∈ node_states -> well_formed (Node e) = true).

(** What [yylex1] can return: the end, a keyword, a term, or one of the
    two blanks the lexer does not skip, form feed and carriage return. *)
Definition token_codes : list Z := [yyEofCode; NOT; AND; OR; PROX; TERM; 12; 13]%Z.

Record Inv_tree (v : yyVars) : Prop := {
  tree_entries : Forall entry_ok (yyS v);
  tree_attr : defaultAttr (yylex v) = "";
  tree_token : (yychar v < 0)%Z \/ yychar v ∈ token_codes;
  tree_accept :
    yystate v = 1%Z ->
    yychar v = yyEofCode /\
    exists n : node, parseResult (yylex v) = rootNode n /\ well_formed n = true
}.

Definition step_tree (next : yyNext) : Prop :=
  match next with
  | Goto_yynewstate v' => Inv_tree v'
  | Return code t =>
      (code = 0%Z /\ input t = "" /\ defaultAttr t = "" /\
       exists n : node, parseResult t = rootNode n /\ well_formed n = true) \/
      (code = 1%Z /\
       exists c : Z, c ∈ token_codes /\
         errors t = [rdb.errorString ("unexpected " +:+ yySymName c)])
  | Panics => False
  end.

(** The messages of a syntax error. *)
Definition syntax_errors : list string :=
  [ "unexpected $end"; "unexpected NOT"; "unexpected AND"; "unexpected OR";
    "unexpected PROX"; "unexpected TERM"; "unexpected '\f'"; "unexpected '\r'" ].

(** The double quote, byte 34. *)
Definition quote : ascii := ascii_of_nat 34.

(** Two quoted phrases with OR between them, on one line. *)
Definition two_phrases : string :=
  String quote ("a" +:+ String quote (" OR " +:+ String quote ("b" +:+ String quote ""))).

(** The keywords of [tokens] with their codes. *)
Definition keywords : list (string * Z) :=
  [("NOT", NOT); ("AND", AND); ("OR", OR); ("PROX", PROX)].

End basic_more.

(* ================================================================== *)
(** * Package handler: [Actions.explain] and [Actions.FCSHandler] *)
(* ================================================================== *)
Module handler_more.
Import fcs.

(** What a handler reads of [ctx.Request.URL]: [Host], [Port()], [Path]
    and [Query()]. *)
Record URL : Type := {
  Host : string;
  Port : string;
  Path : string;
  URL_Query : Values
}.

(** [ctx.DefaultQuery]: the first value of the key when the URL has the
    key, the default otherwise.  A key of a parsed URL comes with at
    least one value. *)
Definition DefaultQuery (q : Values) (key defaultValue : string) : string :=
  match q !! key with
  | Some (v :: _) => v
  | _ => defaultValue
  end.

Record FCSResourceInfo : Type := {
  PID : string;
  Title : string;
  Description : string;
  URI : string;
  Languages : list string
}.

Record FCSExplain : Type := {
  ServerName : string;
  ServerPort : string;
  Database : string;
  DatabaseTitle : string;
  DatabaseDescription : string
}.

Definition FCSExplain_zero : FCSExplain :=
  {| ServerName := ""; ServerPort := ""; Database := ""; DatabaseTitle := "";
     DatabaseDescription := "" |}.

(** The whole of [FCSResponse]: the fields [handler.FCSResponse] has,
    and [Explain] and [Resources], which only [explain] writes. *)
Record FCSResponse : Type := {
  fields : handler.FCSResponse;
  Explain : FCSExplain;
  Resources : list FCSResourceInfo
}.

Definition with_fields (resp : FCSResponse) (f : handler.FCSResponse) : FCSResponse :=
  {| fields := f; Explain := Explain resp; Resources := Resources resp |}.

Definition set_Error (resp : FCSResponse) (e : FCSError) : FCSResponse :=
  with_fields resp (handler.set_Error (fields resp) e).

Definition set_Explain (resp : FCSResponse) (e : FCSExplain) : FCSResponse :=
  {| fields := fields resp; Explain := e; Resources := Resources resp |}.

Definition set_Resources (resp : FCSResponse) (rs : list FCSResourceInfo) : FCSResponse :=
  {| fields := fields resp; Explain := Explain resp; Resources := rs |}.

Definition set_RecordPacking (resp : FCSResponse) (v : string) : FCSResponse :=
  with_fields resp
    {| handler.Version := handler.Version (fields resp);
       handler.RecordPacking := v;
       handler.Operation := handler.Operation (fields resp);
       handler.MaximumRecords := handler.MaximumRecords (fields resp);
       handler.MaximumTerms := handler.MaximumTerms (fields resp);
       handler.SearchRetrieve := handler.SearchRetrieve (fields resp);
       handler.Error := handler.Error (fields resp) |}.

Definition set_Version (resp : FCSResponse) (v : string) : FCSResponse :=
  with_fields resp
    {| handler.Version := v;
       handler.RecordPacking := handler.RecordPacking (fields resp);
       handler.Operation := handler.Operation (fields resp);
       handler.MaximumRecords := handler.MaximumRecords (fields resp);
       handler.MaximumTerms := handler.MaximumTerms (fields resp);
       handler.SearchRetrieve := handler.SearchRetrieve (fields resp);
       handler.Error := handler.Error (fields resp) |}.

Definition set_Operation (resp : FCSResponse) (v : string) : FCSResponse :=
  with_fields resp
    {| handler.Version := handler.Version (fields resp);
       handler.RecordPacking := handler.RecordPacking (fields resp);
       handler.Operation := v;
       handler.MaximumRecords := handler.MaximumRecords (fields resp);
       handler.MaximumTerms := handler.MaximumTerms (fields resp);
       handler.SearchRetrieve := handler.SearchRetrieve (fields resp);
       handler.Error := handler.Error (fields resp) |}.

(** The record [explain] appends for a corpus. *)
Definition info (corpusName : string) : FCSResourceInfo :=
  {| PID := corpusName; Title := corpusName; Description := "TODO";
     URI := "TODO"; Languages := ["cs"; "TODO"] |}.

(** [for corpusName, _ := range Resources { Resources = append(...) }] *)
Definition describe (rs : list FCSResourceInfo) (names : list string)
  : list FCSResourceInfo :=
  foldl (fun rs corpusName => rs ++ [info corpusName]) rs names.

Definition explain (a : handler.Actions) (u : URL) (fcsResponse : FCSResponse)
  : Z * FCSResponse :=
  (* check if all parameters are supported *)
  match List.find (fun key => negb (SliceContains (handler.queryGeneral a) key)
                              && negb (SliceContains (handler.queryExplain a) key))
                  (keys (URL_Query u)) with
  | Some key =>
      (StatusBadRequest,
       set_Error fcsResponse {| Code_ := CodeUnsupportedParameter; Ident := key;
                                Message := "Unsupported parameter" |})
  | None =>
      (* prepare response data *)
      let fcsResponse :=
        set_Explain fcsResponse
          {| ServerName := Host u; ServerPort := Port u; Database := Path u;
             DatabaseTitle := "TODO"; DatabaseDescription := "TODO" |} in
      let fcsResponse :=
        if bool_decide (Query (URL_Query u) "x-fcs-endpoint-description" = "true")
        then set_Resources fcsResponse
               (describe (Resources fcsResponse)
                         (keys (fcs.Resources (handler.conf a))))
        else fcsResponse in
      (StatusOK, fcsResponse)
  end.

(** What a request leaves on [ctx.Writer]: the [Content-Type] header if
    one was set, the data the template was executed with, and either the
    status written after it or the error the request was aborted with. *)
Inductive Outcome : Type :=
| Written (contentType : option string) (data : FCSResponse) (code : Z)
| Aborted (contentType : option string) (data : FCSResponse) (err : error).

Section FCSHandler.
Context `{Env}.
(** [a.tmpl.ExecuteTemplate(ctx.Writer, ..., fcsResponse)]: its error *)
Variable ExecuteTemplate : FCSResponse -> option error.

Definition searchRetrieve (a : handler.Actions) (u : URL) (fcsResponse : FCSResponse)
  : Z * FCSResponse :=
  let '(code, f) := handler.searchRetrieve a (URL_Query u) (fields fcsResponse) in
  (code, with_fields fcsResponse f).

(** [ExecuteTemplate], then [WriteHeader(code)] or [AbortWithError]. *)
Definition respond (contentType : option string) (fcsResponse : FCSResponse)
    (code : Z) : Outcome :=
  match ExecuteTemplate fcsResponse with
  | Some err => Aborted contentType fcsResponse err
  | None => Written contentType fcsResponse code
  end.

(** The value of [Content-Type] set for a record packing. *)
Definition contentType_of (recordPacking : string) : option string :=
  if bool_decide (recordPacking = "xml") then Some "application/xml"
  else if bool_decide (recordPacking = "string")
  then Some "text/plain; charset=utf-8"
  else None.

Definition FCSHandler (a : handler.Actions) (u : URL) : Outcome :=
  let fcsResponse :=
    {| fields := {| handler.Version := "1.2"; handler.RecordPacking := "xml";
                    handler.Operation := "explain";
                    handler.MaximumRecords := 250; handler.MaximumTerms := 100;
                    handler.SearchRetrieve := {| handler.Results := [] |};
                    handler.Error := None |};
       Explain := FCSExplain_zero; Resources := [] |} in
  let recordPacking :=
    DefaultQuery (URL_Query u) "recordPacking"
                 (handler.RecordPacking (fields fcsResponse)) in
  if negb (SliceContains (handler.supportedRecordPackings a) recordPacking) then
    respond None
      (set_Error fcsResponse {| Code_ := CodeUnsupportedRecordPacking;
                                Ident := "recordPacking";
                                Message := "Unsupported record packing" |})
      StatusBadRequest
  else
    let header := contentType_of recordPacking in
    let fcsResponse := set_RecordPacking fcsResponse recordPacking in
    let version :=
      DefaultQuery (URL_Query u) "version" (handler.Version (fields fcsResponse)) in
    if negb (SliceContains (handler.supportedVersions a) version) then
      respond header
        (set_Error fcsResponse {| Code_ := CodeUnsupportedVersion;
                                  Ident := "1.2";
                                  Message := "Unsupported version " +:+ version |})
        StatusBadRequest
    else
      let fcsResponse := set_Version fcsResponse version in
      let operation :=
        DefaultQuery (URL_Query u) "operation"
                     (handler.Operation (fields fcsResponse)) in
      if negb (SliceContains (handler.supportedOperations a) operation) then
        respond header
          (set_Error fcsResponse {| Code_ := CodeUnsupportedOperation;
                                    Ident := "";
                                    Message := "Unsupported operation" |})
          StatusBadRequest
      else
        let fcsResponse := set_Operation fcsResponse operation in
        let '(code, fcsResponse) :=
          if bool_decide (handler.Operation (fields fcsResponse) = "explain")
          then explain a u fcsResponse
          else if bool_decide (handler.Operation (fields fcsResponse) = "searchRetrieve")
          then searchRetrieve a u fcsResponse
          else (StatusOK, fcsResponse) in
        respond header fcsResponse code.

End FCSHandler.
End handler_more.

(* ================================================================== *)
(** * Package v12, handler/v12/handler.go: [explain] and [Handle] *)
(* ================================================================== *)
Module v12_more.
Import fcs.

Definition URL := handler_more.URL.
Definition FCSResourceInfo := handler_more.FCSResourceInfo.
Definition FCSExplain := handler_more.FCSExplain.

(** [cnf.GeneralInfo], the field [generalConf] of the handler *)
Record GeneralInfo : Type := {
  ServerName : string;
  ServerPort : string;
  Database : string;
  DatabaseTitle : string;
  DatabaseDescription : string
}.

(** The whole of [FCSSubHandlerV12]: the fields [v12.FCSSubHandlerV12]
    has, and [generalConf], which only [explain] reads. *)
Record FCSSubHandlerV12 : Type := {
  handler_fields : v12.FCSSubHandlerV12;
  generalConf : GeneralInfo
}.

(** The whole of [FCSResponse]: the fields [v12.FCSResponse] has, and
    [Explain] and [Resources], which only [explain] writes. *)
Record FCSResponse : Type := {
  fields : v12.FCSResponse;
  Explain : FCSExplain;
  Resources : list FCSResourceInfo
}.

Definition with_fields (resp : FCSResponse) (f : v12.FCSResponse) : FCSResponse :=
  {| fields := f; Explain := Explain resp; Resources := Resources resp |}.

Definition set_Error (resp : FCSResponse) (e : FCSError) : FCSResponse :=
  with_fields resp (v12.set_Error (fields resp) e).

Definition set_Explain (resp : FCSResponse) (e : FCSExplain) : FCSResponse :=
  {| fields := fields resp; Explain := e; Resources := Resources resp |}.

Definition set_Resources (resp : FCSResponse) (rs : list FCSResourceInfo) : FCSResponse :=
  {| fields := fields resp; Explain := Explain resp; Resources := rs |}.

Definition set_RecordPacking (resp : FCSResponse) (v : string) : FCSResponse :=
  with_fields resp
    {| v12.General := v12.General (fields resp); v12.RecordPacking := v;
       v12.Operation := v12.Operation (fields resp);
       v12.Results := v12.Results (fields resp) |}.

Definition set_Operation (resp : FCSResponse) (v : string) : FCSResponse :=
  with_fields resp
    {| v12.General := v12.General (fields resp);
       v12.RecordPacking := v12.RecordPacking (fields resp);
       v12.Operation := v;
       v12.Results := v12.Results (fields resp) |}.

Definition explain (a : FCSSubHandlerV12) (u : URL) (fcsResponse : FCSResponse)
  : Z * FCSResponse :=
  (* check if all parameters are supported *)
  match List.find (fun key => negb (SliceContains (v12.queryGeneral (handler_fields a)) key)
                              && negb (SliceContains (v12.queryExplain (handler_fields a)) key))
                  (keys (handler_more.URL_Query u)) with
  | Some key =>
      (StatusBadRequest,
       set_Error fcsResponse {| Code_ := CodeUnsupportedParameter; Ident := key;
                                Message := "Unsupported parameter" |})
  | None =>
      (* prepare response data *)
      let fcsResponse :=
        set_Explain fcsResponse
          {| handler_more.ServerName := ServerName (generalConf a);
             handler_more.ServerPort := ServerPort (generalConf a);
             handler_more.Database := Database (generalConf a);
             handler_more.DatabaseTitle := DatabaseTitle (generalConf a);
             handler_more.DatabaseDescription := DatabaseDescription (generalConf a) |} in
      let fcsResponse :=
        if bool_decide (Query (handler_more.URL_Query u) "x-fcs-endpoint-description"
                        = "true")
        then set_Resources fcsResponse
               (handler_more.describe (Resources fcsResponse)
                  (keys (fcs.Resources (v12.corporaConf (handler_fields a)))))
        else fcsResponse in
      (StatusOK, fcsResponse)
  end.

Inductive Outcome : Type :=
| Written (contentType : option string) (data : FCSResponse) (code : Z)
| Aborted (contentType : option string) (data : FCSResponse) (err : error).

Section Handle.
Context `{Env}.
(** [a.tmpl.ExecuteTemplate(ctx.Writer, ..., fcsResponse)]: its error *)
Variable ExecuteTemplate : FCSResponse -> option error.

Definition searchRetrieve (a : FCSSubHandlerV12) (u : URL) (fcsResponse : FCSResponse)
  : Z * FCSResponse :=
  let '(code, f) :=
    v12.searchRetrieve (handler_fields a) (handler_more.URL_Query u)
                       (fields fcsResponse) in
  (code, with_fields fcsResponse f).

Definition produceResponse (contentType : option string) (fcsResponse : FCSResponse)
    (code : Z) : Outcome :=
  match ExecuteTemplate fcsResponse with
  | Some err => Aborted contentType fcsResponse err
  | None => Written contentType fcsResponse code
  end.

(** [Handle] gets [fcsGeneralResponse] by value and copies it into the
    response it builds; the response is a pointer, the parameter is
    not. *)
Definition Handle (a : FCSSubHandlerV12) (u : URL)
    (fcsGeneralResponse : v12.FCSGeneralResponse) : Outcome :=
  let fcsResponse :=
    {| fields := {| v12.General := fcsGeneralResponse;
                    v12.RecordPacking := "xml"; v12.Operation := "explain";
                    v12.Results := [] |};
       Explain := handler_more.FCSExplain_zero; Resources := [] |} in
  if bool_decide (is_Some (v12.Error (v12.General (fields fcsResponse)))) then
    produceResponse None fcsResponse StatusBadRequest
  else
    let recordPacking :=
      handler_more.DefaultQuery (handler_more.URL_Query u) "recordPacking"
        (v12.RecordPacking (fields fcsResponse)) in
    if negb (SliceContains (v12.supportedRecordPackings (handler_fields a))
                           recordPacking) then
      (* fcsGeneralResponse.Error = &general.FCSError{...} *)
      let fcsGeneralResponse : v12.FCSGeneralResponse :=
        {| v12.Error := Some {| Code_ := CodeUnsupportedRecordPacking;
                                Ident := "recordPacking";
                                Message := "Unsupported record packing" |} |} in
      produceResponse None fcsResponse StatusBadRequest
    else
      let header := handler_more.contentType_of recordPacking in
      let fcsResponse := set_RecordPacking fcsResponse recordPacking in
      let operation :=
        handler_more.DefaultQuery (handler_more.URL_Query u) "operation"
          (v12.Operation (fields fcsResponse)) in
      if negb (SliceContains (v12.supportedOperations (handler_fields a))
                             operation) then
        produceResponse header
          (set_Error fcsResponse {| Code_ := CodeUnsupportedOperation;
                                    Ident := "";
                                    Message := "Unsupported operation" |})
          StatusBadRequest
      else
        let fcsResponse := set_Operation fcsResponse operation in
        let '(code, fcsResponse) :=
          if bool_decide (v12.Operation (fields fcsResponse) = "explain")
          then explain a u fcsResponse
          else if bool_decide (v12.Operation (fields fcsResponse) = "searchRetrieve")
          then searchRetrieve a u fcsResponse
          else (StatusOK, fcsResponse) in
        produceResponse header fcsResponse code.

End Handle.

Definition NewFCSSubHandlerV12 (generalConf : GeneralInfo)
    (corporaConf : CorporaSetup) : FCSSubHandlerV12 :=
  {| handler_fields := v12.NewFCSSubHandlerV12 corporaConf;
     generalConf := generalConf |}.

End v12_more.

(* ================================================================== *)
(** * Notions for the outcomes of the handlers *)
(* ================================================================== *)
Module fcs_more.
Import fcs.

(** The three strings of a line, by what they hold: the words before the
    first hit, the words of the hits, and the other words from the first
    hit on, each word followed by a blank. *)
Definition words (ts : list Token) : string :=
  foldr (fun t s => Word t +:+ " " +:+ s) "" ts.

Fixpoint before_hit (text : list Token) : list Token :=
  match text with
  | [] => []
  | t :: rest => if Strong t then [] else t :: before_hit rest
  end.

Fixpoint from_hit (text : list Token) : list Token :=
  match text with
  | [] => []
  | t :: rest => if Strong t then text else from_hit rest
  end.

Definition hits (text : list Token) : list Token :=
  filter (fun t => Strong t = true) text.

Definition others (text : list Token) : list Token :=
  filter (fun t => Strong t = false) text.

(** A request that failed: the status is 400 or 500, and the response
    is the one the handler was given but for one diagnostic. *)
Definition failed_handler (resp : handler.FCSResponse) (code : Z)
    (early : handler.FCSResponse) : Prop :=
  (code = StatusBadRequest /\ exists e, early = handler.set_Error resp e) \/
  (code = StatusInternalServerError /\ exists e, early = handler.set_Error resp e).

Definition failed_v12 (resp : v12.FCSResponse) (code : Z)
    (early : v12.FCSResponse) : Prop :=
  (code = StatusBadRequest /\ exists e, early = v12.set_Error resp e) \/
  (code = StatusInternalServerError /\ exists e, early = v12.set_Error resp e).

Definition failed_v12c `{Env} (resp : v12c.FCSResponse) (code : Z)
    (early : v12c.FCSResponse) : Prop :=
  code ∈ [ConformantStatusBadRequest; ConformantUnprocessableEntity;
          StatusInternalServerError] /\
  exists e, early = v12c.AddError resp e.

(** Corpus [c] is configured and [attr] is its default search
    attribute. *)
Definition searched_with (rs : gmap string Resource) (c attr : string) : Prop :=
  exists resource : Resource,
    rs !! c = Some resource /\ DefaultSearchAttr resource = attr.

(** A line with two hits and a word between them. *)
Definition split_hit : ConcordanceLine :=
  {| Text := [sample.word "a" false; sample.word "b" true;
               sample.word "c" false; sample.word "d" true] |}.

(** A template that always renders. *)
Definition renders {R : Type} (resp : R) : option error := None.

(** [?recordPacking=json] *)
Definition request_json : handler_more.URL :=
  {| handler_more.Host := "localhost"; handler_more.Port := "8080";
     handler_more.Path := "/";
     handler_more.URL_Query := <["recordPacking" := ["json"]]> ∅ |}.

(** [?operation=scan] *)
Definition request_scan : handler_more.URL :=
  {| handler_more.Host := "localhost"; handler_more.Port := "8080";
     handler_more.Path := "/";
     handler_more.URL_Query := <["operation" := ["scan"]]> ∅ |}.

(** [?x-fcs-endpoint-description=true] *)
Definition request_explain : handler_more.URL :=
  {| handler_more.Host := "localhost"; handler_more.Port := "8080";
     handler_more.Path := "/";
     handler_more.URL_Query := <["x-fcs-endpoint-description" := ["true"]]> ∅ |}.

(** The response [explain] is given by [FCSHandler]. *)
Definition blank_handler : handler_more.FCSResponse :=
  {| handler_more.fields :=
       {| handler.Version := "1.2"; handler.RecordPacking := "xml";
          handler.Operation := "explain"; handler.MaximumRecords := 250;
          handler.MaximumTerms := 100;
          handler.SearchRetrieve := {| handler.Results := [] |};
          handler.Error := None |};
     handler_more.Explain := handler_more.FCSExplain_zero;
     handler_more.Resources := [] |}.

Definition general_info : v12_more.GeneralInfo :=
  {| v12_more.ServerName := "localhost"; v12_more.ServerPort := "8080";
     v12_more.Database := "fcs"; v12_more.DatabaseTitle := "";
     v12_more.DatabaseDescription := "" |}.

End fcs_more.

(* ================================================================== *)
(** * Properties of the Redis adapter *)
(* ================================================================== *)
Module rdb_facts.
Import rdb.

Section Adapter.
Context `{Gob}.

(** ** NewAdapter *)

Lemma NewAdapter_channelResultPrefix (conf : Conf) :
  channelResultPrefix (NewAdapter conf) =
  if bool_decide (ChannelResultPrefix conf = "")
  then DefaultResultChannelPrefix else ChannelResultPrefix conf.
Proof. reflexivity. Qed.

(** C8.  The adapter's query channel is the configured one whatever it
    is: the default assigned in the second [if] of [NewAdapter] goes to
    a variable of the [if] block.  With an empty [broker.channelQuery]
    the channel is the empty string, not [mqueryQueries]; the result
    prefix does get its default [mqueryResults]. *)
Theorem NewAdapter_channelQuery_not_defaulted :
  (forall conf : Conf, channelQuery (NewAdapter conf) = ChannelQuery conf) /\
  channelQuery (NewAdapter sample.conf) = "" /\
  channelQuery (NewAdapter sample.conf) <> DefaultQueryChannel /\
  channelResultPrefix (NewAdapter sample.conf) = "mqueryResults".
Proof.
  split.
  - intros conf. unfold NewAdapter. simpl. by case_bool_decide.
  - repeat split; try reflexivity. discriminate.
Qed.

(** ** DequeueQuery *)

Lemma dequeued_empty (cmd : StringCmd) :
  Val cmd = "" -> dequeued cmd = (Query_zero, Some ErrorEmptyQueue).
Proof. intros Hval. unfold dequeued. by rewrite bool_decide_eq_true_2. Qed.

Lemma dequeued_transport (cmd : StringCmd) (e : error) :
  Val cmd <> "" -> Err cmd = Some e ->
  dequeued cmd = (Query_zero, Some (Errorf_w "failed to dequeue query" e)).
Proof.
  intros Hval Herr. unfold dequeued.
  rewrite bool_decide_eq_false_2 by done. by rewrite Herr.
Qed.

Lemma RPop_fault (r : Redis) (key : string) (e : error) (fs : list (option error)) :
  faults r = Some e :: fs ->
  (RPop r key).1 = {| Val := ""; Err := Some e |}.
Proof. intros Hf. unfold RPop, next_fault. by rewrite Hf. Qed.

Lemma RPop_no_list (r : Redis) (key : string) :
  next_fault r = (None, tail (faults r)) -> lists r !! key = None ->
  (RPop r key).1 = {| Val := ""; Err := Some redisNil |}.
Proof. intros Hf Hl. unfold RPop. by rewrite Hf, Hl. Qed.

(** C10.  Whatever the error of the [RPop], an empty value makes
    [DequeueQuery] answer [ErrorEmptyQueue]; the wrapped transport error
    needs a non-empty value together with an error.  On the server model
    a failed [RPop] and an [RPop] on a missing list give the same
    answer. *)
Theorem DequeueQuery_empty_value :
  (forall cmd : StringCmd,
     Val cmd = "" -> dequeued cmd = (Query_zero, Some ErrorEmptyQueue)) /\
  (forall (cmd : StringCmd) (q : Query) (e : error),
     dequeued cmd = (q, Some (Errorf_w "failed to dequeue query" e)) ->
     Val cmd <> "" /\ Err cmd = Some e) /\
  (forall (a : Adapter) (r : Redis) (e : error) (fs : list (option error)),
     faults r = Some e :: fs ->
     (DequeueQuery a r).1 = (Query_zero, Some ErrorEmptyQueue)) /\
  (forall (a : Adapter) (r : Redis),
     next_fault r = (None, tail (faults r)) ->
     lists r !! DefaultQueueKey = None ->
     (DequeueQuery a r).1 = (Query_zero, Some ErrorEmptyQueue)).
Proof.
  split; [exact dequeued_empty|]. split; [|split].
  - intros cmd q e. unfold dequeued. case_bool_decide as Hval.
    { intros [= _ ?]. }
    destruct (Err cmd) as [e'|] eqn:Herr.
    + intros [= _ Hmsg He]. by subst.
    + destruct (DecodeQuery (Val cmd)) as [q' [e'|]]; intros Heq.
      * injection Heq as _ Hmsg _. simpl in Hmsg. discriminate Hmsg.
      * discriminate Heq.
  - intros a r e fs Hf. unfold DequeueQuery.
    pose proof (RPop_fault r DefaultQueueKey e fs Hf) as Hp.
    destruct (RPop r DefaultQueueKey) as [cmd r']. simpl in *. subst cmd.
    by apply dequeued_empty.
  - intros a r Hf Hl. unfold DequeueQuery.
    pose proof (RPop_no_list r DefaultQueueKey Hf Hl) as Hp.
    destruct (RPop r DefaultQueueKey) as [cmd r']. simpl in *. subst cmd.
    by apply dequeued_empty.
Qed.

(** ** PublishResult *)

Lemma set_Error_set_Error (v : ConcResult) (e1 e2 : option error) :
  set_Error (set_Error v e1) e2 = set_Error v e2.
Proof. reflexivity. Qed.

(** C9.  A result with an error [e] leaves [PublishResult] with the
    error [TransmittedError {Error e, %T of e}], and that value is what
    is encoded and stored under the channel name; a failing encoder
    stores nothing.  Two errors with the same message and the same type
    name give the same call: what is stored tells nothing else of the
    error. *)
Theorem PublishResult_transmits_error (a : Adapter) (channelName : string)
    (value : ConcResult) (r : Redis) (e : error) :
  crError value = Some e ->
  let sent := set_Error value (Some (TransmittedError (Error e) (typeName_of e))) in
  (PublishResult a channelName value r).1.1 = sent /\
  (forall err : error, encodeResult sent = inr err ->
     PublishResult a channelName value r =
       (sent, Some (Errorf_w "failed to serialize (GOB) result" err), r)) /\
  (forall msg : string, encodeResult sent = inl msg ->
     (next_fault r).1 = None ->
     kv (PublishResult a channelName value r).2 !! channelName =
       Some (msg, DefaultResultExpiration)) /\
  (forall e' : error, Error e' = Error e -> typeName_of e' = typeName_of e ->
     PublishResult a channelName (set_Error value (Some e')) r =
     PublishResult a channelName value r).
Proof.
  intros He sent. repeat split.
  - unfold PublishResult. rewrite He. fold sent.
    destruct (encodeResult sent) as [msg|err]; [|done].
    destruct (Set_ r channelName msg DefaultResultExpiration) as [? r1].
    by destruct (Publish r1 channelName channelName).
  - intros err Henc. unfold PublishResult. rewrite He. fold sent.
    by rewrite Henc.
  - intros msg Henc Hf. unfold PublishResult. rewrite He. fold sent.
    rewrite Henc. unfold Set_.
    destruct (next_fault r) as [f fs]. simpl in Hf. subst f.
    unfold Publish, next_fault. simpl.
    destruct fs as [|[e1|] fs]; simpl; by rewrite lookup_insert_eq.
  - intros e' Hmsg Hty. unfold PublishResult. simpl.
    rewrite He, Hmsg, Hty. by rewrite set_Error_set_Error.
Qed.

(** ** PublishQuery *)








(** ** The goroutine *)

Lemma watch_timeouts (w : Waiter) (n : nat) (ans : ConcResult) (r : Redis) :
  watch w (replicate n caseCtx3Done) ans r =
    (replicate n (set_Error ans (Some timeoutError)), None, r).
Proof.
  revert ans. induction n as [|n IH]; intros ans; [done|].
  simpl. rewrite IH. by rewrite set_Error_set_Error.
Qed.

(** A message on the subscription ends the goroutine with one send. *)
Lemma watch_item_returns (w : Waiter) (sched : list SelectCase)
    (ans : ConcResult) (r : Redis) (s : Subscription) (payload : string)
    (rest : list string) :
  subs r !! wSub w = Some s -> inbox s = payload :: rest ->
  exists (sent : ConcResult) (r' : Redis),
    watch w (caseItem :: sched) ans r = ([sent], Some Returned, r').
Proof.
  intros Hs Hin. simpl. rewrite Hs. simpl. rewrite Hin.
  destruct (Get (takeItem r (wSub w)) payload) as [cmd r1].
  destruct (Err cmd); [by eexists _, _|].
  destruct (decodeResult (Val cmd) ans) as [ans' [e|]]; by eexists _, _.
Qed.

(** C2.  The branch of the deadline sends the timeout result and stays in
    the loop ([return] is missing there, the branch of the message has
    it): every further [select] that takes [ctx3.Done()], which stays
    ready, sends the result again, and the channel is not closed.  A
    receiver that reads [n] times gets [n] results; after the deadline a
    late message of the worker is still served, as a second result. *)
Theorem watch_sends_after_timeout (w : Waiter) (ans : ConcResult) (r : Redis) :
  let timed_out := set_Error ans (Some timeoutError) in
  watch w [caseCtx3Done; caseCtx3Done] ans r = ([timed_out; timed_out], None, r) /\
  (forall n : nat,
     watch w (replicate n caseCtx3Done) ans r = (replicate n timed_out, None, r)) /\
  (forall (s : Subscription) (payload : string) (rest : list string),
     subs r !! wSub w = Some s -> inbox s = payload :: rest ->
     exists (late : ConcResult) (r' : Redis),
       watch w [caseCtx3Done; caseItem] ans r =
         ([timed_out; late], Some Returned, r')).
Proof.
  intros timed_out. split; [|split].
  - exact (watch_timeouts w 2 ans r).
  - intros n. exact (watch_timeouts w n ans r).
  - intros s payload rest Hs Hin.
    destruct (watch_item_returns w [] timed_out r s payload rest Hs Hin)
      as (late & r' & Hw).
    exists late, r'. change (watch w [caseCtx3Done; caseItem] ans r) with
      (let '(out, ex, r0) := watch w [caseItem] timed_out r in
       (timed_out :: out, ex, r0)).
    by rewrite Hw.
Qed.

End Adapter.

#[local] Existing Instance sample.gob.

Lemma DequeueQuery_empty_value_witness :
  let failing :=
    {| lists := ∅; kv := ∅; subs := [];
       faults := [Some (foreignError "*net.OpError" "connection refused")];
       log := [] |} in
  (DequeueQuery (NewAdapter sample.conf) failing).1 =
    (Query_zero, Some ErrorEmptyQueue) /\
  (DequeueQuery (NewAdapter sample.conf) sample.redis0).1 =
    (Query_zero, Some ErrorEmptyQueue).
Proof.
  destruct (DequeueQuery_empty_value (H := sample.gob)) as (_ & _ & Hfail & Hnone).
  split.
  - eapply Hfail. reflexivity.
  - apply Hnone; reflexivity.
Defined.

Lemma PublishResult_transmits_error_witness :
  let value := set_Error ConcResult_zero (Some (TimeoutError "worker timeout")) in
  (PublishResult (NewAdapter sample.conf) "mqueryResults:1" value sample.redis0).1.1 =
    set_Error ConcResult_zero
      (Some (TransmittedError "worker timeout" "rdb.TimeoutError")).
Proof.
  intros value.
  exact (proj1 (PublishResult_transmits_error (NewAdapter sample.conf)
                  "mqueryResults:1" value sample.redis0
                  (TimeoutError "worker timeout") eq_refl)).
Defined.


End rdb_facts.

(* ================================================================== *)
(** * Properties of the translator *)
(* ================================================================== *)
Module basic_facts.
Import basic basic_inv.

(** ** TranslateWithinCtx *)




(** ** The lexer *)

Lemma prefix_length (p s : string) :
  String.prefix p s = true -> (String.length p <= String.length s)%nat.
Proof.
  revert s. induction p as [|c p IH]; intros [|d s]; simpl; try lia; try done.
  destruct (Ascii.ascii_dec c d); [|done]. intros Hp. apply IH in Hp. lia.
Qed.

Lemma find_literal_length (kw s : string) :
  (String.length (find_literal kw s) <= String.length s)%nat.
Proof.
  unfold find_literal. destruct (String.prefix kw s) eqn:Hp.
  - by apply prefix_length.
  - simpl. lia.
Qed.

Lemma length_append (a b : string) :
  String.length (a +:+ b) = (String.length a + String.length b)%nat.
Proof. induction a as [|c a IH]; simpl; [done | by rewrite IH]. Qed.

Lemma find_upto_last_quote_length (s w : string) :
  find_upto_last_quote s = Some w -> (String.length w < String.length s)%nat.
Proof.
  revert w. induction s as [|c s IH]; intros w; simpl; [done|].
  destruct (is_dot c).
  - destruct (find_upto_last_quote s) as [w'|].
    + intros [= <-]. specialize (IH w' eq_refl). simpl. lia.
    + case_bool_decide; intros [= <-]. simpl. lia.
  - case_bool_decide; intros [= <-]. simpl. lia.
Qed.

Lemma find_quoted_length (s : string) :
  (String.length (find_quoted s) <= String.length s)%nat.
Proof.
  destruct s as [|c s]; simpl; [lia|].
  case_bool_decide; simpl; [|lia].
  destruct (find_upto_last_quote s) as [w|] eqn:Hw; simpl; [|lia].
  apply find_upto_last_quote_length in Hw.
  rewrite length_append. simpl. lia.
Qed.

Lemma find_nonspace_length (s : string) :
  (String.length (find_nonspace s) <= String.length s)%nat.
Proof.
  induction s as [|c s IH]; simpl; [lia|]. destruct (is_S c); simpl; lia.
Qed.

Lemma drop_string_length (n : nat) (s : string) :
  (n <= String.length s)%nat ->
  String.length (drop_string n s) = (String.length s - n)%nat.
Proof.
  revert s. induction n as [|n IH]; intros [|c s]; simpl; try lia.
  intros Hn. apply IH. lia.
Qed.

Lemma skip_spaces_length (s : string) :
  (String.length (skip_spaces s) <= String.length s)%nat.
Proof.
  induction s as [|c s IH]; simpl; [lia|]. destruct (isSpace c); simpl; lia.
Qed.

Lemma first_match_tokens (s str : string) (tok : Z) :
  first_match tokens s = Some (str, tok) ->
  str <> "" /\ (String.length str <= String.length s)%nat /\ tok ∈ keyword_codes.
Proof.
  unfold tokens, first_match, keyword_codes. cbn [regex token].
  pose proof (find_literal_length "NOT" s).
  pose proof (find_literal_length "AND" s).
  pose proof (find_literal_length "OR" s).
  pose proof (find_literal_length "PROX" s).
  pose proof (find_quoted_length s).
  pose proof (find_nonspace_length s).
  repeat (case_bool_decide;
          [|intros [= <- <-]; split; [done|]; split; [done|];
            rewrite !elem_of_cons; tauto]).
  done.
Qed.

Lemma first_match_none (c : ascii) (s : string) :
  first_match tokens (String c s) = None -> byte c ∈ blank_codes.
Proof.
  unfold tokens, first_match. cbn [regex token].
  repeat (case_bool_decide; [|done]).
  intros _.
  match goal with Hn : find_nonspace _ = _ |- _ => rename Hn into Hn' end.
  simpl in Hn'. unfold is_S in Hn'. unfold blank_codes.
  rewrite !elem_of_cons.
  repeat (case_bool_decide; [tauto|]). simpl in Hn'. discriminate Hn'.
Qed.

(** What a call of [Lex] gives: the end of the input, or a token that
    took at least one byte.  The tokens are the five keyword codes and
    the blank bytes: never a parenthesis. *)
Lemma Lex_spec (t : basicTransformer) (lval : yySymType) :
  let '(n, t', lval') := Lex t lval in
  errors t' = errors t /\ parseResult t' = parseResult t /\
  ((n = 0%Z /\ input t' = "") \/
   (n ∈ keyword_codes ++ blank_codes /\
    (String.length (input t') < String.length (input t))%nat)).
Proof.
  unfold Lex. pose proof (skip_spaces_length (input t)) as Hskip.
  destruct (skip_spaces (input t)) as [|c rest] eqn:Hinp.
  { split; [done|]. split; [done|]. by left. }
  destruct (first_match tokens (String c rest)) as [[str tok]|] eqn:Hm.
  - apply first_match_tokens in Hm as (Hne & Hlen & Htok).
    assert (0 < String.length str)%nat by (destruct str; [done | simpl; lia]).
    assert (String.length (drop_string (String.length str) (String c rest))
            < String.length (input t))%nat.
    { rewrite drop_string_length by done. simpl in *. lia. }
    case_bool_decide; (split; [done|]; split; [done|]; right; split;
      [apply elem_of_app; by left | done]).
  - apply first_match_none in Hm.
    split; [done|]. split; [done|]. right. split.
    + apply elem_of_app. by right.
    + simpl in *. lia.
Qed.

(** The lexer never gives the parser a parenthesis: [(] and [)] are
    not blanks, so the last expression of [tokens] takes them into a
    [TERM]. *)
Lemma Lex_no_parenthesis (t : basicTransformer) (lval : yySymType) :
  (Lex t lval).1.1 <> 40%Z /\ (Lex t lval).1.1 <> 41%Z.
Proof.
  pose proof (Lex_spec t lval) as Hs.
  destruct (Lex t lval) as [[n t'] lval']. simpl.
  destruct Hs as (_ & _ & [[-> _] | [Hn _]]); [done|].
  unfold keyword_codes, blank_codes in Hn. simpl in Hn.
  rewrite !elem_of_cons, elem_of_nil in Hn.
  split; intros ->; repeat destruct Hn as [Hn|Hn]; done.
Qed.

(** ** The parser *)

Lemma index_Some_range {A : Type} (l : list A) (i : Z) (x : A) :
  index l i = Some x -> (0 <= i < len l)%Z.
Proof.
  unfold index, len. case_bool_decide; [|done].
  intros Hl. apply lookup_lt_Some in Hl. lia.
Qed.

Lemma state_in_all (a : Z) : (0 <= a < 15)%Z -> a ∈ all_states.
Proof.
  intros Ha. unfold all_states. rewrite !elem_of_cons. lia.
Qed.

Lemma succ_ok_preds (a s : Z) : succ_ok a s = true -> a ∈ preds s.
Proof.
  intros Hs. unfold preds. apply list_elem_of_filter. split.
  - by rewrite Hs.
  - unfold succ_ok in Hs. destruct (index yyParseTab a) as [row|] eqn:Hr; [|done].
    apply index_Some_range in Hr. by apply state_in_all.
Qed.

Lemma succ_ok_range (a s : Z) : succ_ok a s = true -> (0 < s < 15)%Z.
Proof.
  intros Hs. pose proof (succ_ok_preds a s Hs) as Ha.
  unfold succ_ok in Hs.
  destruct (index yyParseTab a) as [row|] eqn:Hr; [|done].
  apply andb_true_iff in Hs as [Hin Hpos].
  apply bool_decide_eq_true in Hin. apply bool_decide_eq_true in Hpos.
  split; [done|].
  assert (Hall : Forall (Forall (fun e => e <= 22)%Z) yyParseTab).
  { unfold yyParseTab. repeat constructor; lia. }
  unfold index in Hr. case_bool_decide; [|done].
  apply list_elem_of_lookup_2 in Hr.
  rewrite Forall_forall in Hall. specialize (Hall row Hr).
  rewrite Forall_forall in Hall. specialize (Hall _ Hin). lia.
Qed.

Lemma chain_states (ss : list Z) : chain ss -> Forall (fun s => 0 <= s < 15)%Z ss.
Proof.
  induction ss as [|s below IH]; [done|]. simpl.
  destruct below as [|a below'].
  - intros ->. constructor; [lia | constructor].
  - intros [Hs Hc]. constructor; [|by apply IH].
    apply succ_ok_range in Hs. lia.
Qed.

Lemma yyrecover_NoHit (stack above : list yySymType) :
  Forall (fun s => 0 <= s < 15)%Z (yys <$> stack) ->
  yyrecover stack above = NoHit.
Proof.
  revert above. induction stack as [|top below IH]; intros above Hall; [done|].
  apply Forall_cons in Hall as [Htop Hall]. simpl.
  assert (Hin : yys top ∈ all_states) by by apply state_in_all.
  unfold all_states in Hin.
  rewrite !elem_of_cons, elem_of_nil in Hin.
  repeat destruct Hin as [Hin|Hin]; try done; rewrite Hin; simpl; by apply IH.
Qed.

Lemma yyread_pending (v : yyVars) : (0 <= yychar v)%Z -> yyread v = v.
Proof. intros Hc. unfold yyread. by rewrite bool_decide_eq_false_2 by lia. Qed.

Lemma lex_codes_pos (c : Z) : c ∈ lex_codes -> (0 < c)%Z.
Proof.
  unfold lex_codes, keyword_codes, blank_codes. simpl.
  rewrite !elem_of_cons, elem_of_nil. intros Hc.
  repeat destruct Hc as [Hc|Hc]; try done; subst c; done.
Qed.

Lemma yyread_Inv (v : yyVars) :
  Inv v ->
  Inv (yyread v) /\ yychar (yyread v) ∈ lex_codes /\
  (measure (yyread v) <= measure v)%nat.
Proof.
  intros [Herr Hflag Htop Hchain Htok]. unfold yyread.
  case_bool_decide as Hneg.
  2:{ destruct Htok as [?|(Hc & Hx & He)]; [lia|].
      split; [by constructor; auto|]. split; [done | lia]. }
  unfold yylex1.
  pose proof (Lex_spec (yylex v) (set_yys (yylval v) (yystate v))) as Hlex.
  destruct (Lex (yylex v) (set_yys (yylval v) (yystate v))) as [[n t'] lval'].
  destruct Hlex as (Herr' & _ & Hn).
  assert (Hcode : (if bool_decide (n <= 0)%Z then yyEofCode else n) ∈ lex_codes /\
                  ((if bool_decide (n <= 0)%Z then yyEofCode else n) = yyEofCode ->
                   input t' = "") /\
                  (String.length (input t') +
                   (if bool_decide (0 <= (if bool_decide (n <= 0)%Z then yyEofCode else n))%Z
                       && negb (bool_decide ((if bool_decide (n <= 0)%Z then yyEofCode else n) = yyEofCode))
                    then 1 else 0) <= String.length (input (yylex v)))%nat).
  { destruct Hn as [[-> Hin] | [Hn Hlen]].
    - simpl. split; [apply list_elem_of_here|]. split; [done|]. rewrite Hin. simpl. lia.
    - assert (Hlc : n ∈ lex_codes) by (by apply list_elem_of_further).
      pose proof (lex_codes_pos n Hlc).
      rewrite bool_decide_eq_false_2 by lia.
      split; [done|]. split.
      + intros ->. unfold keyword_codes, blank_codes in Hn. simpl in Hn.
        rewrite !elem_of_cons, elem_of_nil in Hn.
        repeat destruct Hn as [Hn|Hn]; done.
      + destruct (_ && _); lia. }
  destruct Hcode as (Hc1 & Hc2 & Hc3).
  split; [|split].
  - constructor; simpl; try done. { by rewrite Herr'. } right. done.
  - done.
  - unfold measure, pending. simpl.
    rewrite (bool_decide_eq_false_2 (0 <= yychar v)%Z) by lia. simpl. lia.
Qed.

Lemma chain_pop (s a : Z) (l : list Z) :
  chain (s :: a :: l) -> succ_ok a s = true /\ chain (a :: l).
Proof. done. Qed.

Ltac enum_in H :=
  repeat (apply elem_of_cons in H as [H|H]; [subst|]);
  [..|apply elem_of_nil in H; destruct H].

(** Replace the closed tests of the goal by their values. *)
Ltac decide_closed :=
  repeat match goal with
  | |- context [bool_decide ?P] =>
      let b := eval vm_compute in (bool_decide P) in
      match b with
      | true => change (bool_decide P) with true
      | false => change (bool_decide P) with false
      end
  end.

Ltac table_lookup :=
  match goal with
  | |- context [index yyParseTab ?s] =>
      let r := eval vm_compute in (index yyParseTab s) in
      change (index yyParseTab s) with r
  end;
  cbv iota beta;
  repeat match goal with
  | |- context [yyaction ?row ?x] =>
      let n := eval vm_compute in (yyaction row x) in
      change (yyaction row x) with n
  end;
  decide_closed; cbv iota beta.

(** Expose the state below the top of the stack: it is one of the
    predecessors of the top state. *)
Ltac pop_state Hchain below s :=
  let a := fresh "a" in let str := fresh "str" in let nd := fresh "nd" in
  let Hs := fresh "Hs" in
  destruct below as [|[a str nd] below];
  [simpl in Hchain; discriminate Hchain |];
  cbn [fmap list_fmap yys] in Hchain;
  apply chain_pop in Hchain;
  destruct Hchain as [Hs Hchain];
  apply succ_ok_preds in Hs;
  let l := eval vm_compute in (preds s) in change (preds s) with l in Hs;
  enum_in Hs.

Ltac measure_closed :=
  unfold measure, pending;
  cbn [yylex yyS yystate yychar yystack length input set_parseResult];
  decide_closed;
  repeat match goal with
  | |- context [rank ?s] =>
      let n := eval vm_compute in (rank s) in change (rank s) with n
  end;
  cbn [andb negb]; cbv iota; lia.

Ltac shift_case Herr Hchain :=
  split;
  [ constructor; simpl;
    [ exact Herr | reflexivity | reflexivity
    | split; [vm_compute; reflexivity | exact Hchain]
    | left; lia ]
  | measure_closed ].

Lemma yynewstate_pending (v : yyVars) :
  Inv v -> yychar v ∈ lex_codes -> step_ok v (yynewstate v).
Proof.
  intros [Herr Hflag Htop Hchain Htok] Hc.
  pose proof (lex_codes_pos _ Hc) as Hpos.
  unfold yynewstate. rewrite yyread_pending by lia.
  destruct Htok as [?|(_ & Hx & Heof)]; [lia|].
  destruct v as [lex stack above lval VAL nerrs eflag st ch xch shift].
  simpl in *. subst eflag xch.
  destruct stack as [|[s str nd] below]; [done|].
  simpl in Htop. injection Htop as ->.
  pose proof (chain_states _ Hchain) as Hall.
  cbn [fmap list_fmap yys] in Hall, Hchain.
  pose proof (Forall_inv Hall) as Hst. simpl in Hst.
  apply state_in_all in Hst. unfold all_states in Hst.
  unfold lex_codes, keyword_codes, blank_codes in Hc. simpl in Hc.
  enum_in Hst; enum_in Hc.
  all: table_lookup.
  all: try (unfold yyresume; cbn [yyS yyAbove];
            rewrite yyrecover_NoHit by exact Hall; right; split; [done|];
            eexists; simpl; rewrite Herr; reflexivity).
  all: try (left; split; [done | exact Herr]).
  all: unfold step_ok.
  all: try (shift_case Herr Hchain).
  all: match goal with
       | |- context [yyreduce _ (-1)] => pop_state Hchain below 2%Z
       | |- context [yyreduce _ (-2)] => pop_state Hchain below 3%Z
       | |- context [yyreduce _ (-4)] =>
           pop_state Hchain below 6%Z;
           match type of Hchain with chain (?a :: _) => pop_state Hchain below a end
       | |- context [yyreduce _ (-3)] =>
           pop_state Hchain below 14%Z;
           match type of Hchain with chain (?a :: _) => pop_state Hchain below a end;
           match type of Hchain with chain (?a :: _) => pop_state Hchain below a end
       | |- context [yyreduce _ (-5)] =>
           pop_state Hchain below 12%Z;
           match type of Hchain with chain (?a :: _) => pop_state Hchain below a end;
           match type of Hchain with chain (?a :: _) => pop_state Hchain below a end
       | |- context [yyreduce _ (-6)] =>
           pop_state Hchain below 11%Z;
           match type of Hchain with chain (?a :: _) => pop_state Hchain below a end;
           match type of Hchain with chain (?a :: _) => pop_state Hchain below a end
       | |- context [yyreduce _ (-7)] =>
           pop_state Hchain below 10%Z;
           match type of Hchain with chain (?a :: _) => pop_state Hchain below a end;
           match type of Hchain with chain (?a :: _) => pop_state Hchain below a end
       end.
  all: unfold yyreduce.
  all: repeat match goal with
       | |- context [yyReductions ?r] =>
           let p := eval vm_compute in (yyReductions r) in
           change (yyReductions r) with p
       end; cbv iota beta.
  all: repeat match goal with
       | |- context [Z.to_nat ?r] =>
           let p := eval vm_compute in (Z.to_nat r) in
           change (Z.to_nat r) with p
       end; cbv iota beta.
  all: cbn [yyS yyAbove drop take reverse length].
  all: rewrite bool_decide_eq_false_2 by lia.
  all: cbn [yys yylex yylval Nerrs Errflag yychar yyxchar yyshift].
  all: repeat match goal with
       | |- context [index ?l ?k] =>
           let p := eval vm_compute in (index l k) in
           change (index l k) with p
       end; cbv iota beta.
  all: unfold yyactions; decide_closed; cbv iota beta.
  all: cbn -[measure].
  all: repeat match goal with
       | |- context [index ?l ?k] =>
           let p := eval vm_compute in (index l k) in
           change (index l k) with p
       end; cbv iota beta.
  all: repeat match goal with
       | |- context [(?e + yyTabOfs)%Z] =>
           let p := eval vm_compute in (e + yyTabOfs)%Z in
           change (e + yyTabOfs)%Z with p
       end.
  all: (split;
        [ constructor; simpl;
          [ exact Herr | reflexivity | reflexivity
          | split; [vm_compute; reflexivity | exact Hchain]
          | right; split;
            [ unfold lex_codes, keyword_codes, blank_codes; simpl;
              rewrite !elem_of_cons; tauto
            | split; [reflexivity | exact Heof] ] ]
        | measure_closed ]).
Qed.

Lemma yynewstate_ok (v : yyVars) : Inv v -> step_ok v (yynewstate v).
Proof.
  intros Hinv. destruct (yyread_Inv v Hinv) as (Hinv' & Hc & Hle).
  pose proof (yynewstate_pending (yyread v) Hinv' Hc) as Hstep.
  assert (Heq : yynewstate (yyread v) = yynewstate v).
  { unfold yynewstate. rewrite (yyread_pending (yyread v)); [done|].
    apply lex_codes_pos in Hc. lia. }
  rewrite Heq in Hstep. unfold step_ok in *.
  destruct (yynewstate v) as [v'|code t|]; [|done|done].
  destruct Hstep as [? ?]. split; [done | lia].
Qed.

(** The loop returns when it is given more turns than the measure. *)
Lemma yyloop_returns (fuel : nat) (v : yyVars) :
  Inv v -> (measure v < fuel)%nat ->
  exists (code : Z) (t : basicTransformer),
    yyloop fuel v = Ok (code, t) /\
    ((code = 0%Z /\ errors t = []) \/
     (code = 1%Z /\ exists msg : string, errors t = [rdb.errorString msg])).
Proof.
  revert v. induction fuel as [|fuel IH]; intros v Hinv Hm; [lia|].
  simpl. pose proof (yynewstate_ok v Hinv) as Hstep. unfold step_ok in Hstep.
  destruct (yynewstate v) as [v'|code t|]; [|by exists code, t|done].
  destruct Hstep as [Hinv' Hlt]. apply IH; [done | lia].
Qed.

(** [yyParse] returns on every input: with 0 and no error reported, or
    with 1 and one error reported. *)
Lemma yyParse_returns (t : basicTransformer) :
  errors t = [] ->
  exists (code : Z) (t' : basicTransformer),
    yyParse t = Ok (code, t') /\
    ((code = 0%Z /\ errors t' = []) \/
     (code = 1%Z /\ exists msg : string, errors t' = [rdb.errorString msg])).
Proof.
  intros Herr. unfold yyParse. apply yyloop_returns.
  - constructor; simpl; try done. by left.
  - unfold measure, pending, yyfuel.
    cbn [yystack yyinit yylex yyS yystate yychar length].
    decide_closed. cbn [andb]. change (rank 0) with 0%nat. lia.
Qed.

(** C5.  On every input the parser returns; it returns 1 exactly when it
    has reported an error to the transformer; and then
    [NewBasicTransformer] returns nil with the first error of the list,
    while a transformer is returned only with an empty list. *)
Theorem NewBasicTransformer_refuses_on_error (input defaultAttr : string) :
  exists (code : Z) (t : basicTransformer),
    yyParse (fresh input) = Ok (code, t) /\
    (code = 1%Z <-> errors t <> []) /\
    (forall e : error, head (errors t) = Some e ->
       NewBasicTransformer input defaultAttr = Ok (None, Some e)) /\
    (forall (t' : basicTransformer) (err : option error),
       NewBasicTransformer input defaultAttr = Ok (Some t', err) ->
       errors t = [] /\ t' = t /\ err = None).
Proof.
  destruct (yyParse_returns (fresh input) eq_refl) as (code & t & Hp & Hcode).
  exists code, t. split; [done|].
  unfold NewBasicTransformer. fold (fresh input). rewrite Hp.
  split; [|split].
  - destruct Hcode as [[-> ->] | [-> [msg ->]]]; split; done.
  - intros e He. destruct (errors t) as [|e' es]; [done|].
    by injection He as ->.
  - intros t' err. destruct (errors t) as [|e' es]; [|done].
    by intros [= <- <-].
Qed.

Lemma NewBasicTransformer_refuses_on_error_witness :
  NewBasicTransformer "a AND" "word" =
    Ok (None, Some (rdb.errorString "unexpected $end")).
Proof.
  destruct (NewBasicTransformer_refuses_on_error "a AND" "word")
    as (code & t & Hp & _ & Hnil & _).
  apply Hnil. vm_compute in Hp. by injection Hp as _ <-.
Defined.

(** ** Parsing *)

(** C4.  Extra blanks do not change the tree, but a parenthesised
    operand does: no call of [Lex] ever returns [(] or [)], because the
    expression for [TERM] takes every non-blank byte, so the operand
    [(b)] is the term with the text [(b)] and the rule for parentheses
    of the grammar is never used. *)
Theorem Parse_parenthesised_operand :
  Parse "a AND b" = Some (rootNode (binaryNode "AND" (termNode "a") (termNode "b"))) /\
  Parse "a  AND  b" = Parse "a AND b" /\
  Parse "a AND (b)" =
    Some (rootNode (binaryNode "AND" (termNode "a") (termNode "(b)"))) /\
  strip_parens <$> Parse "a AND (b)" <> strip_parens <$> Parse "a AND b" /\
  (forall (t : basicTransformer) (lval : yySymType),
     (Lex t lval).1.1 <> 40%Z /\ (Lex t lval).1.1 <> 41%Z).
Proof.
  split; [by vm_compute|]. split; [by vm_compute|]. split; [by vm_compute|].
  split; [by vm_compute|]. exact Lex_no_parenthesis.
Qed.

End basic_facts.

(* ================================================================== *)
(** * Properties of the handlers *)
(* ================================================================== *)
Module fcs_facts.
Import fcs fcs_inv.

(** ** The rows *)
Section Transform.
Context {Row : Type} (row : Z -> string -> ConcordanceLine -> Row).
Context (position : Row -> Z) (pid : Row -> string).
Hypothesis position_row : forall p c l, position (row p c l) = p.
Hypothesis pid_row : forall p c l, pid (row p c l) = c.

Lemma add_lines_imap (c : string) (rows : list Row) (lines : list ConcordanceLine) :
  add_lines row c rows lines =
  rows ++ imap (fun k l => row (Z.of_nat (length rows + k) + 1)%Z c l) lines.
Proof.
  unfold add_lines. revert rows.
  induction lines as [|l lines IH]; intros rows; simpl.
  - by rewrite app_nil_r.
  - rewrite IH, <- app_assoc. simpl. f_equal. rewrite Nat.add_0_r. f_equal.
    apply imap_ext. intros k x _. simpl. rewrite length_app. simpl.
    do 3 f_equal. lia.
Qed.

Lemma add_lines_length (c : string) (rows : list Row) (lines : list ConcordanceLine) :
  length (add_lines row c rows lines) = (length rows + length lines)%nat.
Proof. rewrite add_lines_imap, length_app, length_imap. done. Qed.

Lemma add_lines_pid (c : string) (rows : list Row) (lines : list ConcordanceLine) :
  pid <$> add_lines row c rows lines = (pid <$> rows) ++ replicate (length lines) c.
Proof.
  rewrite add_lines_imap, fmap_app. f_equal.
  generalize (length rows). induction lines as [|l lines IH]; intros n; [done|].
  simpl. rewrite pid_row. f_equal.
  etrans; [|exact (IH (S n))]. f_equal. apply imap_ext. intros k x _. simpl.
  do 3 f_equal. lia.
Qed.

Lemma imap_position (c : string) (n : nat) (lines : list ConcordanceLine) :
  position <$> imap (fun k l => row (Z.of_nat (n + k) + 1)%Z c l) lines =
  Z.of_nat <$> seq (S n) (length lines).
Proof.
  revert n. induction lines as [|l lines IH]; intros n; [done|].
  simpl. rewrite position_row. f_equal; [lia|].
  etrans; [|exact (IH (S n))]. f_equal. apply imap_ext. intros k x _. simpl.
  do 3 f_equal. lia.
Qed.

Lemma add_lines_position (c : string) (rows : list Row) (lines : list ConcordanceLine) :
  position <$> rows = Z.of_nat <$> seq 1 (length rows) ->
  position <$> add_lines row c rows lines =
    Z.of_nat <$> seq 1 (length (add_lines row c rows lines)).
Proof.
  intros Hrows. rewrite add_lines_length, add_lines_imap, fmap_app, Hrows.
  rewrite seq_app, fmap_app. f_equal. apply imap_position.
Qed.

Lemma transform_length (corpora : list string) (i : nat)
    (results : list ConcExample) (rows : list Row) :
  length (transform row corpora i results rows) =
  (length rows + sum_list ((fun r => length (Lines r)) <$> results))%nat.
Proof.
  revert i rows. induction results as [|r results IH]; intros i rows; csimpl.
  - lia.
  - rewrite IH, add_lines_length. lia.
Qed.

Lemma transform_pid (corpora : list string) (i : nat)
    (results : list ConcExample) (rows : list Row) :
  (i + length results <= length corpora)%nat ->
  pid <$> transform row corpora i results rows =
  (pid <$> rows) ++ blocks (drop i corpora) results.
Proof.
  revert i rows. induction results as [|r results IH]; intros i rows Hlen; csimpl.
  - unfold blocks. destruct (drop i corpora); simpl; by rewrite app_nil_r.
  - simpl in Hlen. rewrite IH by lia. rewrite add_lines_pid, <- app_assoc.
    f_equal. destruct (lookup_lt_is_Some_2 corpora i) as [c Hc]; [lia|].
    rewrite Hc. simpl. rewrite (drop_S corpora c i Hc). done.
Qed.

Lemma transform_position (corpora : list string) (i : nat)
    (results : list ConcExample) (rows : list Row) :
  position <$> rows = Z.of_nat <$> seq 1 (length rows) ->
  position <$> transform row corpora i results rows =
    Z.of_nat <$> seq 1 (length (transform row corpora i results rows)).
Proof.
  revert i rows. induction results as [|r results IH]; intros i rows Hrows; csimpl.
  - done.
  - apply IH. by apply add_lines_position.
Qed.

(** The rows of a response, from the empty list. *)
Lemma transform_rows (corpora : list string) (results : list ConcExample) :
  length results = length corpora ->
  rows_as_claimed position pid corpora results (transform row corpora 0 results []).
Proof.
  intros Hlen. constructor.
  - by rewrite transform_length.
  - rewrite transform_pid by (simpl; lia). done.
  - by apply transform_position.
Qed.

End Transform.

Lemma served_from_cons `{Env} (i : nat) (job : Query_) (jobs : list Query_) :
  served_from i (job :: jobs) =
  (DeserializeConcExampleResult (received i job)).1 :: served_from (S i) jobs.
Proof.
  unfold served_from. simpl. rewrite Nat.add_0_r. f_equal.
  apply imap_ext. intros k x _. simpl. by rewrite Nat.add_succ_r.
Qed.

Lemma served_from_length `{Env} (i : nat) (jobs : list Query_) :
  length (served_from i jobs) = length jobs.
Proof. unfold served_from. by rewrite length_imap. Qed.

(** ** The later v12 handler (part_001) *)
Section V12c.
Context `{Env}.
Import v12c.

Lemma AddError_diagnostic (resp : FCSResponse) (e : FCSError) :
  ~ no_diagnostics_v12c (AddError resp e).
Proof. unfold no_diagnostics_v12c. simpl. by destruct (Errors (General resp)). Qed.

Lemma searchable_early (a : FCSSubHandlerV12) (q : Values) (resp early : FCSResponse)
    (code : Z) :
  searchable a q resp = inl (code, early) -> ~ no_diagnostics_v12c early.
Proof.
  unfold searchable. repeat case_match; intros [= <- <-];
    apply AddError_diagnostic.
Qed.

Lemma publish_early (a : FCSSubHandlerV12) (fcsQuery : string)
    (retrieveAttrs : list string) (resp early : FCSResponse) (i : nat)
    (corpora : list string) (code : Z) :
  publish a fcsQuery retrieveAttrs resp i corpora = inl (code, early) ->
  ~ no_diagnostics_v12c early.
Proof.
  revert i. induction corpora as [|c corpora IH]; intros i; simpl; [done|].
  repeat case_match; try (intros [= <- <-]; apply AddError_diagnostic);
    try done.
  intros [= ->]. eauto.
Qed.

Lemma publish_length (a : FCSSubHandlerV12) (fcsQuery : string)
    (retrieveAttrs : list string) (resp : FCSResponse) (i : nat)
    (corpora : list string) (jobs : list Query_) :
  publish a fcsQuery retrieveAttrs resp i corpora = inr jobs ->
  length jobs = length corpora.
Proof.
  revert i jobs. induction corpora as [|c corpora IH]; intros i jobs; simpl.
  { by intros [= <-]. }
  repeat case_match; try done. intros [= <-]. simpl. f_equal. eauto.
Qed.

Lemma gather_early (resp early : FCSResponse) (i : nat) (waits : list Query_)
    (code : Z) :
  gather resp i waits = inl (code, early) -> ~ no_diagnostics_v12c early.
Proof.
  revert i. induction waits as [|w waits IH]; intros i; simpl; [done|].
  repeat case_match; try (intros [= <- <-]; apply AddError_diagnostic);
    try done.
  intros [= ->]. eauto.
Qed.

Lemma gather_served (resp : FCSResponse) (i : nat) (waits : list Query_)
    (results : list ConcExample) :
  gather resp i waits = inr results -> results = served_from i waits.
Proof.
  revert i results. induction waits as [|w waits IH]; intros i results; simpl.
  { by intros [= <-]. }
  rewrite served_from_cons.
  repeat case_match; try done. intros [= <-]. simplify_eq/=. f_equal. eauto.
Qed.

Lemma searchRetrieve_success (a : FCSSubHandlerV12) (q : Values)
    (fcsResponse response : FCSResponse) (code : Z) :
  searchRetrieve a q fcsResponse = (code, response) ->
  no_diagnostics_v12c response ->
  exists (corpora : list string) (jobs : list Query_),
    searchable a q fcsResponse = inr corpora /\
    publish a (Query q "query")
      (GetCommonPosAttrNames (Resources (corporaConf a)) corpora)
      fcsResponse 0 corpora = inr jobs /\
    code = StatusOK /\
    Results response = transform row corpora 0 (served_from 0 jobs) [].
Proof.
  unfold searchRetrieve. intros Hret Hok.
  destruct (List.find _ (keys q)) as [key|].
  { injection Hret as <- <-. by apply AddError_diagnostic in Hok. }
  case_bool_decide.
  { injection Hret as <- <-. by apply AddError_diagnostic in Hok. }
  destruct (searchable a q fcsResponse) as [[c early]|corpora] eqn:Hsel.
  { injection Hret as <- <-. by apply searchable_early in Hsel. }
  destruct (publish a _ _ fcsResponse 0 corpora) as [[c early]|jobs] eqn:Hpub.
  { injection Hret as <- <-. by apply publish_early in Hpub. }
  destruct (gather fcsResponse 0 jobs) as [[c early]|results] eqn:Hres.
  { injection Hret as <- <-. by apply gather_early in Hres. }
  injection Hret as <- <-. apply gather_served in Hres as ->.
  by exists corpora, jobs.
Qed.

End V12c.

(** ** The v12 handler of handler/v12/handler.go *)
Section V12.
Context `{Env}.
Import v12.

Lemma set_Error_diagnostic (resp : FCSResponse) (e : FCSError) :
  ~ no_diagnostics_v12 (set_Error resp e).
Proof. done. Qed.

Lemma listed_early (a : FCSSubHandlerV12) (resp early : FCSResponse)
    (names corpora searchAttrs : list string) (code : Z) :
  listed a resp names corpora searchAttrs = inl (code, early) ->
  ~ no_diagnostics_v12 early.
Proof.
  revert corpora searchAttrs.
  induction names as [|v names IH]; intros corpora searchAttrs; simpl; [done|].
  case_match; [by eauto|]. by intros [= <- <-].
Qed.

Lemma searchable_early_v12 (a : FCSSubHandlerV12) (q : Values)
    (resp early : FCSResponse) (code : Z) :
  searchable a q resp = inl (code, early) -> ~ no_diagnostics_v12 early.
Proof. unfold searchable. case_match; [apply listed_early | done]. Qed.

Lemma publish_early_v12 (a : FCSSubHandlerV12) (transformer : Transformer)
    (resp early : FCSResponse) (i : nat) (corpora searchAttrs : list string)
    (code : Z) :
  publish a transformer resp i corpora searchAttrs = inl (code, early) ->
  ~ no_diagnostics_v12 early.
Proof.
  revert i searchAttrs.
  induction corpora as [|c corpora IH]; intros i searchAttrs; simpl; [done|].
  repeat case_match; try (by intros [= <- <-]); try done.
  intros [= ->]. eauto.
Qed.

Lemma gather_early_v12 (resp early : FCSResponse) (i : nat)
    (waits : list Query_) (code : Z) :
  gather resp i waits = inl (code, early) -> ~ no_diagnostics_v12 early.
Proof.
  revert i. induction waits as [|w waits IH]; intros i; simpl; [done|].
  repeat case_match; try (by intros [= <- <-]); try done.
  intros [= ->]. eauto.
Qed.

Lemma gather_served_v12 (resp : FCSResponse) (i : nat) (waits : list Query_)
    (results : list ConcExample) :
  gather resp i waits = inr results -> results = served_from i waits.
Proof.
  revert i results. induction waits as [|w waits IH]; intros i results; simpl.
  { by intros [= <-]. }
  rewrite served_from_cons.
  repeat case_match; try done. intros [= <-]. simplify_eq/=. f_equal. eauto.
Qed.

Lemma publish_length_v12 (a : FCSSubHandlerV12) (transformer : Transformer)
    (resp : FCSResponse) (i : nat) (corpora searchAttrs : list string)
    (jobs : list Query_) :
  publish a transformer resp i corpora searchAttrs = inr jobs ->
  length jobs = length corpora.
Proof.
  revert i searchAttrs jobs.
  induction corpora as [|c corpora IH]; intros i searchAttrs jobs; simpl.
  { by intros [= <-]. }
  repeat case_match; try done. intros [= <-]. simpl. f_equal. eauto.
Qed.

Lemma searchRetrieve_success_v12 (a : FCSSubHandlerV12) (q : Values)
    (fcsResponse response : FCSResponse) (code : Z) :
  searchRetrieve a q fcsResponse = (code, response) ->
  no_diagnostics_v12 response ->
  exists (corpora searchAttrs : list string) (jobs : list Query_),
    searchable a q fcsResponse = inr (corpora, searchAttrs) /\
    publish a (NewBasicTransformer (Query q "query")).1 fcsResponse 0
      corpora searchAttrs = inr jobs /\
    code = StatusOK /\
    Results response = transform row corpora 0 (served_from 0 jobs) [].
Proof.
  unfold searchRetrieve. intros Hret Hok.
  destruct (unsupported a q) as [key|].
  { by injection Hret as <- <-. }
  case_bool_decide.
  { by injection Hret as <- <-. }
  destruct (NewBasicTransformer (Query q "query")) as [transformer [fcsErr|]].
  { by injection Hret as <- <-. }
  destruct (searchable a q fcsResponse) as [[c early]|[corpora searchAttrs]] eqn:Hsel.
  { injection Hret as <- <-. by apply searchable_early_v12 in Hsel. }
  destruct (publish a _ fcsResponse 0 corpora searchAttrs) as [[c early]|jobs] eqn:Hpub.
  { injection Hret as <- <-. by apply publish_early_v12 in Hpub. }
  destruct (gather fcsResponse 0 jobs) as [[c early]|results] eqn:Hres.
  { injection Hret as <- <-. by apply gather_early_v12 in Hres. }
  injection Hret as <- <-. apply gather_served_v12 in Hres as ->.
  by exists corpora, searchAttrs, jobs.
Qed.

End V12.

(** ** The target corpora *)

Lemma elem_of_keys {A : Type} (m : gmap string A) (v : string) :
  v ∈ keys m <-> is_Some (m !! v).
Proof.
  unfold keys. rewrite list_elem_of_fmap. split.
  - intros [[k x] [-> Hin]]. apply elem_of_map_to_list in Hin. by exists x.
  - intros [x Hx]. exists (v, x). split; [done|]. by apply elem_of_map_to_list.
Qed.

(** [GetCorpora] lists every registered corpus once. *)
Lemma GetCorpora_all (rs : gmap string Resource) : GetCorpora rs ≡ₚ keys rs.
Proof. unfold GetCorpora. apply merge_sort_Permutation. Qed.

Section Targets.
Context `{Env}.

Lemma listed_spec (a : v12.FCSSubHandlerV12) (resp : v12.FCSResponse)
    (names corpora searchAttrs : list string) :
  (Forall (known (Resources (v12.corporaConf a))) names ->
   exists attrs : list string,
     v12.listed a resp names corpora searchAttrs = inr (corpora ++ names, attrs)) /\
  (~ Forall (known (Resources (v12.corporaConf a))) names ->
   exists v : string,
     v ∈ names /\ Resources (v12.corporaConf a) !! v = None /\
     v12.listed a resp names corpora searchAttrs = inl (unknown_context_v12 resp v)).
Proof.
  revert corpora searchAttrs.
  induction names as [|v names IH]; intros corpora searchAttrs; simpl.
  - split.
    + intros _. exists searchAttrs. by rewrite app_nil_r.
    + intros Hn. destruct Hn. constructor.
  - destruct (Resources (v12.corporaConf a) !! v) as [resource|] eqn:Hv.
    + destruct (IH (corpora ++ [v]) (searchAttrs ++ [DefaultSearchAttr resource]))
        as [IHk IHu].
      split.
      * intros Hall. apply Forall_cons in Hall as [_ Hall].
        destruct (IHk Hall) as [attrs ->]. exists attrs.
        by rewrite <- app_assoc.
      * intros Hn. destruct IHu as (v' & Hin & Hv' & ->).
        { intros Hall. apply Hn. constructor; [by eexists | done]. }
        exists v'. split; [by apply list_elem_of_further | done].
    + split.
      * intros Hall. apply Forall_cons in Hall as [[x Hx] _].
        unfold known in Hx. congruence.
      * intros _. exists v. split; [apply list_elem_of_here | done].
Qed.

Lemma foldl_keys (l : list (string * Resource)) (corpora searchAttrs : list string) :
  (foldl (fun '(corpora, searchAttrs) '(corpusName, resource) =>
            (corpora ++ [corpusName], searchAttrs ++ [DefaultSearchAttr resource]))
         (corpora, searchAttrs) l).1 = corpora ++ l.*1.
Proof.
  revert corpora searchAttrs.
  induction l as [|[k r] l IH]; intros corpora searchAttrs; simpl.
  - by rewrite app_nil_r.
  - rewrite IH. by rewrite <- app_assoc.
Qed.

(** handler/v12/handler.go does what C3 says. *)
Lemma searchable_context_v12 (a : v12.FCSSubHandlerV12) (q : Values)
    (resp : v12.FCSResponse) :
  let names := Split (Query q "x-fcs-context") comma in
  (Has q "x-fcs-context" = true ->
   Forall (known (Resources (v12.corporaConf a))) names ->
   exists attrs : list string, v12.searchable a q resp = inr (names, attrs)) /\
  (Has q "x-fcs-context" = true ->
   ~ Forall (known (Resources (v12.corporaConf a))) names ->
   exists v : string,
     v ∈ names /\ Resources (v12.corporaConf a) !! v = None /\
     v12.searchable a q resp = inl (unknown_context_v12 resp v)) /\
  (Has q "x-fcs-context" = false ->
   exists attrs : list string,
     v12.searchable a q resp = inr (keys (Resources (v12.corporaConf a)), attrs)).
Proof.
  intros names. unfold v12.searchable.
  destruct (listed_spec a resp names [] []) as [Hk Hu].
  split; [|split]; intros ->.
  - exact Hk.
  - exact Hu.
  - eexists. rewrite surjective_pairing at 1. f_equal.
    by rewrite foldl_keys.
Qed.

(** So does the handler of package handler. *)
Lemma searchable_context_handler (a : handler.Actions) (q : Values)
    (resp : handler.FCSResponse) :
  let names := Split (Query q "x-fcs-context") comma in
  (Has q "x-fcs-context" = true ->
   Forall (known (Resources (handler.conf a))) names ->
   handler.searchable a q resp = inr names) /\
  (Has q "x-fcs-context" = true ->
   ~ Forall (known (Resources (handler.conf a))) names ->
   exists v : string,
     v ∈ names /\ Resources (handler.conf a) !! v = None /\
     handler.searchable a q resp = inl (unknown_context_handler resp v)) /\
  (Has q "x-fcs-context" = false ->
   handler.searchable a q resp = inr (keys (Resources (handler.conf a)))).
Proof.
  intros names. unfold handler.searchable. fold names.
  split; [|split]; intros ->; [| |done].
  - intros Hall.
    destruct (List.find _ names) as [v|] eqn:Hf; [|done].
    apply List.find_some in Hf as [Hin Hv]. apply list_elem_of_In in Hin.
    rewrite Forall_forall in Hall. specialize (Hall v Hin).
    apply elem_of_keys in Hall. unfold SliceContains in Hv.
    by rewrite bool_decide_eq_true_2 in Hv.
  - intros Hn.
    destruct (List.find _ names) as [v|] eqn:Hf.
    + apply List.find_some in Hf as [Hin Hv]. apply list_elem_of_In in Hin.
      exists v. split; [done|]. split; [|done].
      unfold SliceContains in Hv. apply negb_true_iff, bool_decide_eq_false in Hv.
      rewrite elem_of_keys in Hv. by apply eq_None_not_Some.
    + destruct Hn. apply Forall_forall. intros v Hin.
      apply list_elem_of_In in Hin.
      pose proof (List.find_none _ _ Hf v Hin) as Hv. simpl in Hv.
      apply negb_false_iff, bool_decide_eq_true in Hv.
      by apply elem_of_keys.
Qed.

(** The later handler asks [Has] for the value of [x-fcs-context], not
    for the key: unless that value is itself a key of the query string,
    the targets are all the corpora. *)
Lemma targets_all (a : v12c.FCSSubHandlerV12) (q : Values) :
  Has q (Query q "x-fcs-context") = false ->
  v12c.targets a q = GetCorpora (Resources (v12c.corporaConf a)).
Proof.
  intros Hh. unfold v12c.targets, v12c.SearchRetrArgFCSContext. by rewrite Hh.
Qed.

End Targets.

(** C3.  With [?query=dog&x-fcs-context=nosuch] and the corpora
    [corpusA], [corpusB] registered, the key is present and names an
    unknown corpus; handler/v12/handler.go and package handler answer
    with the diagnostic, the later handler goes on with all the
    registered corpora.  With [x-fcs-context=corpusA] it searches
    [corpusB] too. *)
Theorem searchable_ignores_context `{Env} (resp : v12c.FCSResponse) :
  let later := {| v12c.corporaConf := sample.corpora |} in
  Has sample.request_unknown "x-fcs-context" = true /\
  Split (Query sample.request_unknown "x-fcs-context") comma = ["nosuch"] /\
  Resources sample.corpora !! "nosuch" = None /\
  v12c.searchable later sample.request_unknown resp = inr ["corpusA"; "corpusB"] /\
  v12c.searchable later sample.request_one resp = inr ["corpusA"; "corpusB"] /\
  v12.searchable (v12.NewFCSSubHandlerV12 sample.corpora) sample.request_unknown
    empty_v12 = inl (unknown_context_v12 empty_v12 "nosuch") /\
  handler.searchable (handler.NewActions sample.corpora) sample.request_unknown
    empty_handler = inl (unknown_context_handler empty_handler "nosuch").
Proof.
  intros later. repeat split; try by vm_compute.
Qed.

(** C1.  A response of [searchRetrieve] without a diagnostic has status
    200 and, for the corpora [corpora] the request selected and the
    results the workers gave for their jobs, one row per line: the count
    of the rows is the sum of the counts of the lines, the rows of a
    corpus carry its id and the corpora follow each other in the order
    of [corpora], and the positions are 1, 2, ... up to the count.  This
    holds for the handler of handler/v12/handler.go and for the later
    one. *)
Theorem searchRetrieve_rows `{Env} :
  (forall (a : v12c.FCSSubHandlerV12) (q : Values)
          (fcsResponse response : v12c.FCSResponse) (code : Z),
     v12c.searchRetrieve a q fcsResponse = (code, response) ->
     no_diagnostics_v12c response ->
     exists (corpora : list string) (jobs : list Query_),
       v12c.searchable a q fcsResponse = inr corpora /\
       v12c.publish a (Query q "query")
         (GetCommonPosAttrNames (Resources (v12c.corporaConf a)) corpora)
         fcsResponse 0 corpora = inr jobs /\
       length jobs = length corpora /\
       code = StatusOK /\
       rows_as_claimed v12c.Position v12c.PID corpora (served_from 0 jobs)
         (v12c.Results response)) /\
  (forall (a : v12.FCSSubHandlerV12) (q : Values)
          (fcsResponse response : v12.FCSResponse) (code : Z),
     v12.searchRetrieve a q fcsResponse = (code, response) ->
     no_diagnostics_v12 response ->
     exists (corpora searchAttrs : list string) (jobs : list Query_),
       v12.searchable a q fcsResponse = inr (corpora, searchAttrs) /\
       v12.publish a (NewBasicTransformer (Query q "query")).1 fcsResponse 0
         corpora searchAttrs = inr jobs /\
       length jobs = length corpora /\
       code = StatusOK /\
       rows_as_claimed handler.Position handler.PID corpora (served_from 0 jobs)
         (v12.Results response)).
Proof.
  split.
  - intros a q fcsResponse response code Hret Hok.
    destruct (searchRetrieve_success a q fcsResponse response code Hret Hok)
      as (corpora & jobs & Hsel & Hpub & -> & ->).
    exists corpora, jobs. pose proof (publish_length _ _ _ _ _ _ _ Hpub) as Hlen.
    repeat (split; [done|]).
    apply transform_rows; try done. by rewrite served_from_length.
  - intros a q fcsResponse response code Hret Hok.
    destruct (searchRetrieve_success_v12 a q fcsResponse response code Hret Hok)
      as (corpora & searchAttrs & jobs & Hsel & Hpub & -> & ->).
    exists corpora, searchAttrs, jobs.
    pose proof (publish_length_v12 _ _ _ _ _ _ _ Hpub) as Hlen.
    repeat (split; [done|]).
    apply transform_rows; try done.
    + intros p c l. unfold v12.row, handler.row. by destruct (handler.kwic_split _ _ _ _ _) as [[? ?] ?].
    + intros p c l. unfold v12.row, handler.row. by destruct (handler.kwic_split _ _ _ _ _) as [[? ?] ?].
    + by rewrite served_from_length.
Qed.

#[local] Existing Instance sample.env.

Lemma searchRetrieve_rows_witness :
  exists (corpora : list string) (jobs : list Query_),
    v12c.searchable {| v12c.corporaConf := sample.corpora |} sample.request
      empty_v12c = inr corpora /\
    v12c.publish {| v12c.corporaConf := sample.corpora |}
      (Query sample.request "query")
      (GetCommonPosAttrNames (Resources sample.corpora) corpora)
      empty_v12c 0 corpora = inr jobs /\
    length jobs = length corpora /\
    200%Z = StatusOK /\
    rows_as_claimed v12c.Position v12c.PID corpora (served_from 0 jobs)
      (v12c.Results
         (v12c.searchRetrieve {| v12c.corporaConf := sample.corpora |}
            sample.request empty_v12c).2).
Proof.
  apply (proj1 searchRetrieve_rows {| v12c.corporaConf := sample.corpora |}
           sample.request empty_v12c); [by vm_compute | reflexivity].
Defined.

End fcs_facts.

(* ================================================================== *)
(** * More properties of the Redis adapter *)
(* ================================================================== *)
Module rdb_more_facts.
Import rdb rdb_more rdb_facts.

Section Adapter.
Context `{Gob}.

Lemma deliver_same (c m : string) (s : Subscription) :
  subChannel (deliver c m s) = subChannel s /\
  subClosed (deliver c m s) = subClosed s /\
  (c <> subChannel s -> inbox (deliver c m s) = inbox s) /\
  (c = subChannel s -> subClosed s = false ->
   inbox (deliver c m s) = inbox s ++ [m]).
Proof.
  unfold deliver. case_bool_decide as Hc; destruct (subClosed s) eqn:Hcl; cbn;
    repeat split; try done; intros; congruence.
Qed.


Lemma PublishQuery_queue (a : Adapter) (uuid : string) (query : Query)
    (r r' : Redis) (w : Waiter) (err : option error) :
  PublishQuery a uuid query r = (Some w, err, r') ->
  exists msg : string,
    encodeQuery (addressed a uuid query) = inl msg /\
    lists r' = <[DefaultQueueKey := msg :: default [] (lists r !! DefaultQueueKey)]> (lists r).
Proof.
  unfold PublishQuery. fold (addressed a uuid query).
  destruct (encodeQuery _) as [msg|e]; [|done].
  unfold Subscribe, LPush, Publish, next_fault. cbn [faults subs lists kv log].
  destruct (faults r) as [|[e1|] fs]; try done.
  - intros [= <- <- <-]. by exists msg.
  - destruct fs as [|[e2|] fs]; intros [= <- <- <-]; by exists msg.
Qed.


(** X2.  The error of [SET] is dropped.  When storing fails and the
    notification goes through, [PublishResult] returns no error, nothing
    is stored, and the waiting goroutine ends with the error of the
    missing key as its only result. *)
Theorem PublishResult_hides_failed_store (a : Adapter) (channelName : string)
    (value ans : ConcResult) (r : Redis) (e : error) (msg : string)
    (i : nat) (s : Subscription) :
  faults r = [Some e] ->
  encodeResult (transmitted value) = inl msg ->
  kv r !! channelName = None ->
  subs r !! i = Some s -> subChannel s = channelName ->
  subClosed s = false -> inbox s = [] ->
  exists r2 r3 : Redis,
    PublishResult a channelName value r = (transmitted value, None, r2) /\
    kv r2 = kv r /\
    watch {| wSub := i; wChannel := channelName |} [caseItem] ans r2 =
      ([set_Error ans (Some redisNil)], Some Returned, r3).
Proof.
  intros Hf Henc Hkv Hs Hsc Hopen Hin.
  unfold PublishResult. fold (transmitted value). rewrite Henc.
  unfold Set_, Publish, next_fault. rewrite Hf. cbn [faults subs kv lists log].
  eexists _, _. split; [reflexivity|]. split; [reflexivity|].
  cbn [watch subs wSub]. rewrite list_lookup_fmap, Hs.
  cbn [fmap option_fmap option_map].
  destruct (deliver_same channelName channelName s) as (_ & Hcl & _ & Hd).
  rewrite (Hd (eq_sym Hsc) Hopen), Hin. cbn [app].
  unfold takeItem, Get, next_fault. cbn [faults kv subs lists log].
  rewrite Hkv. reflexivity.
Qed.

Lemma last_cons_default {A : Type} (x : A) (l : list A) :
  last (x :: l) = Some (default x (last l)).
Proof.
  revert x. induction l as [|y l IH]; intros x; [done|].
  change (last (x :: y :: l)) with (last (y :: l)). by rewrite IH.
Qed.

Lemma head_rev_last {A : Type} (l : list A) : head (List.rev l) = last l.
Proof.
  induction l as [|x l IH]; [done|].
  rewrite last_cons_default, <- IH. simpl. by destruct (List.rev l).
Qed.

Lemma RPop_oldest (r : Redis) (key msg : string) (l : list string) :
  faults r = [] -> lists r !! key = Some (msg :: l) ->
  (RPop r key).1 = {| Val := default msg (last l); Err := None |}.
Proof.
  intros Hf Hl. unfold RPop, next_fault. rewrite Hf, Hl.
  change (default [] (Some (msg :: l))) with (msg :: l).
  pose proof (head_rev_last (msg :: l)) as Hh.
  destruct (List.rev (msg :: l)) as [|v rest] eqn:Hrev.
  - apply (f_equal (@length string)) in Hrev.
    rewrite length_rev in Hrev. done.
  - rewrite last_cons_default in Hh. by injection Hh as ->.
Qed.

(** X3.  The queue is first in, first out across [PublishQuery] and
    [DequeueQuery]: after a publish that returned its channel, and with
    no transport failure from then on, a dequeue answers from the oldest
    payload of the list, which is the published job when the list was
    empty; the job comes back with its reply channel [prefix:uuid] when
    the codec decodes what it encoded. *)
Theorem published_job_is_dequeued (a : Adapter) (uuid : string) (query : Query)
    (r0 r1 : Redis) (w : Waiter) (perr : option error) :
  PublishQuery a uuid query r0 = (Some w, perr, r1) ->
  faults r1 = [] ->
  exists msg : string,
    encodeQuery (addressed a uuid query) = inl msg /\
    (DequeueQuery a r1).1 =
      dequeued {| Val := default msg
                           (last (default [] (lists r0 !! DefaultQueueKey)));
                  Err := None |} /\
    (default [] (lists r0 !! DefaultQueueKey) = [] -> msg <> "" ->
     decodeQuery msg = (addressed a uuid query, None) ->
     (DequeueQuery a r1).1 = (addressed a uuid query, None)).
Proof.
  intros Hpub Hf.
  destruct (PublishQuery_queue a uuid query r0 r1 w perr Hpub) as (msg & Henc & Hl).
  exists msg. split; [done|].
  assert (Hd : (DequeueQuery a r1).1 =
               dequeued {| Val := default msg
                                    (last (default [] (lists r0 !! DefaultQueueKey)));
                           Err := None |}).
  { unfold DequeueQuery.
    pose proof (RPop_oldest r1 DefaultQueueKey msg
                  (default [] (lists r0 !! DefaultQueueKey)) Hf) as Hp.
    rewrite Hl, lookup_insert_eq in Hp. specialize (Hp eq_refl).
    destruct (RPop r1 DefaultQueueKey) as [cmd r2]. simpl in *. by subst cmd. }
  split; [done|].
  intros Hempty Hne Hdec. rewrite Hd, Hempty. cbn [last default].
  unfold dequeued. cbn [Val Err]. rewrite bool_decide_eq_false_2 by done.
  unfold DecodeQuery. by rewrite Hdec.
Qed.

(** ** The goroutine, in general *)

Lemma closeSub_closed (r : Redis) (i : nat) :
  (i < length (subs r))%nat ->
  subClosed <$> subs (closeSub r i) !! i = Some true.
Proof.
  intros Hi. destruct (lookup_lt_is_Some_2 (subs r) i Hi) as [s Hs].
  unfold closeSub. cbn [subs]. rewrite list_lookup_alter, Hs.
  by case_decide.
Qed.

Lemma Get_subs (r : Redis) (key : string) : subs (Get r key).2 = subs r.
Proof.
  unfold Get. destruct (next_fault r) as [[e|] fs]; [done|].
  by destruct (kv r !! key) as [[v t]|].
Qed.

(** X4.  Whatever cases its [select]s take, the goroutine sends the
    timeout result some number of times and then at most one more
    result, after which it returns.  Every exit closes the subscription;
    a run that has not left the loop has changed nothing on the server,
    so after the deadline alone the subscription stays open. *)
Theorem watch_sends_and_closes (w : Waiter) (sched : list SelectCase)
    (ans : ConcResult) (r r' : Redis) (out : list ConcResult) (ex : option Exit) :
  watch w sched ans r = (out, ex, r') ->
  exists (n : nat) (last_ : list ConcResult),
    out = replicate n (set_Error ans (Some timeoutError)) ++ last_ /\
    (length last_ <= 1)%nat /\
    (last_ <> [] -> ex = Some Returned) /\
    (ex = None -> last_ = [] /\ r' = r) /\
    (is_Some ex -> (wSub w < length (subs r))%nat ->
     subClosed <$> subs r' !! wSub w = Some true).
Proof.
  revert ans out ex r'. induction sched as [|c sched IH]; intros ans out ex r'.
  { intros [= <- <- <-]. exists 0%nat, [].
    repeat split; try done; simpl; try lia; try by intros [? ?]. }
  destruct c; cbn [watch].
  - destruct (subs r !! wSub w) as [s|] eqn:Hs; cbn [fmap option_fmap option_map].
    2:{ apply IH. }
    destruct (inbox s) as [|payload rest] eqn:Hin.
    + destruct (subClosed s) eqn:Hcl; [|apply IH].
      intros [= <- <- <-]. exists 0%nat, []. repeat split; try done; simpl; try lia.
      intros _ Hi. by apply closeSub_closed.
    + destruct (Get (takeItem r (wSub w)) payload) as [cmd r1] eqn:Hget.
      intros [= <- <- <-]. exists 0%nat. eexists [_].
      repeat split; try done; simpl; try lia.
      intros _ Hi. apply closeSub_closed.
      pose proof (Get_subs (takeItem r (wSub w)) payload) as Hg.
      rewrite Hget in Hg. simpl in Hg. rewrite Hg.
      unfold takeItem. cbn [subs]. by rewrite length_alter.
  - destruct (watch w sched (set_Error ans (Some timeoutError)) r)
      as [[out1 ex1] r1] eqn:Hw.
    intros [= <- <- <-].
    destruct (IH _ _ _ _ Hw) as (n & last_ & -> & Hlen & Hret & Hnone & Hcl).
    exists (S n), last_. rewrite set_Error_set_Error. repeat split; try done.
    + by apply Hnone.
    + by apply Hnone.
  - intros [= <- <- <-]. exists 0%nat, []. repeat split; try done; simpl; try lia.
    intros _ Hi. by apply closeSub_closed.
Qed.

(** ** SomeoneListens *)









(** ** TestConnection *)

Lemma TestConnection_ticks (a : Adapter) (serverInfo : string) (n : nat)
    (sched : list ProbeCase) (r : Redis) (errs : list error)
    (fs : list (option error)) :
  length errs = n -> faults r = (Some <$> errs) ++ fs ->
  exists r' : Redis,
    TestConnection a serverInfo (replicate n caseTick ++ sched) r =
      TestConnection a serverInfo sched r' /\
    faults r' = fs /\ log r' = log r ++ replicate n CmdPing.
Proof.
  revert r errs. induction n as [|n IH]; intros r errs Hlen Hf.
  - destruct errs; [|done]. exists r. by rewrite app_nil_r.
  - destruct errs as [|e errs]; [done|]. csimpl in Hlen. csimpl in Hf.
    cbn [replicate app TestConnection]. unfold Ping, next_fault. rewrite Hf.
    destruct (IH {| lists := lists r; kv := kv r; subs := subs r;
                    faults := (Some <$> errs) ++ fs;
                    log := log r ++ [CmdPing] |} errs) as (r' & Heq & Hf' & Hl');
      [lia | done |].
    exists r'. split; [exact Heq|]. split; [done|].
    rewrite Hl'. cbn [log]. by rewrite <- app_assoc.
Qed.

(** X8.  [TestConnection] keeps trying: it pings at every tick, returns
    nil at the first ping that succeeds, and gives up with its error
    only when the total timeout is over; a failed ping never ends it. *)
Theorem TestConnection_retries (a : Adapter) (serverInfo : string) (n : nat)
    (sched : list ProbeCase) (r : Redis) (errs : list error)
    (fs : list (option error)) :
  length errs = n ->
  (faults r = (Some <$> errs) ++ None :: fs ->
   exists r' : Redis,
     TestConnection a serverInfo (replicate n caseTick ++ caseTick :: sched) r =
       (Some None, r') /\
     log r' = log r ++ replicate (S n) CmdPing) /\
  (faults r = (Some <$> errs) ++ fs ->
   exists r' : Redis,
     TestConnection a serverInfo (replicate n caseTick ++ caseDone :: sched) r =
       (Some (Some (errorString
          ("failed to connect to the Redis server at " +:+ serverInfo))), r') /\
     log r' = log r ++ replicate n CmdPing) /\
  (faults r = (Some <$> errs) ++ fs ->
   (TestConnection a serverInfo (replicate n caseTick) r).1 = None).
Proof.
  intros Hlen. split; [|split]; intros Hf.
  - destruct (TestConnection_ticks a serverInfo n (caseTick :: sched) r errs
                (None :: fs) Hlen Hf) as (r' & -> & Hf' & Hl').
    cbn [TestConnection]. unfold Ping, next_fault. rewrite Hf'.
    eexists. split; [reflexivity|]. cbn [log]. rewrite Hl', <- app_assoc.
    f_equal. change (replicate n CmdPing ++ [CmdPing])
      with (replicate n CmdPing ++ replicate 1 CmdPing).
    rewrite <- replicate_add. f_equal. lia.
  - destruct (TestConnection_ticks a serverInfo n (caseDone :: sched) r errs
                fs Hlen Hf) as (r' & -> & Hf' & Hl').
    cbn [TestConnection]. by exists r'.
  - destruct (TestConnection_ticks a serverInfo n [] r errs fs Hlen Hf)
      as (r' & Heq & _). rewrite app_nil_r in Heq. by rewrite Heq.
Qed.

End Adapter.

#[local] Existing Instance sample.gob.


Lemma PublishResult_hides_failed_store_witness :
  exists r2 r3 : Redis,
    PublishResult adapter0 "mqueryResults:u1" ConcResult_zero redis_failing =
      (transmitted ConcResult_zero, None, r2) /\
    kv r2 = kv redis_failing /\
    watch waiter0 [caseItem] ConcResult_zero r2 =
      ([set_Error ConcResult_zero (Some redisNil)], Some Returned, r3).
Proof.
  apply (PublishResult_hides_failed_store adapter0 "mqueryResults:u1"
           ConcResult_zero ConcResult_zero redis_failing
           (errorString "connection reset") "|" 0%nat
           {| subChannel := "mqueryResults:u1"; inbox := []; subClosed := false |});
    reflexivity.
Defined.

Lemma published_job_is_dequeued_witness :
  exists msg : string,
    encodeQuery (addressed adapter0 "u1" sample.job) = inl msg /\
    (DequeueQuery adapter0 redis1).1 =
      dequeued {| Val := default msg
                           (last (default [] (lists sample.redis0 !! DefaultQueueKey)));
                  Err := None |} /\
    (default [] (lists sample.redis0 !! DefaultQueueKey) = [] -> msg <> "" ->
     decodeQuery msg = (addressed adapter0 "u1" sample.job, None) ->
     (DequeueQuery adapter0 redis1).1 = (addressed adapter0 "u1" sample.job, None)).
Proof.
  apply (published_job_is_dequeued adapter0 "u1" sample.job sample.redis0 redis1
           waiter0 None).
  - vm_compute. reflexivity.
  - reflexivity.
Defined.

Lemma watch_sends_and_closes_witness :
  exists (n : nat) (last_ : list ConcResult),
    [set_Error ConcResult_zero (Some timeoutError)] =
      replicate n (set_Error ConcResult_zero (Some timeoutError)) ++ last_ /\
    (length last_ <= 1)%nat /\
    (last_ <> [] -> @None Exit = Some Returned) /\
    (@None Exit = None -> last_ = [] /\ redis1 = redis1) /\
    (is_Some (@None Exit) -> (wSub waiter0 < length (subs redis1))%nat ->
     subClosed <$> subs redis1 !! wSub waiter0 = Some true).
Proof.
  apply (watch_sends_and_closes waiter0 [caseCtx3Done] ConcResult_zero redis1 redis1).
  vm_compute. reflexivity.
Defined.




Lemma TestConnection_retries_witness :
  exists r' : Redis,
    TestConnection adapter0 "localhost:6379"
      (replicate 1 caseTick ++ [caseTick]) redis_restarting = (Some None, r') /\
    log r' = log redis_restarting ++ replicate 2 CmdPing.
Proof.
  apply (proj1 (TestConnection_retries adapter0 "localhost:6379" 1 []
                  redis_restarting [errorString "connection refused"] [] eq_refl)).
  reflexivity.
Defined.

(** ** NewAdapter *)

(** X9.  The answer timeout of a new adapter is never zero: zero
    seconds in the configuration give the default of 60 s, and a
    positive number of seconds below the overflow of the 64 bit
    multiplication gives that many seconds. *)
Theorem NewAdapter_timeout (conf : Conf) :
  queryAnswerTimeout (NewAdapter conf) <> 0%Z /\
  (QueryAnswerTimeoutSecs conf = 0%Z ->
   queryAnswerTimeout (NewAdapter conf) = DefaultQueryAnswerTimeout) /\
  ((0 < QueryAnswerTimeoutSecs conf <= 9223372036)%Z ->
   queryAnswerTimeout (NewAdapter conf) = (QueryAnswerTimeoutSecs conf * Second)%Z).
Proof.
  unfold NewAdapter. cbn [queryAnswerTimeout].
  split; [|split].
  - case_bool_decide; [done|]. done.
  - intros ->. reflexivity.
  - intros Hs. unfold wrap64, Second.
    rewrite bool_decide_eq_false_2.
    + rewrite Z.mod_small; lia.
    + rewrite Z.mod_small; lia.
Qed.

Lemma NewAdapter_timeout_witness :
  queryAnswerTimeout (NewAdapter sample.conf) = DefaultQueryAnswerTimeout.
Proof. exact (proj1 (proj2 (NewAdapter_timeout sample.conf)) eq_refl). Defined.

End rdb_more_facts.

(* ================================================================== *)
(** * More properties of the translator *)
(* ================================================================== *)
Module basic_more_facts.
Import basic basic_inv basic_facts basic_more.

Lemma skip_spaces_head (s : string) (c : ascii) (rest : string) :
  skip_spaces s = String c rest -> isSpace c = false.
Proof.
  induction s as [|d s IH]; simpl; [done|].
  destruct (isSpace d) eqn:Hd; [done|]. by intros [= <- <-].
Qed.

Lemma Lex_codes (t : basicTransformer) (lval : yySymType) :
  (yylex1 t lval).1.1 ∈ token_codes.
Proof.
  unfold yylex1, Lex.
  destruct (skip_spaces (input t)) as [|c rest] eqn:Hinp.
  { simpl. apply list_elem_of_here. }
  destruct (first_match tokens (String c rest)) as [[str tok]|] eqn:Hm.
  - apply first_match_tokens in Hm as (_ & _ & Htok).
    unfold keyword_codes in Htok.
    rewrite !elem_of_cons, elem_of_nil in Htok.
    destruct Htok as [->|[->|[->|[->|[->|[]]]]]]; cbn; unfold token_codes;
      repeat first [apply list_elem_of_here | apply list_elem_of_further].
  - apply first_match_none in Hm. apply skip_spaces_head in Hinp.
    unfold blank_codes in Hm. unfold isSpace in Hinp.
    rewrite !elem_of_cons, elem_of_nil in Hm. cbn [fst].
    destruct Hm as [Hm|[Hm|[Hm|[Hm|[Hm|[]]]]]]; rewrite Hm in *;
      try discriminate Hinp; cbn; unfold token_codes;
      repeat first [apply list_elem_of_here | apply list_elem_of_further].
Qed.

Lemma Lex_defaultAttr (t : basicTransformer) (lval : yySymType) :
  defaultAttr (yylex1 t lval).1.2 = defaultAttr t.
Proof.
  unfold yylex1, Lex. destruct (skip_spaces (input t)); [done|].
  destruct (first_match tokens _) as [[str tok]|]; [|done].
  by case_bool_decide.
Qed.

Lemma yyread_tree (v : yyVars) :
  Inv v -> Inv_tree v ->
  Inv_tree (yyread v) /\ yychar (yyread v) ∈ token_codes.
Proof.
  intros Hinv [Hent Hattr Htok Hacc]. unfold yyread.
  case_bool_decide as Hneg.
  { pose proof (Lex_codes (yylex v) (set_yys (yylval v) (yystate v))) as Hc.
    pose proof (Lex_defaultAttr (yylex v) (set_yys (yylval v) (yystate v))) as Ha.
    destruct (yylex1 (yylex v) (set_yys (yylval v) (yystate v))) as [[n t'] lval'].
    simpl in Hc, Ha. split; [|done].
    constructor; simpl; [done | by rewrite Ha | by right |].
    intros Hst. destruct (Hacc Hst) as [Heof _]. rewrite Heof in Hneg. done. }
  destruct Htok as [?|Hc]; [lia|]. split; [|done]. by constructor; [| |right|].
Qed.

Lemma token_codes_lex (c : Z) : c ∈ token_codes -> c ∈ lex_codes.
Proof.
  unfold token_codes, lex_codes, keyword_codes, blank_codes. simpl.
  rewrite !elem_of_cons, !elem_of_nil. tauto.
Qed.

Ltac in_list :=
  solve [repeat first [apply list_elem_of_here | apply list_elem_of_further]].

Ltac not_in_list :=
  let Hin := fresh in
  unfold paren_states, node_states;
  intros Hin; rewrite !elem_of_cons, elem_of_nil in Hin;
  cbn [yys set_yys] in Hin; lia.

(** Use what is known of a stack entry: its state is not one of a
    parenthesis, and its node is well formed when it holds one. *)
Ltac use_entry He :=
  let Hp := fresh "Hp" in let Hw := fresh "Hw" in
  destruct He as [Hp Hw]; cbn [yys Node] in Hp, Hw;
  first [ exfalso; apply Hp; unfold paren_states; in_list
        | first [ specialize (Hw ltac:(unfold node_states; in_list))
                | clear Hw ] ].

Ltac pop_entry Hent :=
  let He := fresh "He" in let Hfull := fresh "Hfull" in
  pose proof Hent as Hfull;
  apply Forall_cons in Hent as [He Hent]; use_entry He.

Ltac pop_tree Hchain Hent below :=
  match type of Hchain with
  | chain (?a :: _) => pop_state Hchain below a; pop_entry Hent
  end.

Lemma yymessage_unexpected (v : yyVars) :
  (yychar v > 0)%Z -> yySymName (yychar v) <> "" ->
  yymessage v = "unexpected " +:+ yySymName (yychar v).
Proof.
  intros Hc Hn. unfold yymessage, yyXErrors, yyTokenLiteralStrings.
  rewrite (bool_decide_eq_true_2 (yychar v > 0)%Z) by done.
  rewrite (bool_decide_eq_true_2 ("" = "")) by done.
  rewrite (bool_decide_eq_true_2 (yySymName (yychar v) <> "")) by done.
  by destruct (bool_decide (yyshift v <> 0%Z)).
Qed.

Lemma yynewstate_tree (v : yyVars) :
  Inv v -> Inv_tree v -> yychar v ∈ token_codes -> step_tree (yynewstate v).
Proof.
  intros [Herr Hflag Htop Hchain Htok] [Hent Hattr _ Hacc] Hc.
  pose proof (lex_codes_pos _ (token_codes_lex _ Hc)) as Hpos.
  unfold yynewstate. rewrite yyread_pending by lia.
  destruct Htok as [?|(_ & Hx & Heof)]; [lia|].
  destruct v as [lex stack above lval VAL nerrs eflag st ch xch shift].
  simpl in *. subst eflag xch.
  destruct stack as [|[s str nd] below]; [done|].
  simpl in Htop. injection Htop as ->.
  pose proof (chain_states _ Hchain) as Hall.
  cbn [fmap list_fmap yys] in Hall, Hchain.
  pose proof (Forall_inv Hall) as Hst. simpl in Hst.
  apply state_in_all in Hst. unfold all_states in Hst.
  unfold token_codes in Hc.
  pose proof Hent as Hstack.
  apply Forall_cons in Hent as [He Hent].
  enum_in Hst; enum_in Hc.
  all: use_entry He.
  all: table_lookup.
  all: unfold step_tree.
  (* a syntax error *)
  all: try (unfold yyresume; cbn [yyS yyAbove];
            rewrite yyrecover_NoHit by exact Hall; right; split; [done|];
            match goal with
            | |- context [yymessage ?v] =>
                let c := eval cbn in (yychar v) in exists c
            end;
            split; [unfold token_codes; in_list
                   | rewrite yymessage_unexpected by (cbn; done);
                     simpl; rewrite Herr; reflexivity]).
  (* accept *)
  all: try (left; split; [done|];
            destruct (Hacc eq_refl) as [Hch Hn];
            first [ discriminate Hch
                  | split; [exact (Heof eq_refl) | split; [exact Hattr | exact Hn]] ]).
  (* shift *)
  all: try (constructor; simpl;
            [ constructor; [split; [not_in_list | intros Hin; exfalso; revert Hin; not_in_list] | exact Hstack]
            | exact Hattr
            | left; lia
            | intros; discriminate ]).
  (* reduce *)
  all: match goal with
       | |- context [yyreduce _ (-1)] => pop_tree Hchain Hent below
       | |- context [yyreduce _ (-2)] => pop_tree Hchain Hent below
       | |- context [yyreduce _ (-4)] =>
           pop_tree Hchain Hent below; pop_tree Hchain Hent below
       | |- context [yyreduce _ _] =>
           pop_tree Hchain Hent below; pop_tree Hchain Hent below;
           pop_tree Hchain Hent below
       end.
  all: unfold yyreduce.
  all: repeat match goal with
       | |- context [yyReductions ?r] =>
           let p := eval vm_compute in (yyReductions r) in
           change (yyReductions r) with p
       end; cbv iota beta.
  all: repeat match goal with
       | |- context [Z.to_nat ?r] =>
           let p := eval vm_compute in (Z.to_nat r) in
           change (Z.to_nat r) with p
       end; cbv iota beta.
  all: cbn [yyS yyAbove drop take reverse length].
  all: rewrite bool_decide_eq_false_2 by lia.
  all: cbn [yys yylex yylval Nerrs Errflag yychar yyxchar yyshift].
  all: repeat match goal with
       | |- context [index ?l ?k] =>
           let p := eval vm_compute in (index l k) in
           change (index l k) with p
       end; cbv iota beta.
  all: unfold yyactions; decide_closed; cbv iota beta.
  all: cbn.
  all: repeat match goal with
       | |- context [index ?l ?k] =>
           let p := eval vm_compute in (index l k) in
           change (index l k) with p
       end; cbv iota beta.
  all: repeat match goal with
       | |- context [(?e + yyTabOfs)%Z] =>
           let p := eval vm_compute in (e + yyTabOfs)%Z in
           change (e + yyTabOfs)%Z with p
       end.
  all: (constructor; simpl;
        [ constructor;
          [ split; [not_in_list | intros _; cbn [well_formed Node set_yys set_Node];
                    repeat match goal with
                    | H : well_formed _ = true |- _ => rewrite H; clear H
                    end; try reflexivity]
          | assumption ]
        | exact Hattr
        | right; unfold token_codes; in_list
        | intros Hst; first [discriminate Hst | split; [reflexivity|]; eexists; split; [reflexivity|done] ] ]).
Qed.

Lemma yynewstate_both (v : yyVars) :
  Inv v -> Inv_tree v ->
  match yynewstate v with
  | Goto_yynewstate v' => Inv v' /\ Inv_tree v' /\ (measure v' < measure v)%nat
  | Return code t =>
      (code = 0%Z /\ errors t = [] /\ input t = "" /\ defaultAttr t = "" /\
       exists n : node, parseResult t = rootNode n /\ well_formed n = true) \/
      (code = 1%Z /\
       exists c : Z, c ∈ token_codes /\
         errors t = [rdb.errorString ("unexpected " +:+ yySymName c)])
  | Panics => False
  end.
Proof.
  intros Hinv Htree.
  pose proof (yynewstate_ok v Hinv) as Hok.
  destruct (yyread_Inv v Hinv) as (Hinv' & Hc & _).
  destruct (yyread_tree v Hinv Htree) as [Htree' Hc'].
  pose proof (yynewstate_tree (yyread v) Hinv' Htree' Hc') as Hstep.
  assert (Heq : yynewstate (yyread v) = yynewstate v).
  { unfold yynewstate. rewrite (yyread_pending (yyread v)); [done|].
    apply lex_codes_pos in Hc. lia. }
  rewrite Heq in Hstep. unfold step_ok, step_tree in *.
  destruct (yynewstate v) as [v'|code t|]; [|clear Hinv Htree Hinv' Htree'|done].
  - destruct Hok as [? ?]. done.
  - destruct Hstep as [(-> & Hi & Ha & Hn) | (-> & Hm)].
    + left. destruct Hok as [[_ He] | [[=] _]]. done.
    + right. done.
Qed.

Lemma yyloop_tree (fuel : nat) (v : yyVars) :
  Inv v -> Inv_tree v -> (measure v < fuel)%nat ->
  exists (code : Z) (t : basicTransformer),
    yyloop fuel v = Ok (code, t) /\
    ((code = 0%Z /\ errors t = [] /\ input t = "" /\ defaultAttr t = "" /\
      exists n : node, parseResult t = rootNode n /\ well_formed n = true) \/
     (code = 1%Z /\
      exists c : Z, c ∈ token_codes /\
        errors t = [rdb.errorString ("unexpected " +:+ yySymName c)])).
Proof.
  revert v. induction fuel as [|fuel IH]; intros v Hinv Htree Hm; [lia|].
  simpl. pose proof (yynewstate_both v Hinv Htree) as Hstep.
  destruct (yynewstate v) as [v'|code t|]; [|by exists code, t|done].
  destruct Hstep as (Hinv' & Htree' & Hlt). apply IH; [done | done | lia].
Qed.

Lemma syntax_errors_codes (c : Z) :
  c ∈ token_codes -> "unexpected " +:+ yySymName c ∈ syntax_errors.
Proof.
  unfold token_codes. intros Hc. enum_in Hc; vm_compute; in_list.
Qed.

(** What [NewBasicTransformer] gives, on every query. *)
Lemma NewBasicTransformer_cases (query attr : string) :
  (exists (t : basicTransformer) (n : node),
     NewBasicTransformer query attr = Ok (Some t, None) /\
     errors t = [] /\ input t = "" /\ defaultAttr t = "" /\
     parseResult t = rootNode n /\ well_formed n = true) \/
  (exists msg : string,
     NewBasicTransformer query attr = Ok (None, Some (rdb.errorString msg)) /\
     msg ∈ syntax_errors).
Proof.
  assert (Hinv : Inv (yystack (yyinit (fresh query)))).
  { constructor; simpl; try done. by left. }
  assert (Htree : Inv_tree (yystack (yyinit (fresh query)))).
  { constructor; simpl; try done; [|by left].
    constructor; [|done]. split; [not_in_list|].
    intros Hin. exfalso. revert Hin. not_in_list. }
  assert (Hm : (measure (yystack (yyinit (fresh query))) < yyfuel (fresh query))%nat).
  { unfold measure, pending, yyfuel.
    cbn [yystack yyinit yylex yyS yystate yychar length].
    decide_closed. cbn [andb]. change (rank 0) with 0%nat. lia. }
  destruct (yyloop_tree _ _ Hinv Htree Hm) as (code & t & Hrun & Hres).
  unfold NewBasicTransformer. fold (fresh query). unfold yyParse. rewrite Hrun.
  destruct Hres as [(-> & He & Hi & Ha & n & Hn & Hw) | (-> & c & Hc & He)].
  - left. exists t, n. by rewrite He.
  - right. exists ("unexpected " +:+ yySymName c). rewrite He.
    split; [done|]. by apply syntax_errors_codes.
Qed.

(** X10.  A query that [NewBasicTransformer] accepts has been read to its
    end, and its parse result is the root of a tree of terms under NOT,
    AND, OR and PROX: no nil node, no parentheses.  The transformer has
    no error, and its default attribute is empty whatever attribute was
    passed. *)
Theorem NewBasicTransformer_accepts_tree
    (query attr : string) (t : basicTransformer) (err : option error) :
  NewBasicTransformer query attr = Ok (Some t, err) ->
  err = None /\ errors t = [] /\ input t = "" /\ defaultAttr t = "" /\
  exists n : node, parseResult t = rootNode n /\ well_formed n = true.
Proof.
  intros Hnew.
  destruct (NewBasicTransformer_cases query attr)
    as [(t' & n & Heq & He & Hi & Ha & Hn & Hw) | (msg & Heq & _)];
    rewrite Heq in Hnew; [|done].
  injection Hnew as <- <-. repeat split; try done. by exists n.
Qed.

Lemma NewBasicTransformer_accepts_tree_witness :
  exists n : node,
    parseResult {| input := ""; parseResult := rootNode (unaryNode "NOT" (termNode "a"));
                   defaultAttr := ""; errors := [] |} = rootNode n /\
    well_formed n = true.
Proof.
  refine (proj2 (proj2 (proj2 (proj2
    (NewBasicTransformer_accepts_tree "NOT a" "word" _ None _))))).
  vm_compute. reflexivity.
Defined.

(** X11.  A query that [NewBasicTransformer] refuses is refused with one
    of eight messages: the word [unexpected] and the name of the token
    the parser could not take, the end of the query, a keyword, a term,
    or a form feed or carriage return, which [Lex] gives as they are. *)
Theorem NewBasicTransformer_refuses_with
    (query attr : string) (e : error) :
  NewBasicTransformer query attr = Ok (None, Some e) ->
  exists msg : string, e = rdb.errorString msg /\ msg ∈ syntax_errors.
Proof.
  intros Hnew.
  destruct (NewBasicTransformer_cases query attr)
    as [(t' & n & Heq & _) | (msg & Heq & Hmsg)];
    rewrite Heq in Hnew; [done|].
  injection Hnew as <-. by exists msg.
Qed.

Lemma NewBasicTransformer_refuses_with_witness :
  exists msg : string,
    rdb.errorString "unexpected AND" = rdb.errorString msg /\ msg ∈ syntax_errors.
Proof.
  apply (NewBasicTransformer_refuses_with "a AND AND b" "word").
  vm_compute. reflexivity.
Defined.

End basic_more_facts.

(* ================================================================== *)
(** * The tokens of the lexer *)
(* ================================================================== *)
Module basic_lex_facts.
Import basic basic_inv basic_facts basic_more basic_more_facts.

Lemma find_upto_last_quote_line (s : string) :
  Forall (fun c => byte c <> 10%Z) (list_ascii_of_string s) ->
  find_upto_last_quote (s +:+ String quote "") = Some s.
Proof.
  induction s as [|c s IH]; intros Hs; [done|].
  apply Forall_cons in Hs as [Hc Hs]. simpl.
  unfold is_dot. rewrite (bool_decide_eq_false_2 _ Hc). simpl.
  by rewrite (IH Hs).
Qed.

Lemma drop_string_all (s : string) : drop_string (String.length s) s = "".
Proof. induction s; [done|]. simpl. done. Qed.

Lemma prefix_append (kw rest : string) : String.prefix kw (kw +:+ rest) = true.
Proof.
  induction kw as [|c kw IH]; [by destruct rest|]. simpl.
  by destruct (ascii_dec c c).
Qed.

Lemma find_literal_prefix (kw rest : string) : find_literal kw (kw +:+ rest) = kw.
Proof. unfold find_literal. by rewrite prefix_append. Qed.

Lemma find_literal_other (c d : ascii) (kw s : string) :
  c <> d -> find_literal (String c kw) (String d s) = "".
Proof.
  intros Hcd. unfold find_literal. simpl. by destruct (ascii_dec c d).
Qed.

Lemma drop_string_append (kw rest : string) :
  drop_string (String.length kw) (kw +:+ rest) = rest.
Proof. induction kw as [|c kw IH]; [simpl; by destruct rest | exact IH]. Qed.

Lemma first_match_keyword (kw rest : string) (tok : Z) :
  (kw, tok) ∈ keywords ->
  first_match tokens (kw +:+ rest) = Some (kw, tok).
Proof.
  intros Hk. unfold keywords in Hk.
  enum_in Hk; simplify_eq; unfold tokens; cbn [first_match regex token];
    rewrite find_literal_prefix; cbn [String.append];
    repeat rewrite find_literal_other by done;
    decide_closed; reflexivity.
Qed.

Lemma Lex_keyword_prefix (t : basicTransformer) (lval : yySymType)
    (kw rest : string) (tok : Z) :
  (kw, tok) ∈ keywords ->
  input t = kw +:+ rest ->
  Lex t lval = (tok, set_input t rest, set_String lval kw).
Proof.
  intros Hk Hin. unfold keywords in Hk. unfold Lex. rewrite Hin.
  assert (Hskip : skip_spaces (kw +:+ rest) = kw +:+ rest).
  { enum_in Hk; by simplify_eq. }
  assert (Htok : tok <> TERM) by (enum_in Hk; by simplify_eq).
  assert (Hne : exists c r, kw +:+ rest = String c r).
  { enum_in Hk; simplify_eq; by eexists _, _. }
  rewrite Hskip. destruct Hne as (c & r & Hne). rewrite Hne at 1.
  rewrite (first_match_keyword kw rest tok) by done.
  rewrite (bool_decide_eq_false_2 _ Htok). by rewrite drop_string_append.
Qed.

(** The first turn of the parser: a query cannot begin with the end or
    with the keyword of a binary operator. *)
Lemma yyParse_first_token (t t' : basicTransformer) (c : Z) (lval' : yySymType) :
  yylex1 t (set_yys yySymType_zero 0) = (c, t', lval') ->
  c ∈ [yyEofCode; AND; OR; PROX] ->
  yyParse t = Ok (1%Z, Error t' ("unexpected " +:+ yySymName c)).
Proof.
  intros Hlex Hc. unfold yyParse, yyfuel.
  replace (6 * String.length (input t) + 8)%nat
    with (S (6 * String.length (input t) + 7)) by lia.
  cbn [yyloop]. unfold yynewstate, yyread.
  cbn [yystack yyinit yychar yylval yystate yylex yyS yyAbove yyVAL Nerrs
       Errflag yyxchar yyshift tail].
  rewrite (bool_decide_eq_true_2 (-1 < 0)%Z) by lia.
  rewrite Hlex.
  enum_in Hc; cbn [yychar yylval yystate yylex yyS yyAbove yyVAL Nerrs
                   Errflag yyxchar yyshift].
  all: table_lookup.
  all: rewrite yymessage_unexpected by (cbn; done).
  all: unfold yyresume; cbn [yyS yyAbove yylex yychar].
  all: by change (yyrecover [set_yys yySymType_zero 0] []) with NoHit.
Qed.

Lemma NewBasicTransformer_first_token (query attr : string) (t' : basicTransformer)
    (c : Z) (lval' : yySymType) :
  yylex1 (fresh query) (set_yys yySymType_zero 0) = (c, t', lval') ->
  c ∈ [yyEofCode; AND; OR; PROX] ->
  NewBasicTransformer query attr =
    Ok (None, Some (rdb.errorString ("unexpected " +:+ yySymName c))).
Proof.
  intros Hlex Hc. unfold NewBasicTransformer. fold (fresh query).
  rewrite (yyParse_first_token _ _ _ _ Hlex Hc).
  assert (He : errors t' = []).
  { pose proof (Lex_spec (fresh query) (set_yys yySymType_zero 0)) as Hs.
    unfold yylex1 in Hlex.
    destruct (Lex (fresh query) (set_yys yySymType_zero 0)) as [[n t0] l0].
    destruct Hs as (Hs & _). by simplify_eq. }
  unfold Error, AddError. cbn [errors]. by rewrite He.
Qed.

(** X12.  A query of blanks only, or the empty query, is refused with
    [unexpected $end]. *)
Theorem NewBasicTransformer_blank_query (query attr : string) :
  skip_spaces query = "" ->
  NewBasicTransformer query attr =
    Ok (None, Some (rdb.errorString "unexpected $end")).
Proof.
  intros Hblank.
  apply (NewBasicTransformer_first_token query attr (set_input (fresh query) "")
           yyEofCode (set_yys yySymType_zero 0)); [|in_list].
  unfold yylex1, Lex. cbn [input fresh]. by rewrite Hblank.
Qed.

Lemma NewBasicTransformer_blank_query_witness :
  NewBasicTransformer "  " "word" =
    Ok (None, Some (rdb.errorString "unexpected $end")).
Proof. apply NewBasicTransformer_blank_query. reflexivity. Defined.

(** X13.  A keyword is taken from the front of the input whatever
    follows it: [Lex] asks for no blank after it, so a word that begins
    with NOT, AND, OR or PROX is split. *)
Theorem Lex_splits_keyword (t : basicTransformer) (lval : yySymType)
    (kw rest : string) (tok : Z) :
  (kw, tok) ∈ keywords ->
  input t = kw +:+ rest ->
  Lex t lval = (tok, set_input t rest, set_String lval kw).
Proof. apply Lex_keyword_prefix. Qed.

Lemma Lex_splits_keyword_witness :
  Lex (fresh "ORANGE") yySymType_zero =
    (OR, set_input (fresh "ORANGE") "ANGE", set_String yySymType_zero "OR").
Proof.
  apply (Lex_splits_keyword (fresh "ORANGE") yySymType_zero "OR" "ANGE" OR).
  - unfold keywords. in_list.
  - reflexivity.
Defined.

(** X14.  A query that begins with AND, OR or PROX is refused, also
    when the keyword is the beginning of a longer word. *)
Theorem NewBasicTransformer_leading_operator (kw rest attr : string) :
  kw ∈ ["AND"; "OR"; "PROX"] ->
  NewBasicTransformer (kw +:+ rest) attr =
    Ok (None, Some (rdb.errorString ("unexpected " +:+ kw))).
Proof.
  intros Hk.
  assert (Htok : exists tok : Z,
            (kw, tok) ∈ keywords /\ tok ∈ [yyEofCode; AND; OR; PROX] /\
            yySymName tok = kw).
  { enum_in Hk; eexists; (split; [unfold keywords; in_list|]);
      (split; [in_list | reflexivity]). }
  destruct Htok as (tok & Hkw & Htok & Hname).
  pose proof (NewBasicTransformer_first_token (kw +:+ rest) attr
           (set_input (fresh (kw +:+ rest)) rest) tok
           (set_String (set_yys yySymType_zero 0) kw)) as Hres.
  rewrite Hname in Hres. apply Hres; [|done].
  unfold yylex1.
  rewrite (Lex_keyword_prefix (fresh (kw +:+ rest)) _ kw rest tok Hkw eq_refl).
  rewrite bool_decide_eq_false_2; [done|].
  enum_in Htok; unfold yyEofCode, AND, OR, PROX; lia.
Qed.

Lemma NewBasicTransformer_leading_operator_witness :
  NewBasicTransformer "ORANGE juice" "word" =
    Ok (None, Some (rdb.errorString "unexpected OR")).
Proof.
  apply (NewBasicTransformer_leading_operator "OR" "ANGE juice" "word"). in_list.
Defined.

(** X15.  A quoted phrase runs to the last double quote of the line, not
    to the next one: of an input of one line that begins and ends with a
    double quote, [Lex] makes a single TERM, whatever quotes lie between,
    and leaves nothing to read. *)
Theorem Lex_quoted_to_last_quote (t : basicTransformer) (lval : yySymType) (s : string) :
  Forall (fun c => byte c <> 10%Z) (list_ascii_of_string s) ->
  input t = String quote (s +:+ String quote "") ->
  Lex t lval =
    (TERM, set_input t "",
     set_String lval (Trim_quotes (String quote (s +:+ String quote "")))).
Proof.
  intros Hs Hin. unfold Lex. rewrite Hin.
  change (skip_spaces (String quote ?r)) with (String quote r).
  cbv beta iota.
  assert (Hm : first_match tokens (String quote (s +:+ String quote "")) =
               Some (String quote (s +:+ String quote ""), TERM)).
  { unfold tokens, first_match. cbn [regex token].
    change (find_literal ?k (String quote ?r)) with "".
    repeat rewrite (bool_decide_eq_true_2 ("" = "")) by done.
    unfold find_quoted. rewrite (bool_decide_eq_true_2 (byte quote = 34%Z)) by done.
    rewrite (find_upto_last_quote_line s Hs).
    by rewrite bool_decide_eq_false_2 by done. }
  rewrite Hm. rewrite (bool_decide_eq_true_2 (TERM = TERM)) by done.
  by rewrite drop_string_all.
Qed.

Lemma Lex_quoted_to_last_quote_witness :
  Lex (fresh two_phrases) yySymType_zero =
    (TERM, set_input (fresh two_phrases) "",
     set_String yySymType_zero ("a" +:+ String quote (" OR " +:+ String quote "b"))).
Proof.
  apply (Lex_quoted_to_last_quote (fresh two_phrases) yySymType_zero
           ("a" +:+ String quote (" OR " +:+ String quote "b"))).
  - repeat constructor; vm_compute; discriminate.
  - reflexivity.
Defined.

End basic_lex_facts.

(* ================================================================== *)
(** * More properties of the handlers *)
(* ================================================================== *)
Module fcs_more_facts.
Import fcs fcs_inv fcs_facts fcs_more.

(** ** The three strings of a row *)

Lemma append_assoc (a b c : string) : (a +:+ b) +:+ c = a +:+ b +:+ c.
Proof.
  induction a as [|x a IH]; [done|].
  change (String x ((a +:+ b) +:+ c) = String x (a +:+ b +:+ c)). by rewrite IH.
Qed.

Lemma append_empty (a : string) : a +:+ "" = a.
Proof.
  induction a as [|x a IH]; [done|].
  change (String x (a +:+ "") = String x a). by rewrite IH.
Qed.

Lemma kwic_split_hit (text : list Token) (left' kwic right' : string) :
  handler.kwic_split text true left' kwic right' =
    (left', kwic +:+ words (hits text), right' +:+ words (others text)).
Proof.
  revert kwic right'. induction text as [|t text IH]; intros kwic right'.
  { simpl. by rewrite !append_empty. }
  unfold hits, others in *. simpl. destruct (Strong t) eqn:Hs.
  - rewrite IH. rewrite filter_cons_True by done.
    rewrite filter_cons_False by (by rewrite Hs).
    simpl. by rewrite !append_assoc.
  - rewrite IH. rewrite filter_cons_False by (by rewrite Hs).
    rewrite filter_cons_True by done.
    simpl. by rewrite !append_assoc.
Qed.

Lemma kwic_split_words (text : list Token) (left' kwic right' : string) :
  handler.kwic_split text false left' kwic right' =
    (left' +:+ words (before_hit text),
     kwic +:+ words (hits (from_hit text)),
     right' +:+ words (others (from_hit text))).
Proof.
  revert left'. induction text as [|t text IH]; intros left'.
  { simpl. by rewrite !append_empty. }
  simpl. destruct (Strong t) eqn:Hs.
  - pose proof (kwic_split_hit (t :: text) left' kwic right') as Hh.
    simpl in Hh. rewrite Hs in Hh. rewrite Hh. by rewrite append_empty.
  - rewrite IH. simpl. by rewrite !append_assoc.
Qed.

Lemma hits_from_hit (text : list Token) : hits (from_hit text) = hits text.
Proof.
  induction text as [|t text IH]; [done|]. simpl.
  destruct (Strong t) eqn:Hs; [done|].
  unfold hits in *. by rewrite filter_cons_False by (by rewrite Hs).
Qed.

(** X16.  The three strings of a row, by the words they hold: [Left] has
    the words before the first hit, [KWIC] the words of every hit of the
    line, adjacent or not, and [Right] every other word from the first
    hit on, so a word between two hits is moved behind them.  The words
    keep their order and each is followed by a blank before the
    trimming. *)
Theorem row_words `{Env} (position : Z) (pid : string) (l : ConcordanceLine) :
  handler.row position pid l =
    {| handler.Position := position;
       handler.PID := pid;
       handler.Left := TrimSpace (words (before_hit (Text l)));
       handler.KWIC := TrimSpace (words (hits (Text l)));
       handler.Right := TrimSpace (words (others (from_hit (Text l))));
       handler.Web := "TODO";
       handler.Ref := "TODO" |}.
Proof.
  unfold handler.row. rewrite kwic_split_words. by rewrite hits_from_hit.
Qed.

(** ** All or nothing *)

Section Handler.
Context `{Env}.
Import handler.

Lemma publish_failed (a : Actions) (query : string) (resp early : FCSResponse)
    (i : nat) (corpora : list string) (code : Z) :
  publish a query resp i corpora = inl (code, early) ->
  failed_handler resp code early.
Proof.
  revert i. induction corpora as [|c corpora IH]; intros i; simpl; [done|].
  unfold general_error.
  repeat case_match; try done; try (intros [= ? ?]; subst; right; split; [done|]; by eexists).
  intros [= ->]. eauto.
Qed.

Lemma gather_failed (resp early : FCSResponse) (i : nat) (waits : list Query_)
    (code : Z) :
  gather resp i waits = inl (code, early) -> failed_handler resp code early.
Proof.
  revert i. induction waits as [|w waits IH]; intros i; simpl; [done|].
  unfold general_error.
  repeat case_match; try done; try (intros [= ? ?]; subst; right; split; [done|]; by eexists).
  intros [= ->]. eauto.
Qed.

Lemma searchable_failed (a : Actions) (q : Values) (resp early : FCSResponse)
    (code : Z) :
  searchable a q resp = inl (code, early) -> failed_handler resp code early.
Proof.
  unfold searchable. repeat case_match; try done.
  intros [= ? ?]; subst. left. split; [done|]. by eexists.
Qed.

Lemma searchRetrieve_cases (a : Actions) (q : Values) (fcsResponse : FCSResponse) :
  (exists rows : list FCSSearchRow,
     searchRetrieve a q fcsResponse = (StatusOK, set_Results fcsResponse rows)) \/
  (exists (code : Z) (early : FCSResponse),
     searchRetrieve a q fcsResponse = (code, early) /\
     failed_handler fcsResponse code early).
Proof.
  unfold searchRetrieve.
  destruct (unsupported a q) as [key|].
  { right. eexists _, _. split; [done|]. left. split; [done|]. by eexists. }
  case_bool_decide.
  { right. eexists _, _. split; [done|]. left. split; [done|]. by eexists. }
  destruct (transformFCSQuery (Query q "query")) as [query [err|]].
  { right. eexists _, _. split; [done|]. right. split; [done|]. by eexists. }
  destruct (searchable a q fcsResponse) as [[c early]|corpora] eqn:Hsel.
  { right. exists c, early. split; [done|]. by apply searchable_failed in Hsel. }
  destruct (publish a query fcsResponse 0 corpora) as [[c early]|jobs] eqn:Hpub.
  { right. exists c, early. split; [done|]. by apply publish_failed in Hpub. }
  destruct (gather fcsResponse 0 jobs) as [[c early]|results] eqn:Hres.
  { right. exists c, early. split; [done|]. by apply gather_failed in Hres. }
  left. by eexists.
Qed.

(** X17.  Package handler, [searchRetrieve]: all or nothing.  Either
    the status is 200 and the response is the given one with new rows,
    or the status is 400 or 500 and the response is the given one with
    one diagnostic: a failed request leaves the rows as they were, a
    served one leaves the diagnostic as it was. *)
Theorem searchRetrieve_all_or_nothing (a : Actions) (q : Values)
    (fcsResponse : FCSResponse) :
  (exists rows : list FCSSearchRow,
     searchRetrieve a q fcsResponse = (StatusOK, set_Results fcsResponse rows)) \/
  (exists (code : Z) (early : FCSResponse),
     searchRetrieve a q fcsResponse = (code, early) /\
     failed_handler fcsResponse code early).
Proof. apply searchRetrieve_cases. Qed.

End Handler.

Section V12.
Context `{Env}.
Import v12.

Lemma listed_failed_v12 (a : FCSSubHandlerV12) (resp early : FCSResponse)
    (names corpora searchAttrs : list string) (code : Z) :
  listed a resp names corpora searchAttrs = inl (code, early) ->
  failed_v12 resp code early.
Proof.
  revert corpora searchAttrs.
  induction names as [|v names IH]; intros corpora searchAttrs; simpl; [done|].
  case_match; [by eauto|].
  intros [= ? ?]; subst. left. split; [done|]. by eexists.
Qed.

Lemma searchable_failed_v12 (a : FCSSubHandlerV12) (q : Values)
    (resp early : FCSResponse) (code : Z) :
  searchable a q resp = inl (code, early) -> failed_v12 resp code early.
Proof. unfold searchable. case_match; [apply listed_failed_v12 | done]. Qed.

Lemma publish_failed_v12 (a : FCSSubHandlerV12) (transformer : Transformer)
    (resp early : FCSResponse) (i : nat) (corpora searchAttrs : list string)
    (code : Z) :
  publish a transformer resp i corpora searchAttrs = inl (code, early) ->
  failed_v12 resp code early.
Proof.
  revert i searchAttrs.
  induction corpora as [|c corpora IH]; intros i searchAttrs; simpl; [done|].
  unfold general_error.
  repeat case_match; try done;
    try (intros [= ? ?]; subst; right; split; [done|]; by eexists).
  intros [= ->]. eauto.
Qed.

Lemma gather_failed_v12 (resp early : FCSResponse) (i : nat)
    (waits : list Query_) (code : Z) :
  gather resp i waits = inl (code, early) -> failed_v12 resp code early.
Proof.
  revert i. induction waits as [|w waits IH]; intros i; simpl; [done|].
  unfold general_error.
  repeat case_match; try done;
    try (intros [= ? ?]; subst; right; split; [done|]; by eexists).
  intros [= ->]. eauto.
Qed.

Lemma searchRetrieve_cases_v12 (a : FCSSubHandlerV12) (q : Values)
    (fcsResponse : FCSResponse) :
  (exists rows : list FCSSearchRow,
     searchRetrieve a q fcsResponse = (StatusOK, set_Results fcsResponse rows)) \/
  (exists (code : Z) (early : FCSResponse),
     searchRetrieve a q fcsResponse = (code, early) /\
     failed_v12 fcsResponse code early).
Proof.
  unfold searchRetrieve.
  destruct (unsupported a q) as [key|].
  { right. eexists _, _. split; [done|]. left. split; [done|]. by eexists. }
  case_bool_decide.
  { right. eexists _, _. split; [done|]. left. split; [done|]. by eexists. }
  destruct (NewBasicTransformer (Query q "query")) as [transformer [fcsErr|]].
  { right. eexists _, _. split; [done|]. right. split; [done|]. by eexists. }
  destruct (searchable a q fcsResponse) as [[c early]|[corpora searchAttrs]] eqn:Hsel.
  { right. exists c, early. split; [done|]. by apply searchable_failed_v12 in Hsel. }
  destruct (publish a transformer fcsResponse 0 corpora searchAttrs)
    as [[c early]|jobs] eqn:Hpub.
  { right. exists c, early. split; [done|]. by apply publish_failed_v12 in Hpub. }
  destruct (gather fcsResponse 0 jobs) as [[c early]|results] eqn:Hres.
  { right. exists c, early. split; [done|]. by apply gather_failed_v12 in Hres. }
  left. by eexists.
Qed.

(** X18.  handler/v12/handler.go, [searchRetrieve]: all or nothing, as
    in package handler: status 200 and new rows, or status 400 or 500
    and one diagnostic with the rows as they were. *)
Theorem searchRetrieve_all_or_nothing_v12 (a : FCSSubHandlerV12) (q : Values)
    (fcsResponse : FCSResponse) :
  (exists rows : list FCSSearchRow,
     searchRetrieve a q fcsResponse = (StatusOK, set_Results fcsResponse rows)) \/
  (exists (code : Z) (early : FCSResponse),
     searchRetrieve a q fcsResponse = (code, early) /\
     failed_v12 fcsResponse code early).
Proof. apply searchRetrieve_cases_v12. Qed.

End V12.

Section V12c.
Context `{Env}.
Import v12c.

Ltac added :=
  intros [= ? ?]; subst; unfold failed_v12c; split;
  [ rewrite !elem_of_cons; tauto | by eexists ].

Lemma publish_added (a : FCSSubHandlerV12) (fcsQuery : string)
    (retrieveAttrs : list string) (resp early : FCSResponse) (i : nat)
    (corpora : list string) (code : Z) :
  publish a fcsQuery retrieveAttrs resp i corpora = inl (code, early) ->
  failed_v12c resp code early.
Proof.
  revert i. induction corpora as [|c corpora IH]; intros i; simpl; [done|].
  unfold general_error.
  repeat case_match; try done; try added.
  intros [= ->]. eauto.
Qed.

Lemma gather_added (resp early : FCSResponse) (i : nat) (waits : list Query_)
    (code : Z) :
  gather resp i waits = inl (code, early) -> failed_v12c resp code early.
Proof.
  revert i. induction waits as [|w waits IH]; intros i; simpl; [done|].
  unfold general_error.
  repeat case_match; try done; try added.
  intros [= ->]. eauto.
Qed.

Lemma searchable_added (a : FCSSubHandlerV12) (q : Values)
    (resp early : FCSResponse) (code : Z) :
  searchable a q resp = inl (code, early) -> failed_v12c resp code early.
Proof.
  unfold searchable. repeat case_match; try done; added.
Qed.

(** X19.  The later handler, [searchRetrieve]: all or nothing.  Either
    the status is 200 and the response is the given one with new rows,
    or the status is one of the two conformant ones or 500, exactly one
    diagnostic was added to those the response had, and the rows are as
    they were. *)
Theorem searchRetrieve_all_or_nothing_v12c (a : FCSSubHandlerV12) (q : Values)
    (fcsResponse : FCSResponse) :
  (exists rows : list FCSSearchRow,
     searchRetrieve a q fcsResponse = (StatusOK, set_Results fcsResponse rows)) \/
  (exists (code : Z) (early : FCSResponse),
     searchRetrieve a q fcsResponse = (code, early) /\
     failed_v12c fcsResponse code early).
Proof.
  unfold searchRetrieve.
  destruct (List.find _ (keys q)) as [key|].
  { right. eexists _, _. split; [done|]. split; [apply list_elem_of_here | by eexists]. }
  case_bool_decide.
  { right. eexists _, _. split; [done|]. split; [apply list_elem_of_here | by eexists]. }
  destruct (searchable a q fcsResponse) as [[c early]|corpora] eqn:Hsel.
  { right. exists c, early. split; [done|]. by apply searchable_added in Hsel. }
  destruct (publish a _ _ fcsResponse 0 corpora) as [[c early]|jobs] eqn:Hpub.
  { right. exists c, early. split; [done|]. by apply publish_added in Hpub. }
  destruct (gather fcsResponse 0 jobs) as [[c early]|results] eqn:Hres.
  { right. exists c, early. split; [done|]. by apply gather_added in Hres. }
  left. by eexists.
Qed.

End V12c.

(** ** The attributes searched *)

Lemma listed_aligned (a : v12.FCSSubHandlerV12) (resp : v12.FCSResponse)
    (names corpora searchAttrs targets attrs : list string) :
  Forall2 (searched_with (Resources (v12.corporaConf a))) corpora searchAttrs ->
  v12.listed a resp names corpora searchAttrs = inr (targets, attrs) ->
  Forall2 (searched_with (Resources (v12.corporaConf a))) targets attrs.
Proof.
  revert corpora searchAttrs.
  induction names as [|v names IH]; intros corpora searchAttrs Hal; simpl.
  { by intros [= <- <-]. }
  destruct (Resources (v12.corporaConf a) !! v) as [resource|] eqn:Hv; [|done].
  apply IH. apply Forall2_app; [done|].
  constructor; [by exists resource | constructor].
Qed.

Lemma foldl_aligned (rs : gmap string Resource) (l : list (string * Resource))
    (corpora searchAttrs : list string) :
  Forall (fun kr => rs !! kr.1 = Some kr.2) l ->
  Forall2 (searched_with rs) corpora searchAttrs ->
  let res :=
    foldl (fun '(corpora, searchAttrs) '(corpusName, resource) =>
             (corpora ++ [corpusName], searchAttrs ++ [DefaultSearchAttr resource]))
          (corpora, searchAttrs) l in
  Forall2 (searched_with rs) res.1 res.2.
Proof.
  revert corpora searchAttrs.
  induction l as [|[k r] l IH]; intros corpora searchAttrs Hl Hal; simpl; [done|].
  apply Forall_cons in Hl as [Hk Hl]. apply IH; [done|].
  apply Forall2_app; [done|].
  constructor; [by exists r | constructor].
Qed.

(** X20.  handler/v12/handler.go: the corpora to search and the
    attributes to search them by are aligned.  When the selection of the
    corpora succeeds, the two slices have the same length, every target
    is a configured corpus, and the attribute at its index is the default
    search attribute of that corpus: [searchAttrs[i]] is in range for
    every [i] of the loop that makes the searches. *)
Theorem searchable_attrs_aligned (a : v12.FCSSubHandlerV12) (q : Values)
    (resp : v12.FCSResponse) (corpora searchAttrs : list string) :
  v12.searchable a q resp = inr (corpora, searchAttrs) ->
  length corpora = length searchAttrs /\
  Forall2 (searched_with (Resources (v12.corporaConf a))) corpora searchAttrs.
Proof.
  intros Hsel.
  assert (Hal : Forall2 (searched_with (Resources (v12.corporaConf a)))
                  corpora searchAttrs).
  { unfold v12.searchable in Hsel. destruct (Has q "x-fcs-context").
    - eapply listed_aligned; [constructor | exact Hsel].
    - injection Hsel as Hsel.
      pose proof (foldl_aligned (Resources (v12.corporaConf a))
                    (map_to_list (Resources (v12.corporaConf a))) [] []) as Hf.
      simpl in Hf. rewrite Hsel in Hf. apply Hf; [|constructor].
      apply Forall_forall. intros [k r] Hin. by apply elem_of_map_to_list. }
  split; [by eapply Forall2_length | done].
Qed.

(** ** explain *)

Lemma describe_app (rs : list handler_more.FCSResourceInfo) (names : list string) :
  handler_more.describe rs names = rs ++ (handler_more.info <$> names).
Proof.
  unfold handler_more.describe. revert rs.
  induction names as [|c names IH]; intros rs; simpl.
  - by rewrite app_nil_r.
  - rewrite IH. by rewrite <- app_assoc.
Qed.

Lemma PID_info (names : list string) :
  handler_more.PID <$> (handler_more.info <$> names) = names.
Proof. induction names as [|c names IH]; [done|]. csimpl. by rewrite IH. Qed.

Lemma keys_NoDup {A : Type} (m : gmap string A) : NoDup (keys m).
Proof. unfold keys. apply NoDup_fst_map_to_list. Qed.

Lemma explain_cases (a : handler.Actions) (u : handler_more.URL)
    (resp : handler_more.FCSResponse) :
  (exists key : string,
     handler_more.explain a u resp =
       (StatusBadRequest,
        handler_more.set_Error resp
          {| Code_ := CodeUnsupportedParameter; Ident := key;
             Message := "Unsupported parameter" |})) \/
  (exists resp' : handler_more.FCSResponse,
     handler_more.explain a u resp = (StatusOK, resp') /\
     handler_more.fields resp' = handler_more.fields resp /\
     handler_more.Resources resp' =
       handler_more.Resources resp ++
       if bool_decide (Query (handler_more.URL_Query u) "x-fcs-endpoint-description"
                       = "true")
       then handler_more.info <$> keys (Resources (handler.conf a)) else []).
Proof.
  unfold handler_more.explain.
  destruct (List.find _ _) as [key|]; [left; by exists key|].
  right. eexists. split; [done|].
  case_bool_decide; simpl; [by rewrite describe_app | by rewrite app_nil_r].
Qed.

Lemma explain_cases_v12 (a : v12_more.FCSSubHandlerV12) (u : v12_more.URL)
    (resp : v12_more.FCSResponse) :
  (exists key : string,
     v12_more.explain a u resp =
       (StatusBadRequest,
        v12_more.set_Error resp
          {| Code_ := CodeUnsupportedParameter; Ident := key;
             Message := "Unsupported parameter" |})) \/
  (exists resp' : v12_more.FCSResponse,
     v12_more.explain a u resp = (StatusOK, resp') /\
     v12_more.fields resp' = v12_more.fields resp /\
     v12_more.Resources resp' =
       v12_more.Resources resp ++
       if bool_decide (Query (handler_more.URL_Query u) "x-fcs-endpoint-description"
                       = "true")
       then handler_more.info <$>
              keys (Resources (v12.corporaConf (v12_more.handler_fields a)))
       else []).
Proof.
  unfold v12_more.explain.
  destruct (List.find _ _) as [key|]; [left; by exists key|].
  right. eexists. split; [done|].
  case_bool_decide; simpl; [by rewrite describe_app | by rewrite app_nil_r].
Qed.

(** X21.  An endpoint description lists the configured corpora, each
    once: when [explain] is asked for it and answers 200 on a response
    without resources, the ids of the resources are without duplicates
    and are the names the registry has, in whatever order the map is
    visited.  This holds in package handler and in
    handler/v12/handler.go. *)
Theorem explain_describes_each_corpus :
  (forall (a : handler.Actions) (u : handler_more.URL)
          (resp resp' : handler_more.FCSResponse),
     handler_more.explain a u resp = (StatusOK, resp') ->
     Query (handler_more.URL_Query u) "x-fcs-endpoint-description" = "true" ->
     handler_more.Resources resp = [] ->
     NoDup (handler_more.PID <$> handler_more.Resources resp') /\
     forall c : string,
       c ∈ handler_more.PID <$> handler_more.Resources resp' <->
       known (Resources (handler.conf a)) c) /\
  (forall (a : v12_more.FCSSubHandlerV12) (u : v12_more.URL)
          (resp resp' : v12_more.FCSResponse),
     v12_more.explain a u resp = (StatusOK, resp') ->
     Query (handler_more.URL_Query u) "x-fcs-endpoint-description" = "true" ->
     v12_more.Resources resp = [] ->
     NoDup (handler_more.PID <$> v12_more.Resources resp') /\
     forall c : string,
       c ∈ handler_more.PID <$> v12_more.Resources resp' <->
       known (Resources (v12.corporaConf (v12_more.handler_fields a))) c).
Proof.
  split.
  - intros a u resp resp' Hex Hflag Hnone.
    destruct (explain_cases a u resp) as [[key Hk] | (r & Hr & _ & Hres)];
      rewrite Hex in *; [done|].
    injection Hr as <-. rewrite Hres, Hnone, bool_decide_eq_true_2 by done.
    simpl. rewrite PID_info. split; [apply keys_NoDup|].
    intros c. apply elem_of_keys.
  - intros a u resp resp' Hex Hflag Hnone.
    destruct (explain_cases_v12 a u resp) as [[key Hk] | (r & Hr & _ & Hres)];
      rewrite Hex in *; [done|].
    injection Hr as <-. rewrite Hres, Hnone, bool_decide_eq_true_2 by done.
    simpl. rewrite PID_info. split; [apply keys_NoDup|].
    intros c. apply elem_of_keys.
Qed.

(** ** The dispatchers *)

Ltac in_scan :=
  solve [repeat first [apply list_elem_of_here | apply list_elem_of_further]].

Section Dispatch.
Context `{Env}.

Lemma failed_handler_status (resp early : handler.FCSResponse) (code : Z) :
  failed_handler resp code early ->
  code <> StatusOK /\ code ∈ [StatusBadRequest; StatusInternalServerError] /\
  is_Some (handler.Error early).
Proof.
  intros [[-> [e ->]] | [-> [e ->]]]; (split; [done|]); (split; [|by eexists]).
  - apply list_elem_of_here.
  - apply list_elem_of_further, list_elem_of_here.
Qed.

Lemma failed_v12_status (resp early : v12.FCSResponse) (code : Z) :
  failed_v12 resp code early ->
  code <> StatusOK /\ code ∈ [StatusBadRequest; StatusInternalServerError] /\
  is_Some (v12.Error (v12.General early)).
Proof.
  intros [[-> [e ->]] | [-> [e ->]]]; (split; [done|]); (split; [|by eexists]).
  - apply list_elem_of_here.
  - apply list_elem_of_further, list_elem_of_here.
Qed.

(** X22.  Package handler, [FCSHandler]: the status follows the
    diagnostic.  Whenever the template is rendered, the status written
    is 200, 400 or 500, and it is 200 exactly when the rendered response
    has no diagnostic. *)
Theorem FCSHandler_status_follows_diagnostic
    (ExecuteTemplate : handler_more.FCSResponse -> option error)
    (a : handler.Actions) (u : handler_more.URL)
    (contentType : option string) (data : handler_more.FCSResponse) (code : Z) :
  handler_more.FCSHandler ExecuteTemplate a u =
    handler_more.Written contentType data code ->
  code ∈ [StatusOK; StatusBadRequest; StatusInternalServerError] /\
  (code = StatusOK <-> handler.Error (handler_more.fields data) = None).
Proof.
  unfold handler_more.FCSHandler, handler_more.respond.
  assert (Hbad : forall (resp : handler_more.FCSResponse) (e : FCSError) h,
            match ExecuteTemplate (handler_more.set_Error resp e) with
            | Some err => handler_more.Aborted h (handler_more.set_Error resp e) err
            | None => handler_more.Written h (handler_more.set_Error resp e)
                        StatusBadRequest
            end = handler_more.Written contentType data code ->
            code ∈ [StatusOK; StatusBadRequest; StatusInternalServerError] /\
            (code = StatusOK <-> handler.Error (handler_more.fields data) = None)).
  { intros resp e h. destruct (ExecuteTemplate _); [done|].
    intros [= <- <- <-]. split; [apply list_elem_of_further, list_elem_of_here|].
    split; done. }
  destruct (negb (SliceContains (handler.supportedRecordPackings a) _)); [apply Hbad|].
  destruct (negb (SliceContains (handler.supportedVersions a) _)); [apply Hbad|].
  destruct (negb (SliceContains (handler.supportedOperations a) _)); [apply Hbad|].
  cbn [handler_more.fields handler_more.set_Operation handler_more.with_fields
       handler.Operation].
  case_bool_decide as Hop1.
  { match goal with
    | |- context [handler_more.explain a u ?r] =>
        destruct (explain_cases a u r) as [[key ->] | (r' & -> & Hf & _)]
    end.
    - apply Hbad.
    - destruct (ExecuteTemplate r'); [done|]. intros [= <- <- <-].
      rewrite Hf. split; [apply list_elem_of_here | done]. }
  case_bool_decide as Hop2.
  { unfold handler_more.searchRetrieve.
    match goal with
    | |- context [handler.searchRetrieve a ?q ?r] =>
        destruct (searchRetrieve_cases a q r) as [[rows ->] | (c & early & -> & Hfail)]
    end.
    - destruct (ExecuteTemplate _); [done|]. intros [= <- <- <-].
      split; [apply list_elem_of_here | done].
    - apply failed_handler_status in Hfail as (Hc & Hin & Hsome).
      destruct (ExecuteTemplate _); [done|]. intros [= <- <- <-].
      split; [by apply list_elem_of_further|].
      simpl. split; [done|]. intros Hnone. rewrite Hnone in Hsome.
      by destruct Hsome. }
  destruct (ExecuteTemplate _); [done|]. intros [= <- <- <-].
  split; [apply list_elem_of_here | done].
Qed.

(** X23.  handler/v12/handler.go, [Handle]: the diagnostic of an
    unsupported record packing is lost.  It is assigned to the parameter
    [fcsGeneralResponse], of which the response holds a copy made
    before, so the template is executed with a response without
    diagnostic; the status is 400 and no content type is set. *)
Theorem Handle_drops_recordPacking_diagnostic
    (ExecuteTemplate : v12_more.FCSResponse -> option error)
    (a : v12_more.FCSSubHandlerV12) (u : v12_more.URL)
    (fcsGeneralResponse : v12.FCSGeneralResponse) :
  v12.Error fcsGeneralResponse = None ->
  SliceContains (v12.supportedRecordPackings (v12_more.handler_fields a))
    (handler_more.DefaultQuery (handler_more.URL_Query u) "recordPacking" "xml")
    = false ->
  exists data : v12_more.FCSResponse,
    v12_more.Handle ExecuteTemplate a u fcsGeneralResponse =
      v12_more.produceResponse ExecuteTemplate None data StatusBadRequest /\
    v12.Error (v12.General (v12_more.fields data)) = None /\
    v12.Results (v12_more.fields data) = [].
Proof.
  intros Hnone Hpack. unfold v12_more.Handle.
  cbn [v12_more.fields v12.General v12.RecordPacking].
  rewrite Hnone. rewrite bool_decide_eq_false_2 by (by intros [? ?]).
  rewrite Hpack. cbn [negb]. eexists. split; [done|]. done.
Qed.

(** X24.  handler/v12/handler.go, [Handle]: the status follows the
    diagnostic but for that case.  Whenever the template is rendered the
    status written is 200, 400 or 500; with 200 the response has no
    diagnostic; and a response without diagnostic has another status
    only when the record packing is not supported. *)
Theorem Handle_status_follows_diagnostic
    (ExecuteTemplate : v12_more.FCSResponse -> option error)
    (a : v12_more.FCSSubHandlerV12) (u : v12_more.URL)
    (fcsGeneralResponse : v12.FCSGeneralResponse)
    (contentType : option string) (data : v12_more.FCSResponse) (code : Z) :
  v12_more.Handle ExecuteTemplate a u fcsGeneralResponse =
    v12_more.Written contentType data code ->
  code ∈ [StatusOK; StatusBadRequest; StatusInternalServerError] /\
  (code = StatusOK -> v12.Error (v12.General (v12_more.fields data)) = None) /\
  (v12.Error (v12.General (v12_more.fields data)) = None -> code <> StatusOK ->
   SliceContains (v12.supportedRecordPackings (v12_more.handler_fields a))
     (handler_more.DefaultQuery (handler_more.URL_Query u) "recordPacking" "xml")
     = false).
Proof.
  unfold v12_more.Handle, v12_more.produceResponse.
  cbn [v12_more.fields v12.General v12.RecordPacking].
  assert (Hbad : forall (resp : v12_more.FCSResponse) (e : FCSError) h,
            match ExecuteTemplate (v12_more.set_Error resp e) with
            | Some err => v12_more.Aborted h (v12_more.set_Error resp e) err
            | None => v12_more.Written h (v12_more.set_Error resp e)
                        StatusBadRequest
            end = v12_more.Written contentType data code ->
            code ∈ [StatusOK; StatusBadRequest; StatusInternalServerError] /\
            (code = StatusOK ->
             v12.Error (v12.General (v12_more.fields data)) = None) /\
            (v12.Error (v12.General (v12_more.fields data)) = None ->
             code <> StatusOK ->
             SliceContains (v12.supportedRecordPackings (v12_more.handler_fields a))
               (handler_more.DefaultQuery (handler_more.URL_Query u)
                  "recordPacking" "xml") = false)).
  { intros resp e h. destruct (ExecuteTemplate _); [done|].
    intros [= <- <- <-]. split; [apply list_elem_of_further, list_elem_of_here|].
    split; done. }
  case_bool_decide as Hin.
  { destruct (ExecuteTemplate _); [done|]. intros [= <- <- <-].
    split; [apply list_elem_of_further, list_elem_of_here|].
    split; [done|]. simpl. intros Hnone. rewrite Hnone in Hin. by destruct Hin. }
  destruct (SliceContains (v12.supportedRecordPackings _) _) eqn:Hpack; cbn [negb].
  2:{ destruct (ExecuteTemplate _); [done|]. intros [= <- <- <-].
      split; [apply list_elem_of_further, list_elem_of_here|]. split; done. }
  destruct (negb (SliceContains (v12.supportedOperations _) _)); [apply Hbad|].
  cbn [v12_more.fields v12_more.set_Operation v12_more.with_fields v12.Operation].
  assert (Hnone : v12.Error fcsGeneralResponse = None).
  { destruct (v12.Error fcsGeneralResponse) eqn:He; [|done].
    exfalso. apply Hin. by eexists. }
  case_bool_decide as Hop1.
  { match goal with
    | |- context [v12_more.explain a u ?r] =>
        destruct (explain_cases_v12 a u r) as [[key ->] | (r' & -> & Hf & _)]
    end.
    - apply Hbad.
    - destruct (ExecuteTemplate r'); [done|]. intros [= <- <- <-].
      rewrite Hf. split; [apply list_elem_of_here|]. split; done. }
  case_bool_decide as Hop2.
  { unfold v12_more.searchRetrieve.
    match goal with
    | |- context [v12.searchRetrieve ?a' ?q ?r] =>
        destruct (searchRetrieve_cases_v12 a' q r)
          as [[rows ->] | (c & early & -> & Hfail)]
    end.
    - destruct (ExecuteTemplate _); [done|]. intros [= <- <- <-].
      split; [apply list_elem_of_here|]. split; done.
    - apply failed_v12_status in Hfail as (Hc & Hcode & Hsome).
      destruct (ExecuteTemplate _); [done|]. intros [= <- <- <-].
      split; [by apply list_elem_of_further|].
      simpl. split; [done|]. intros Hno. rewrite Hno in Hsome.
      by destruct Hsome. }
  destruct (ExecuteTemplate _); [done|]. intros [= <- <- <-].
  split; [apply list_elem_of_here|]. split; done.
Qed.

(** X25.  The operation [scan] is accepted and not served: with a
    supported record packing (and, in package handler, version) the
    handlers of [NewActions] and [NewFCSSubHandlerV12] execute the
    template with the response as it was set up, without diagnostic,
    explanation, resources or rows, and write 200. *)
Theorem scan_is_not_served :
  (forall (ExecuteTemplate : handler_more.FCSResponse -> option error)
          (conf : CorporaSetup) (u : handler_more.URL) (packing version : string),
     handler_more.DefaultQuery (handler_more.URL_Query u) "recordPacking" "xml"
       = packing ->
     handler_more.DefaultQuery (handler_more.URL_Query u) "version" "1.2"
       = version ->
     handler_more.DefaultQuery (handler_more.URL_Query u) "operation" "explain"
       = "scan" ->
     packing ∈ ["xml"; "string"] -> version ∈ ["1.2"; "2.0"] ->
     handler_more.FCSHandler ExecuteTemplate (handler.NewActions conf) u =
       handler_more.respond ExecuteTemplate (handler_more.contentType_of packing)
         {| handler_more.fields :=
              {| handler.Version := version; handler.RecordPacking := packing;
                 handler.Operation := "scan"; handler.MaximumRecords := 250;
                 handler.MaximumTerms := 100;
                 handler.SearchRetrieve := {| handler.Results := [] |};
                 handler.Error := None |};
            handler_more.Explain := handler_more.FCSExplain_zero;
            handler_more.Resources := [] |}
         StatusOK) /\
  (forall (ExecuteTemplate : v12_more.FCSResponse -> option error)
          (generalConf : v12_more.GeneralInfo) (conf : CorporaSetup)
          (u : v12_more.URL) (packing : string),
     handler_more.DefaultQuery (handler_more.URL_Query u) "recordPacking" "xml"
       = packing ->
     handler_more.DefaultQuery (handler_more.URL_Query u) "operation" "explain"
       = "scan" ->
     packing ∈ ["xml"; "string"] ->
     v12_more.Handle ExecuteTemplate (v12_more.NewFCSSubHandlerV12 generalConf conf)
         u {| v12.Error := None |} =
       v12_more.produceResponse ExecuteTemplate (handler_more.contentType_of packing)
         {| v12_more.fields :=
              {| v12.General := {| v12.Error := None |};
                 v12.RecordPacking := packing; v12.Operation := "scan";
                 v12.Results := [] |};
            v12_more.Explain := handler_more.FCSExplain_zero;
            v12_more.Resources := [] |}
         StatusOK).
Proof.
  split.
  - intros tmpl conf u packing version Hp Hv Ho Hpin Hvin.
    unfold handler_more.FCSHandler.
    cbn [handler_more.fields handler.RecordPacking handler.Version
         handler.Operation handler_more.set_RecordPacking
         handler_more.set_Version handler_more.set_Operation
         handler_more.with_fields handler.NewActions
         handler.supportedRecordPackings handler.supportedVersions
         handler.supportedOperations].
    rewrite Hp, Hv, Ho. unfold SliceContains.
    rewrite (bool_decide_eq_true_2 _ Hpin), (bool_decide_eq_true_2 _ Hvin).
    rewrite (bool_decide_eq_true_2 ("scan" ∈ _)) by in_scan.
    cbn [negb]. rewrite !bool_decide_eq_false_2 by done. done.
  - intros tmpl g conf u packing Hp Ho Hpin.
    unfold v12_more.Handle.
    cbn [v12_more.fields v12.General v12.Error v12.RecordPacking v12.Operation
         v12_more.set_RecordPacking v12_more.set_Operation
         v12_more.with_fields v12_more.NewFCSSubHandlerV12
         v12_more.handler_fields v12.NewFCSSubHandlerV12
         v12.supportedRecordPackings v12.supportedOperations].
    rewrite (bool_decide_eq_false_2 (is_Some None)) by (by intros [? ?]).
    rewrite Hp, Ho. unfold SliceContains.
    rewrite (bool_decide_eq_true_2 _ Hpin).
    rewrite (bool_decide_eq_true_2 ("scan" ∈ _)) by in_scan.
    cbn [negb]. rewrite !bool_decide_eq_false_2 by done. done.
Qed.

End Dispatch.

#[local] Existing Instance sample.env.

Lemma searchable_attrs_aligned_witness :
  length ["corpusA"; "corpusB"] = length ["word"; "word"] /\
  Forall2 (searched_with (Resources sample.corpora))
    ["corpusA"; "corpusB"] ["word"; "word"].
Proof.
  apply (searchable_attrs_aligned (v12.NewFCSSubHandlerV12 sample.corpora)
           sample.request empty_v12).
  by vm_compute.
Defined.

Lemma explain_describes_each_corpus_witness :
  NoDup (handler_more.PID <$>
         handler_more.Resources
           (handler_more.explain (handler.NewActions sample.corpora)
              request_explain blank_handler).2) /\
  forall c : string,
    c ∈ handler_more.PID <$>
        handler_more.Resources
          (handler_more.explain (handler.NewActions sample.corpora)
             request_explain blank_handler).2 <->
    known (Resources sample.corpora) c.
Proof.
  apply (proj1 explain_describes_each_corpus (handler.NewActions sample.corpora)
           request_explain blank_handler);
    [by vm_compute | reflexivity | reflexivity].
Defined.

Lemma FCSHandler_status_follows_diagnostic_witness :
  exists data : handler_more.FCSResponse,
    handler_more.FCSHandler renders (handler.NewActions sample.corpora)
      request_json = handler_more.Written None data 400 /\
    (400%Z = StatusOK <-> handler.Error (handler_more.fields data) = None).
Proof.
  eexists. split; [reflexivity|].
  eapply (FCSHandler_status_follows_diagnostic renders
            (handler.NewActions sample.corpora) request_json).
  reflexivity.
Defined.

Lemma Handle_drops_recordPacking_diagnostic_witness :
  exists data : v12_more.FCSResponse,
    v12_more.Handle renders
        (v12_more.NewFCSSubHandlerV12 general_info sample.corpora)
        request_json {| v12.Error := None |} =
      v12_more.produceResponse renders None data StatusBadRequest /\
    v12.Error (v12.General (v12_more.fields data)) = None /\
    v12.Results (v12_more.fields data) = [].
Proof.
  apply (Handle_drops_recordPacking_diagnostic renders
           (v12_more.NewFCSSubHandlerV12 general_info sample.corpora)
           request_json {| v12.Error := None |}); [reflexivity | by vm_compute].
Defined.

Lemma Handle_status_follows_diagnostic_witness :
  exists data : v12_more.FCSResponse,
    v12_more.Handle renders
        (v12_more.NewFCSSubHandlerV12 general_info sample.corpora)
        request_explain {| v12.Error := None |} =
      v12_more.Written (Some "application/xml") data 200 /\
    (200%Z = StatusOK -> v12.Error (v12.General (v12_more.fields data)) = None).
Proof.
  eexists. split; [reflexivity|].
  eapply (Handle_status_follows_diagnostic renders
            (v12_more.NewFCSSubHandlerV12 general_info sample.corpora)
            request_explain {| v12.Error := None |}).
  reflexivity.
Defined.

Lemma scan_is_not_served_witness :
  handler_more.FCSHandler renders (handler.NewActions sample.corpora) request_scan =
    handler_more.Written (Some "application/xml")
      {| handler_more.fields :=
           {| handler.Version := "1.2"; handler.RecordPacking := "xml";
              handler.Operation := "scan"; handler.MaximumRecords := 250;
              handler.MaximumTerms := 100;
              handler.SearchRetrieve := {| handler.Results := [] |};
              handler.Error := None |};
         handler_more.Explain := handler_more.FCSExplain_zero;
         handler_more.Resources := [] |}
      StatusOK.
Proof.
  apply (proj1 scan_is_not_served renders sample.corpora request_scan "xml" "1.2");
    try reflexivity; in_scan.
Defined.

End fcs_more_facts.
